(** * comwork: story-to-comic slideshow

    A shallow embedding of the three revisions of the page script kept in
    the repository,

    - [index.tsx]            (module [Index]):   one chat, eager text/image
                                                  pairing, trailing flush;
    - [unnamed/part_000]     (module [Part000]): the same loop behind an
                                                  API-key screen and an
                                                  input guard;
    - [unnamed/part_001]     (module [Part001]): the two-stage pipeline
                                                  (script, then one image
                                                  request per panel),

    together with the pieces of the JavaScript run time their behaviour
    depends on: strings as sequences of UTF-16 code units, [String.trim],
    the three regular expressions of the source, [JSON.parse], property
    reads and string conversion of parsed values, exceptions.

    The hosted model, the SDK and the [marked] library are external: the
    chats are oracles of the [World], and what only the engine or a library
    decides (the text of engine-raised errors, number formatting, the HTML
    produced by [marked.parse]) is a field of the [Host]. *)

From Stdlib Require Import List NArith Arith Bool String Ascii Lia.
Import ListNotations.

Set Implicit Arguments.
Set Warnings "-register-all".

(* ================================================================== *)
(** * JavaScript strings *)
(* ================================================================== *)

(** A JavaScript string is a finite sequence of UTF-16 code units. *)
Abbreviation jschar := N (only parsing).
Abbreviation jsstring := (list N) (only parsing).

(** [lit s]: the code units of a literal of the source (ASCII). *)
Definition lit (s : string) : jsstring :=
  List.map N_of_ascii (list_ascii_of_string s).

Definition dquote : jsstring := [34%N].
Definition nl : jsstring := [10%N].
Definition backtick : jschar := 96%N.

Definition jschar_eqb (a b : jschar) : bool := N.eqb a b.

Fixpoint jsstring_eqb (a b : jsstring) : bool :=
  match a, b with
  | [], [] => true
  | x :: a', y :: b' => jschar_eqb x y && jsstring_eqb a' b'
  | _, _ => false
  end.

(** [strip_prefix p s = Some r] when [s = p ++ r]. *)
Fixpoint strip_prefix (p s : jsstring) : option jsstring :=
  match p, s with
  | [], _ => Some s
  | x :: p', y :: s' => if jschar_eqb x y then strip_prefix p' s' else None
  | _ :: _, [] => None
  end.

(** ECMAScript WhiteSpace and LineTerminator code units: the class [\s] of
    regular expressions and what [String.prototype.trim] removes. *)
Definition is_js_space (c : jschar) : bool :=
  ((9 <=? c) && (c <=? 13) || (c =? 32) || (c =? 160) || (c =? 5760)
   || (8192 <=? c) && (c <=? 8202) || (c =? 8232) || (c =? 8233)
   || (c =? 8239) || (c =? 8287) || (c =? 12288) || (c =? 65279))%N.

(** Line terminators: what [.] does not match in a regular expression. *)
Definition is_line_terminator (c : jschar) : bool :=
  ((c =? 10) || (c =? 13) || (c =? 8232) || (c =? 8233))%N.

(** The four white-space characters of the JSON grammar. *)
Definition is_json_ws (c : jschar) : bool :=
  ((c =? 9) || (c =? 10) || (c =? 13) || (c =? 32))%N.

Fixpoint drop_while (f : jschar -> bool) (s : jsstring) : jsstring :=
  match s with
  | [] => []
  | c :: s' => if f c then drop_while f s' else s
  end.

Fixpoint take_while (f : jschar -> bool) (s : jsstring) : jsstring :=
  match s with
  | [] => []
  | c :: s' => if f c then c :: take_while f s' else []
  end.

(** [s.trim()] *)
Definition trim (s : jsstring) : jsstring :=
  rev (drop_while is_js_space (rev (drop_while is_js_space s))).

(** Decimal digits of a natural number, as a template literal renders
    [panelCount]. *)
Fixpoint uint_digits (d : Decimal.uint) : jsstring :=
  match d with
  | Decimal.Nil => []
  | Decimal.D0 d' => 48%N :: uint_digits d'
  | Decimal.D1 d' => 49%N :: uint_digits d'
  | Decimal.D2 d' => 50%N :: uint_digits d'
  | Decimal.D3 d' => 51%N :: uint_digits d'
  | Decimal.D4 d' => 52%N :: uint_digits d'
  | Decimal.D5 d' => 53%N :: uint_digits d'
  | Decimal.D6 d' => 54%N :: uint_digits d'
  | Decimal.D7 d' => 55%N :: uint_digits d'
  | Decimal.D8 d' => 56%N :: uint_digits d'
  | Decimal.D9 d' => 57%N :: uint_digits d'
  end.

Definition nat_to_string (n : nat) : jsstring := uint_digits (Nat.to_uint n).

(** [includes sub s]: [sub] occurs in [s] as a contiguous substring. *)
Definition includes (sub s : jsstring) : Prop :=
  exists pre post, s = pre ++ sub ++ post.

(** Code points of a string, as the string iterator of [for...of] yields
    them: a high surrogate followed by a low surrogate is one element. *)
Fixpoint code_points (s : jsstring) : list jsstring :=
  match s with
  | [] => []
  | c :: s' =>
      match s' with
      | d :: s'' =>
          if ((55296 <=? c) && (c <=? 56319) && (56320 <=? d) && (d <=? 57343))%N
          then match code_points s' with
               | _ :: r => [c; d] :: r
               | [] => [[c; d]]
               end
          else [c] :: code_points s'
      | [] => [[c]]
      end
  end.

(* ================================================================== *)
(** * JSON values and [JSON.parse] *)
(* ================================================================== *)

(** A parsed JSON value. A number keeps its lexeme: its value as a double is
    the host's business ([number_is_zero], [number_to_string] below). An
    object keeps its members in source order, duplicates included; a
    property read takes the last one, as [JSON.parse] does. *)
Inductive json : Type :=
| JNull
| JBool (b : bool)
| JNumber (lexeme : jsstring)
| JString (s : jsstring)
| JArray (elements : list json)
| JObject (members : list (jsstring * json)).

Module JSON.

Inductive token : Type :=
| TLBrace | TRBrace | TLBracket | TRBracket | TColon | TComma
| TString (s : jsstring)
| TNumber (lexeme : jsstring)
| TTrue | TFalse | TNull.

(** ** Lexer: one pass over the code units *)

Inductive lstate : Type :=
| LDefault
| LWord (acc : jsstring)                      (* reversed: a literal name or a number *)
| LString (acc : jsstring)                    (* reversed contents so far *)
| LEscape (acc : jsstring)                    (* just after a backslash *)
| LUnicode (acc : jsstring) (hex : list N).   (* after \u, digits read so far *)

Definition is_digit (c : jschar) : bool := ((48 <=? c) && (c <=? 57))%N.

Definition is_word_char (c : jschar) : bool :=
  (is_digit c || (c =? 43) || (c =? 45) || (c =? 46)
   || (97 <=? c) && (c <=? 122) || (65 <=? c) && (c <=? 90))%N.

Definition hex_value (c : jschar) : option N :=
  (if is_digit c then Some (c - 48)
   else if (97 <=? c) && (c <=? 102) then Some (c - 87)
   else if (65 <=? c) && (c <=? 70) then Some (c - 55)
   else None)%N.

Definition simple_escape (c : jschar) : option jschar :=
  (if c =? 34 then Some 34            (* quotation mark *)
   else if c =? 92 then Some 92       (* reverse solidus *)
   else if c =? 47 then Some 47       (* solidus *)
   else if c =? 98 then Some 8        (* b: backspace *)
   else if c =? 102 then Some 12      (* f: form feed *)
   else if c =? 110 then Some 10      (* n: line feed *)
   else if c =? 114 then Some 13      (* r: carriage return *)
   else if c =? 116 then Some 9       (* t: tab *)
   else None)%N.

(** The number grammar: an optional minus sign; then a single zero, or a
    non-zero digit followed by any digits; then optionally a dot and one
    or more digits; then optionally e or E, an optional sign and one or
    more digits. *)
Definition digits1 (s : jsstring) : option jsstring :=
  match s with
  | c :: _ => if is_digit c then Some (drop_while is_digit s) else None
  | [] => None
  end.

Definition number_exp (s : jsstring) : bool :=
  match s with
  | [] => true
  | c :: r =>
      if ((c =? 101) || (c =? 69))%N then
        let r' := match r with
                  | d :: r'' => if ((d =? 43) || (d =? 45))%N then r'' else r
                  | [] => r
                  end in
        match digits1 r' with Some [] => true | _ => false end
      else false
  end.

Definition number_frac (s : jsstring) : bool :=
  match s with
  | c :: r =>
      if (c =? 46)%N then
        match digits1 r with Some r' => number_exp r' | None => false end
      else number_exp s
  | [] => true
  end.

Definition number_int (s : jsstring) : bool :=
  match s with
  | c :: r =>
      if (c =? 48)%N then number_frac r
      else if is_digit c then number_frac (drop_while is_digit r)
      else false
  | [] => false
  end.

Definition is_number (s : jsstring) : bool :=
  match s with
  | c :: r => if (c =? 45)%N then number_int r else number_int s
  | [] => false
  end.

Definition classify (w : jsstring) : option token :=
  if jsstring_eqb w (lit "true") then Some TTrue
  else if jsstring_eqb w (lit "false") then Some TFalse
  else if jsstring_eqb w (lit "null") then Some TNull
  else if is_number w then Some (TNumber w)
  else None.

(** One code unit read in the default state. *)
Definition start (c : jschar) (acc : list token)
  : option (lstate * list token) :=
  (if is_json_ws c then Some (LDefault, acc)
   else if c =? 123 then Some (LDefault, TLBrace :: acc)
   else if c =? 125 then Some (LDefault, TRBrace :: acc)
   else if c =? 91 then Some (LDefault, TLBracket :: acc)
   else if c =? 93 then Some (LDefault, TRBracket :: acc)
   else if c =? 58 then Some (LDefault, TColon :: acc)
   else if c =? 44 then Some (LDefault, TComma :: acc)
   else if c =? 34 then Some (LString [], acc)
   else if is_word_char c then Some (LWord [c], acc)
   else None)%N.

Definition lex_step (st : lstate) (acc : list token) (c : jschar)
  : option (lstate * list token) :=
  match st with
  | LDefault => start c acc
  | LWord w =>
      if is_word_char c then Some (LWord (c :: w), acc)
      else match classify (rev w) with
           | Some t => start c (t :: acc)
           | None => None
           end
  | LString s =>
      (if c =? 34 then Some (LDefault, TString (rev s) :: acc)
       else if c =? 92 then Some (LEscape s, acc)
       else if c <? 32 then None
       else Some (LString (c :: s), acc))%N
  | LEscape s =>
      if (c =? 117)%N then Some (LUnicode s [], acc)
      else match simple_escape c with
           | Some d => Some (LString (d :: s), acc)
           | None => None
           end
  | LUnicode s hex =>
      match hex_value c with
      | Some h =>
          match hex with
          | [h1; h2; h3] =>
              Some (LString ((((h3 * 16 + h2) * 16 + h1) * 16 + h)%N :: s), acc)
          | _ => Some (LUnicode s (h :: hex), acc)
          end
      | None => None
      end
  end.

Definition lex_end (st : lstate) (acc : list token) : option (list token) :=
  match st with
  | LDefault => Some (rev acc)
  | LWord w =>
      match classify (rev w) with
      | Some t => Some (rev (t :: acc))
      | None => None
      end
  | _ => None
  end.

Fixpoint lex_go (st : lstate) (acc : list token) (s : jsstring)
  : option (list token) :=
  match s with
  | [] => lex_end st acc
  | c :: s' =>
      match lex_step st acc c with
      | Some (st', acc') => lex_go st' acc' s'
      | None => None
      end
  end.

Definition lex (s : jsstring) : option (list token) := lex_go LDefault [] s.

(** ** Parser: recursive descent over the tokens *)

Fixpoint parse_value (fuel : nat) (ts : list token)
  : option (json * list token) :=
  match fuel with
  | O => None
  | S fuel' =>
      match ts with
      | TNull :: r => Some (JNull, r)
      | TTrue :: r => Some (JBool true, r)
      | TFalse :: r => Some (JBool false, r)
      | TNumber l :: r => Some (JNumber l, r)
      | TString s :: r => Some (JString s, r)
      | TLBracket :: TRBracket :: r => Some (JArray [], r)
      | TLBracket :: r =>
          match parse_elements fuel' r with
          | Some (vs, r') => Some (JArray vs, r')
          | None => None
          end
      | TLBrace :: TRBrace :: r => Some (JObject [], r)
      | TLBrace :: r =>
          match parse_members fuel' r with
          | Some (ms, r') => Some (JObject ms, r')
          | None => None
          end
      | _ => None
      end
  end
with parse_elements (fuel : nat) (ts : list token)
  : option (list json * list token) :=
  match fuel with
  | O => None
  | S fuel' =>
      match parse_value fuel' ts with
      | Some (v, TComma :: r) =>
          match parse_elements fuel' r with
          | Some (vs, r') => Some (v :: vs, r')
          | None => None
          end
      | Some (v, TRBracket :: r) => Some ([v], r)
      | _ => None
      end
  end
with parse_members (fuel : nat) (ts : list token)
  : option (list (jsstring * json) * list token) :=
  match fuel with
  | O => None
  | S fuel' =>
      match ts with
      | TString k :: TColon :: r =>
          match parse_value fuel' r with
          | Some (v, TComma :: r') =>
              match parse_members fuel' r' with
              | Some (ms, r'') => Some ((k, v) :: ms, r'')
              | None => None
              end
          | Some (v, TRBrace :: r') => Some ([(k, v)], r')
          | _ => None
          end
      | _ => None
      end
  end.

(** The fuel given here is never what makes a parse fail: with any larger
    amount the result is the same ([parse_tokens_fuel] below). *)
Definition parse_tokens (ts : list token) : option json :=
  match parse_value (2 * List.length ts + 2) ts with
  | Some (v, []) => Some v
  | _ => None
  end.

(** [JSON.parse(s)]: [None] stands for the [SyntaxError] it throws. *)
Definition parse (s : jsstring) : option json :=
  match lex s with
  | Some ts => parse_tokens ts
  | None => None
  end.

End JSON.

(* ================================================================== *)
(** * Values, exceptions and the host *)
(* ================================================================== *)

(** What an expression of the source evaluates to, as far as the scripts
    need it: [undefined], or a value that came out of [JSON.parse] (a
    string of the program is a [JString]). *)
Inductive jsval : Type :=
| Undefined
| Value (v : json).

(** Engine-raised type errors of the operations the source performs. *)
Inductive type_error : Type :=
| read_of_undefined (prop : jsstring)   (* property read on undefined *)
| read_of_null (prop : jsstring)        (* property read on null *)
| not_iterable                          (* for...of over a non-iterable *)
| no_primitive_value                    (* string conversion of an object
                                           whose toString is not callable *)
| not_a_function (what : jsstring).     (* call of a value that is none *)

Inductive exn : Type :=
| Error (message : jsstring)        (* throw new Error(message) *)
| SyntaxError (text : jsstring)     (* JSON.parse(text), text ill-formed *)
| TypeError (what : type_error)
| MarkedError (input : jsval)       (* marked.parse of a non-string *)
| Rejection (rendering : jsstring)  (* thrown by the SDK; the field is what
                                       string conversion makes of it *)
| ThrownUndefined                   (* a promise rejected with undefined *)
| ThrownNull                        (* a promise rejected with null *)
| ReferenceError (name : jsstring). (* read of an undeclared identifier *)

(** Result of evaluating something that may throw. *)
Inductive completion (A : Type) : Type :=
| Normal (a : A)
| Throw (e : exn).
Arguments Normal {A} a.
Arguments Throw {A} e.

(** What the engine and the [marked] library decide. *)
Record Host : Type := {
  marked_parse : jsstring -> jsstring;      (* marked.parse on a string *)
  number_is_zero : jsstring -> bool;        (* the lexeme denotes +0 or -0 *)
  number_to_string : jsstring -> jsstring;  (* string conversion of the
                                               number the lexeme denotes *)
  engine_message : exn -> jsstring          (* string conversion of an
                                               engine- or library-raised
                                               exception *)
}.

(** String conversion of a caught exception, as a template literal or
    [toString] renders it. *)
Definition exn_to_string (h : Host) (e : exn) : jsstring :=
  match e with
  | Error [] => lit "Error"
  | Error m => lit "Error: " ++ m
  | Rejection r => r
  | ThrownUndefined => lit "undefined"
  | ThrownNull => lit "null"
  | _ => engine_message h e
  end.

(** The last member named [key]. *)
Fixpoint lookup (key : jsstring) (ms : list (jsstring * json)) : jsval :=
  match ms with
  | [] => Undefined
  | (k, v) :: ms' =>
      match lookup key ms' with
      | Value w => Value w
      | Undefined => if jsstring_eqb k key then Value v else Undefined
      end
  end.

(** [v.key], for the property names the source reads ([panels], [text],
    [characterDescription], [message]): none of them is a property of a
    string, a number, a boolean or an array, or of [Object.prototype]. *)
Definition get_prop (v : jsval) (key : jsstring) : completion jsval :=
  match v with
  | Undefined => Throw (TypeError (read_of_undefined key))
  | Value JNull => Throw (TypeError (read_of_null key))
  | Value (JObject ms) => Normal (lookup key ms)
  | Value _ => Normal Undefined
  end.

(** Truthiness, as [if (v)] and [!v] test it. *)
Definition truthy (h : Host) (v : jsval) : bool :=
  match v with
  | Undefined => false
  | Value JNull => false
  | Value (JBool b) => b
  | Value (JNumber l) => negb (number_is_zero h l)
  | Value (JString s) => match s with [] => false | _ => true end
  | Value (JArray _) => true
  | Value (JObject _) => true
  end.

Fixpoint join (sep : jsstring) (l : list jsstring) : jsstring :=
  match l with
  | [] => []
  | [x] => x
  | x :: l' => x ++ sep ++ join sep l'
  end.

(** String conversion of a parsed value. An array joins its elements with
    commas, [null] elements as empty strings. An object is rendered by
    [Object.prototype.toString] unless it has a member named [toString],
    which is never callable: the conversion then throws. *)
Fixpoint json_to_string (h : Host) (v : json) : completion jsstring :=
  match v with
  | JNull => Normal (lit "null")
  | JBool true => Normal (lit "true")
  | JBool false => Normal (lit "false")
  | JNumber l => Normal (number_to_string h l)
  | JString s => Normal s
  | JArray vs =>
      match
        (fix elements (vs : list json) : completion (list jsstring) :=
           match vs with
           | [] => Normal []
           | x :: vs' =>
               match (match x with
                      | JNull => Normal []
                      | _ => json_to_string h x
                      end) with
               | Normal s =>
                   match elements vs' with
                   | Normal ss => Normal (s :: ss)
                   | Throw e => Throw e
                   end
               | Throw e => Throw e
               end
           end) vs
      with
      | Normal ss => Normal (join (lit ",") ss)
      | Throw e => Throw e
      end
  | JObject ms =>
      match lookup (lit "toString") ms with
      | Undefined => Normal (lit "[object Object]")
      | Value _ => Throw (TypeError no_primitive_value)
      end
  end.

Definition to_string (h : Host) (v : jsval) : completion jsstring :=
  match v with
  | Undefined => Normal (lit "undefined")
  | Value w => json_to_string h w
  end.

(* ================================================================== *)
(** * The regular expressions of the source *)
(* ================================================================== *)

Definition fence : jsstring := [backtick; backtick; backtick].

(** [s.replace(/^```json\s*/, '')]: an opening fence at the very start of
    the string is removed together with the white space that follows. *)
Definition replace_leading_fence (s : jsstring) : jsstring :=
  match strip_prefix (fence ++ lit "json") s with
  | Some r => drop_while is_js_space r
  | None => s
  end.

(** [s.replace(/```$/, '')]: without the [m] flag, [$] matches at the end of
    the string only, so the first position from which exactly a fence
    remains is where the match is. *)
Fixpoint replace_trailing_fence (s : jsstring) : jsstring :=
  match s with
  | [] => []
  | c :: s' => if jsstring_eqb s fence then [] else c :: replace_trailing_fence s'
  end.

(** The part of [s] before its last [c]. *)
Fixpoint before_last (c : jschar) (s : jsstring) : option jsstring :=
  match s with
  | [] => None
  | x :: s' =>
      match before_last c s' with
      | Some r => Some (x :: r)
      | None => if jschar_eqb x c then Some [] else None
      end
  end.

(** The opening of the pattern: a brace, then the word error in quotation
    marks, then a colon. *)
Definition error_key : jsstring := lit "{" ++ dquote ++ lit "error" ++ dquote ++ lit ":".

(** [m[1]] for [m = regex.exec(s)], [regex] the pattern of [parseError]
    (a fresh object at each call, so the search starts at index 0):
    the leftmost position at which [error_key] is followed, on the same
    line, by a closing brace; the greedy group takes everything up to the
    last closing brace of that line. [None] when [exec] returns [null]. *)
Fixpoint exec_error_group (s : jsstring) : option jsstring :=
  match s with
  | [] => None
  | _ :: s' =>
      match strip_prefix error_key s with
      | Some r =>
          match before_last 125%N (take_while (fun c => negb (is_line_terminator c)) r) with
          | Some g => Some g
          | None => exec_error_group s'
          end
      | None => exec_error_group s'
      end
  end.

(** A group of the pattern: no line terminator in it. *)
Definition single_line (g : jsstring) : Prop :=
  Forall (fun c => negb (is_line_terminator c) = true) g.

(* ================================================================== *)
(** * Streamed responses of the SDK *)
(* ================================================================== *)

(** The fields the scripts read from a streamed [GenerateContentResponse].
    Each of them is optional in the SDK's declarations; [None] is a field
    that is [undefined]. *)
Record Blob : Type := { blob_data : option jsstring }.

Record Part : Type := {
  part_text : option jsstring;
  part_inlineData : option Blob
}.

Record Content : Type := { content_parts : option (list Part) }.

Record Candidate : Type := { candidate_content : option Content }.

Record Chunk : Type := { chunk_candidates : option (list Candidate) }.

(** What a call of [sendMessageStream] and the iteration over its result
    deliver: the chunks, and then either the end of the stream or an
    exception (a call that is rejected at once has no chunks). *)
Record Stream : Type := {
  stream_chunks : list Chunk;
  stream_failure : option exn
}.

(** A part that carries text only, and one that carries image data only. *)
Definition text_part (t : jsstring) : Part :=
  {| part_text := Some t; part_inlineData := None |}.

Definition image_part (d : jsstring) : Part :=
  {| part_text := None; part_inlineData := Some {| blob_data := Some d |} |}.

(** A chunk with a single candidate made of the given parts. *)
Definition chunk_of (ps : list Part) : Chunk :=
  {| chunk_candidates :=
       Some [ {| candidate_content := Some {| content_parts := Some ps |} |} ] |}.

(** [if (part.text)]: the text of the part when it is a non-empty string. *)
Definition carried_text (p : Part) : option jsstring :=
  match part_text p with
  | Some (c :: t) => Some (c :: t)
  | _ => None
  end.

(** [`data:image/png;base64,` + data.data] *)
Definition data_url (b : Blob) : jsstring :=
  lit "data:image/png;base64,"
  ++ match blob_data b with Some d => d | None => lit "undefined" end.

(* ================================================================== *)
(** * The page *)
(* ================================================================== *)

Record HTMLImageElement : Type := { src : jsstring }.

(** A [div.slide]: the image, then the caption [div] with its [innerHTML]. *)
Record Slide : Type := {
  slide_image : HTMLImageElement;
  slide_caption : jsstring
}.

(** The elements the scripts touch. [modelOutput] and [slideshow] list their
    children ([modelOutput] by the [innerHTML] of each user turn). *)
Record DOM : Type := {
  userInput_disabled : bool;
  userInput_value : jsstring;
  userInput_focused : bool;
  modelOutput : list jsstring;
  slideshow : list Slide;
  slideshow_hidden : bool;
  status_textContent : jsstring;
  status_hidden : bool;
  error_innerHTML : jsstring;
  error_hidden : bool
}.

(** The chat objects of the three revisions. *)
Inductive chat_id : Type := the_chat | the_textChat | the_imageChat.

(** A run's state: the page, and the requests sent to the model so far, in
    order (a trace: the program never reads it). *)
Record State : Type := {
  dom : DOM;
  sent : list (chat_id * jsstring)
}.

Definition Requests := list (chat_id * jsstring).

(** A chat that streams: the reply may depend on everything sent before,
    which covers whatever the SDK keeps as history. *)
Definition StreamingChat := Requests -> jsstring -> Stream.

(** A chat that answers with text: [sendMessage] and the reading of the
    reply's text either give a string or throw. *)
Definition TextChat := Requests -> jsstring -> completion jsstring.

(** ** A state-and-exception monad for the scripts *)

Definition M (A : Type) : Type := State -> completion A * State.

Definition ret {A} (a : A) : M A := fun s => (Normal a, s).

Definition bind {A B} (m : M A) (k : A -> M B) : M B :=
  fun s =>
    match m s with
    | (Normal a, s') => k a s'
    | (Throw e, s') => (Throw e, s')
    end.

Definition throw {A} (e : exn) : M A := fun s => (Throw e, s).

(** [try { m } catch (e) { h e }] *)
Definition try_catch {A} (m : M A) (h : exn -> M A) : M A :=
  fun s =>
    match m s with
    | (Normal a, s') => (Normal a, s')
    | (Throw e, s') => h e s'
    end.

(** A pure evaluation that may throw. *)
Definition lift {A} (c : completion A) : M A := fun s => (c, s).

Definition update (f : DOM -> DOM) : M unit :=
  fun s => (Normal tt, {| dom := f (dom s); sent := sent s |}).

Declare Scope js_scope.
Delimit Scope js_scope with js.
Notation "x <- m ;; k" := (bind m (fun x => k))
  (at level 61, m at next level, right associativity) : js_scope.
Notation "m ;; k" := (bind m (fun _ => k))
  (at level 61, right associativity) : js_scope.
Open Scope js_scope.

(** [chat.sendMessageStream({message})] followed by the iteration of the
    result: the request is recorded and the oracle gives the stream. *)
Definition sendMessageStream (id : chat_id) (chat : StreamingChat)
    (message : jsstring) : M Stream :=
  fun s =>
    (Normal (chat (sent s) message),
     {| dom := dom s; sent := sent s ++ [(id, message)] |}).

(** ** Assignments to the page *)

Definition set_userInput_disabled (b : bool) (d : DOM) : DOM :=
  {| userInput_disabled := b; userInput_value := userInput_value d;
     userInput_focused := userInput_focused d; modelOutput := modelOutput d;
     slideshow := slideshow d; slideshow_hidden := slideshow_hidden d;
     status_textContent := status_textContent d; status_hidden := status_hidden d;
     error_innerHTML := error_innerHTML d; error_hidden := error_hidden d |}.

Definition set_userInput_value (v : jsstring) (d : DOM) : DOM :=
  {| userInput_disabled := userInput_disabled d; userInput_value := v;
     userInput_focused := userInput_focused d; modelOutput := modelOutput d;
     slideshow := slideshow d; slideshow_hidden := slideshow_hidden d;
     status_textContent := status_textContent d; status_hidden := status_hidden d;
     error_innerHTML := error_innerHTML d; error_hidden := error_hidden d |}.

Definition userInput_focus (d : DOM) : DOM :=
  {| userInput_disabled := userInput_disabled d; userInput_value := userInput_value d;
     userInput_focused := true; modelOutput := modelOutput d;
     slideshow := slideshow d; slideshow_hidden := slideshow_hidden d;
     status_textContent := status_textContent d; status_hidden := status_hidden d;
     error_innerHTML := error_innerHTML d; error_hidden := error_hidden d |}.

Definition set_modelOutput (l : list jsstring) (d : DOM) : DOM :=
  {| userInput_disabled := userInput_disabled d; userInput_value := userInput_value d;
     userInput_focused := userInput_focused d; modelOutput := l;
     slideshow := slideshow d; slideshow_hidden := slideshow_hidden d;
     status_textContent := status_textContent d; status_hidden := status_hidden d;
     error_innerHTML := error_innerHTML d; error_hidden := error_hidden d |}.

Definition set_slideshow (l : list Slide) (d : DOM) : DOM :=
  {| userInput_disabled := userInput_disabled d; userInput_value := userInput_value d;
     userInput_focused := userInput_focused d; modelOutput := modelOutput d;
     slideshow := l; slideshow_hidden := slideshow_hidden d;
     status_textContent := status_textContent d; status_hidden := status_hidden d;
     error_innerHTML := error_innerHTML d; error_hidden := error_hidden d |}.

Definition set_slideshow_hidden (b : bool) (d : DOM) : DOM :=
  {| userInput_disabled := userInput_disabled d; userInput_value := userInput_value d;
     userInput_focused := userInput_focused d; modelOutput := modelOutput d;
     slideshow := slideshow d; slideshow_hidden := b;
     status_textContent := status_textContent d; status_hidden := status_hidden d;
     error_innerHTML := error_innerHTML d; error_hidden := error_hidden d |}.

Definition set_status (t : jsstring) (hidden : bool) (d : DOM) : DOM :=
  {| userInput_disabled := userInput_disabled d; userInput_value := userInput_value d;
     userInput_focused := userInput_focused d; modelOutput := modelOutput d;
     slideshow := slideshow d; slideshow_hidden := slideshow_hidden d;
     status_textContent := t; status_hidden := hidden;
     error_innerHTML := error_innerHTML d; error_hidden := error_hidden d |}.

Definition set_error (html : jsstring) (hidden : bool) (d : DOM) : DOM :=
  {| userInput_disabled := userInput_disabled d; userInput_value := userInput_value d;
     userInput_focused := userInput_focused d; modelOutput := modelOutput d;
     slideshow := slideshow d; slideshow_hidden := slideshow_hidden d;
     status_textContent := status_textContent d; status_hidden := status_hidden d;
     error_innerHTML := html; error_hidden := hidden |}.

(** The buffers of the stream loop: the local variables [text] and [img]. *)
Record Buffers : Type := {
  text : jsstring;
  img : option HTMLImageElement
}.

Definition empty_buffers : Buffers := {| text := []; img := None |}.

(** [for (const x of l) body], with the loop's variables threaded through. *)
Fixpoint for_of {X B : Type} (body : X -> B -> M B) (l : list X) (b : B) : M B :=
  match l with
  | [] => ret b
  | x :: l' => b' <- body x b ;; for_of body l' b'
  end.

(** [for await (const chunk of result) body]: the chunks in order, then the
    stream's failure if it has one. *)
Definition for_await {B : Type} (body : Chunk -> B -> M B) (result : Stream)
    (b : B) : M B :=
  b' <- for_of body (stream_chunks result) b ;;
  match stream_failure result with
  | Some e => throw e
  | None => ret b'
  end.

(* ================================================================== *)
(** * [index.tsx] *)
(* ================================================================== *)

Module Index.

Definition additionalInstructions : jsstring :=
     nl
  ++ lit "You are a master storyteller and comic artist. Your task is to take a user's story or prompt and turn it into a photorealistic comic strip." ++ nl
  ++ nl
  ++ lit "**CRITICAL INSTRUCTIONS:**" ++ nl
  ++ lit "1.  **Character Consistency:** You MUST maintain the appearance of the main character(s) in every single image. Create a clear mental model of the character(s) based on the story and stick to it. If the story doesn't describe them, create a consistent appearance yourself." ++ nl
  ++ lit "2.  **Style:** Generate a photorealistic, cinematic image for each panel. The lighting and color palette should be consistent, as if from a single film. The style should be tasteful and artistic." ++ nl
  ++ lit "3.  **Format:** Break the story down into short, single-sentence panels. For each sentence, first provide the text, then generate the corresponding image." ++ nl
  ++ lit "4.  **Process:**" ++ nl
  ++ lit "    - Read the entire story provided by the user." ++ nl
  ++ lit "    - Break it down into key moments or single sentences." ++ nl
  ++ lit "    - For each moment:" ++ nl
  ++ lit "        a. Output the sentence as text." ++ nl
  ++ lit "        b. Output a single, corresponding photorealistic image." ++ nl
  ++ lit "5.  **No Commentary:** Do not add any extra text, explanations, or commentary. Just the story text and the images. Begin the comic immediately." ++ nl.

(** [parseError(error)], on the string [error] that the regular
    expression sees. The source passes the caught exception itself and
    returns it in the [catch] branch; the template literal of [generate]
    then converts it to the same string, which is what [JString error]
    stands for here. *)
Definition parseError (error : jsstring) : completion jsval :=
  match
    (* try *)
    match exec_error_group error with
    | None => Throw (TypeError (read_of_null (lit "1")))   (* m[1], m null *)
    | Some e =>
        match JSON.parse e with
        | None => Throw (SyntaxError e)
        | Some err => get_prop (Value err) (lit "message")
        end
    end
  with
  | Normal message => Normal message
  | Throw _ => Normal (Value (JString error))    (* catch: return error *)
  end.

Section Run.

Variable host : Host.
Variable chat : StreamingChat.

Definition addSlide (text : jsstring) (image : HTMLImageElement) : M unit :=
  update (fun d =>
    set_slideshow
      (slideshow d ++ [ {| slide_image := image;
                           slide_caption := marked_parse host text |} ]) d).

(** The first statement of the loop body: a part with text is appended
    to [text]; otherwise a part with inline data becomes [img]. *)
Definition absorb (part : Part) (b : Buffers) : Buffers :=
  match carried_text part with
  | Some t => {| text := text b ++ t; img := img b |}
  | None =>
      match part_inlineData part with
      | Some data => {| text := text b; img := Some {| src := data_url data |} |}
      | None => b                                   (* console.log *)
      end
  end.

(** The second statement: [if (text && img) {...}]. *)
Definition pair_up (b : Buffers) : M Buffers :=
  match text b, img b with
  | _ :: _, Some image =>
      addSlide (text b) image ;;
      update (set_slideshow_hidden false) ;;
      ret empty_buffers
  | _, _ => ret b
  end.

Definition for_part (part : Part) (b : Buffers) : M Buffers :=
  pair_up (absorb part b).

(** [for (const part of candidate.content.parts ?? [])] *)
Definition for_candidate (candidate : Candidate) (b : Buffers) : M Buffers :=
  match candidate_content candidate with
  | None => throw (TypeError (read_of_undefined (lit "parts")))
  | Some content =>
      for_of for_part
             (match content_parts content with Some ps => ps | None => [] end) b
  end.

(** [for (const candidate of chunk.candidates)] *)
Definition for_chunk (chunk : Chunk) (b : Buffers) : M Buffers :=
  match chunk_candidates chunk with
  | None => throw (TypeError not_iterable)
  | Some cs => for_of for_candidate cs b
  end.

Definition generate (message : jsstring) : M unit :=
  update (set_userInput_disabled true) ;;
  (* chat.history.length = 0 *)
  update (set_modelOutput []) ;;
  update (set_slideshow []) ;;
  update (set_error [] true) ;;
  try_catch
    (update (fun d => set_modelOutput (modelOutput d ++ [marked_parse host message]) d) ;;
     update (set_userInput_value []) ;;
     result <- sendMessageStream the_chat chat (message ++ additionalInstructions) ;;
     b <- for_await for_chunk result empty_buffers ;;
     match img b with
     | Some image =>
         addSlide (text b) image ;;
         update (set_slideshow_hidden false)
     | None => ret tt
     end)
    (fun e =>
       msg <- lift (parseError (exn_to_string host e)) ;;
       rendered <- lift (to_string host msg) ;;
       update (set_error (lit "Something went wrong: " ++ rendered) false)) ;;
  update (set_userInput_disabled false) ;;
  update userInput_focus.

End Run.

End Index.

(* ================================================================== *)
(** * [unnamed/part_000] *)
(* ================================================================== *)

Module Part000.

Definition additionalInstructions : jsstring :=
     nl
  ++ lit "You are a master storyteller and comic artist. Your task is to take a user's story or prompt and turn it into a photorealistic comic strip." ++ nl
  ++ lit "**CRITICAL INSTRUCTIONS:**" ++ nl
  ++ lit "1.  **Character Consistency:** You MUST maintain the appearance of the main character(s) in every single image. Create a clear mental model of the character(s) based on the story and stick to it. If the story doesn't describe them, create a consistent appearance yourself." ++ nl
  ++ lit "2.  **Style:** Generate a photorealistic, cinematic image for each panel. The lighting and color palette should be consistent, as if from a single film. The style should be tasteful and artistic." ++ nl
  ++ lit "3.  **Format:** Break the story down into short, single-sentence panels. For each sentence, first provide the text, then generate the corresponding image." ++ nl
  ++ lit "4.  **Process:** For each moment: a. Output the sentence as text. b. Output a single, corresponding photorealistic image." ++ nl
  ++ lit "5.  **No Commentary:** Do not add any extra text, explanations, or commentary. Just the story text and the images. Begin the comic immediately." ++ nl.

Section Run.

Variable host : Host.
(** The global [chat], [null] until [initializeGenAI] has succeeded. *)
Variable chat : option StreamingChat.

Definition addSlide (text : jsstring) (image : HTMLImageElement) : M unit :=
  update (fun d =>
    set_slideshow
      (slideshow d ++ [ {| slide_image := image;
                           slide_caption := marked_parse host text |} ]) d).

(** [parseError(e)] is [e.toString()]: a property read, which throws when
    the value caught is [undefined] or [null]. *)
Definition parseError (e : exn) : completion jsstring :=
  match e with
  | ThrownUndefined => Throw (TypeError (read_of_undefined (lit "toString")))
  | ThrownNull => Throw (TypeError (read_of_null (lit "toString")))
  | _ => Normal (exn_to_string host e)
  end.

Definition absorb (part : Part) (b : Buffers) : Buffers :=
  match carried_text part with
  | Some t => {| text := text b ++ t; img := img b |}
  | None =>
      match part_inlineData part with
      | Some data => {| text := text b; img := Some {| src := data_url data |} |}
      | None => b
      end
  end.

Definition pair_up (b : Buffers) : M Buffers :=
  match text b, img b with
  | _ :: _, Some image =>
      addSlide (text b) image ;;
      update (set_slideshow_hidden false) ;;
      ret empty_buffers
  | _, _ => ret b
  end.

Definition for_part (part : Part) (b : Buffers) : M Buffers :=
  pair_up (absorb part b).

Definition for_candidate (candidate : Candidate) (b : Buffers) : M Buffers :=
  match candidate_content candidate with
  | None => throw (TypeError (read_of_undefined (lit "parts")))
  | Some content =>
      for_of for_part
             (match content_parts content with Some ps => ps | None => [] end) b
  end.

Definition for_chunk (chunk : Chunk) (b : Buffers) : M Buffers :=
  match chunk_candidates chunk with
  | None => throw (TypeError not_iterable)
  | Some cs => for_of for_candidate cs b
  end.

Definition generate (message : jsstring) : M unit :=
  match chat, trim message with
  | Some chat, _ :: _ =>
      update (set_userInput_disabled true) ;;
      (* chat.history.length = 0 *)
      update (set_modelOutput []) ;;
      update (set_slideshow []) ;;
      update (set_error [] true) ;;
      try_catch
        (update (fun d => set_modelOutput (modelOutput d ++ [marked_parse host message]) d) ;;
         update (set_userInput_value []) ;;
         result <- sendMessageStream the_chat chat (message ++ additionalInstructions) ;;
         _ <- for_await for_chunk result empty_buffers ;;
         ret tt)
        (fun e =>
           (* console.error *)
           msg <- lift (parseError e) ;;
           update (set_error (lit "Something went wrong: " ++ msg) false)) ;;
      update (set_userInput_disabled false) ;;
      update userInput_focus
  | _, _ => ret tt          (* if (!chat || !message.trim()) return; *)
  end.

End Run.

End Part000.

(* ================================================================== *)
(** * [unnamed/part_001]: the two-stage pipeline *)
(* ================================================================== *)

Module Part001.

Definition imageStylePrompt : jsstring :=
  lit "Photorealistic, cinematic lighting, sharp focus, high detail, 8k resolution, shot on 35mm film, tasteful, artistic.".

Definition scriptwriterPrompt (story : jsstring) : jsstring :=
     nl
  ++ lit "    You are an expert scriptwriter for a graphic novel. Your job is to take a user's story and prepare it for an artist by creating a structured JSON output." ++ nl
  ++ lit "    1.  **Create a Character Description:** Read the story and create a single, highly-detailed description of the main character (ethnicity, age, hair, eyes, build, features). This description MUST be used for every image to ensure consistency." ++ nl
  ++ lit "    2.  **Break Down Story:** Deconstruct the story into short, single-sentence panels for distinct visual moments." ++ nl
  ++ lit "    3.  **JSON Output:** You MUST output ONLY a single, raw JSON object. Do not include any other text, explanations, or markdown formatting like " ++ fence ++ lit "json. The JSON object must have keys " ++ dquote ++ lit "characterDescription" ++ dquote ++ lit " (string) and " ++ dquote ++ lit "panels" ++ dquote ++ lit " (array of objects with a " ++ dquote ++ lit "text" ++ dquote ++ lit " key)." ++ nl
  ++ nl
  ++ lit "    USER STORY: " ++ dquote ++ story ++ dquote ++ nl
  ++ lit "    ".

(** The two replacements applied to the model's text before parsing. *)
Definition clean (jsonText : jsstring) : jsstring :=
  replace_trailing_fence (replace_leading_fence jsonText).

(** [v.length === 0] for a truthy [v]. *)
Definition length_is_zero (h : Host) (v : jsval) : bool :=
  match v with
  | Value (JArray l) => Nat.eqb (List.length l) 0
  | Value (JString s) => Nat.eqb (List.length s) 0
  | Value (JObject ms) =>
      match lookup (lit "length") ms with
      | Value (JNumber l) => number_is_zero h l
      | _ => false
      end
  | _ => false
  end.

(** [`${v.length}`] for a truthy [v]. *)
Definition length_to_string (h : Host) (v : jsval) : completion jsstring :=
  match v with
  | Value (JArray l) => Normal (nat_to_string (List.length l))
  | Value (JString s) => Normal (nat_to_string (List.length s))
  | Value (JObject ms) => to_string h (lookup (lit "length") ms)
  | _ => Normal (lit "undefined")
  end.

(** The values [for (const panel of v)] goes through: the elements of an
    array, the code points of a string; nothing else that [JSON.parse]
    returns is iterable. *)
Definition iterate (v : jsval) : completion (list json) :=
  match v with
  | Value (JArray l) => Normal l
  | Value (JString s) => Normal (List.map JString (code_points s))
  | _ => Throw (TypeError not_iterable)
  end.

Section Run.

Variable host : Host.
(** The globals [textChat] and [imageChat], [null] until
    [initializeGenAI] has succeeded. *)
Variable textChat : option TextChat.
Variable imageChat : option StreamingChat.

Definition setStatus (message : jsstring) (show : bool) : M unit :=
  update (set_status message (negb show)).

Definition setError (message : jsstring) (show : bool) : M unit :=
  update (set_error message (negb show)).

(** [addSlide(text, image)]: [marked.parse] comes first and throws on
    anything but a string. *)
Definition addSlide (text : jsval) (image : HTMLImageElement) : M unit :=
  match text with
  | Value (JString t) =>
      update (fun d =>
        set_slideshow
          (slideshow d ++ [ {| slide_image := image;
                               slide_caption := marked_parse host t |} ]) d) ;;
      update (set_slideshow_hidden false)
  | _ => throw (MarkedError text)
  end.

Definition scriptwriting_failed (e : exn) : jsstring :=
  lit "<strong>Scriptwriting Failed:</strong> The AI failed to generate a valid story script. This can happen with complex stories. Please try simplifying your prompt. <br><br><em>Error: "
  ++ exn_to_string host e ++ lit "</em>".

(** [textChat.sendMessage(...)] and the reading of the reply's text: the
    request is recorded and the oracle gives the text or throws. *)
Definition sendMessage (chat : TextChat) (prompt : jsstring) : M jsstring :=
  fun s =>
    (chat (sent s) prompt,
     {| dom := dom s; sent := sent s ++ [(the_textChat, prompt)] |}).

(** STEP 1. The result is the parsed script, [JNull] for [null]. *)
Definition generateScript (story : jsstring) : M json :=
  match textChat with
  | None => ret JNull
  | Some chat =>
      try_catch
        (jsonText <- sendMessage chat (scriptwriterPrompt story) ;;
         match jsonText with
         | [] => throw (Error (lit "Text model returned no response."))
         | _ :: _ =>
             let cleanedJsonText := clean jsonText in
             match JSON.parse cleanedJsonText with
             | Some script => ret script
             | None => throw (SyntaxError cleanedJsonText)
             end
         end)
        (fun e =>
           (* console.error *)
           setError (scriptwriting_failed e) true ;;
           ret JNull)
  end.

(** The loop body's accumulation: no pairing here. *)
Definition absorb (part : Part) (b : Buffers) : Buffers :=
  match carried_text part with
  | Some t => {| text := text b ++ t; img := img b |}
  | None =>
      match part_inlineData part with
      | Some data => {| text := text b; img := Some {| src := data_url data |} |}
      | None => b
      end
  end.

(** [for (const part of chunk.candidates[0].content?.parts ?? [])] *)
Definition for_chunk (chunk : Chunk) (b : Buffers) : M Buffers :=
  match chunk_candidates chunk with
  | None => throw (TypeError (read_of_undefined (lit "0")))
  | Some [] => throw (TypeError (read_of_undefined (lit "content")))
  | Some (candidate :: _) =>
      let parts :=
        match candidate_content candidate with
        | Some content =>
            match content_parts content with Some ps => ps | None => [] end
        | None => []
        end in
      for_of (fun part b => ret (absorb part b)) parts b
  end.

Definition no_image : exn :=
  Error (lit "Image model did not return an image for this panel.").

Definition panel_failed (panelCount : nat) (panel_text : jsstring) (e : exn)
  : jsstring :=
  lit "<strong>Panel " ++ nat_to_string panelCount
  ++ lit " Failed:</strong> Could not generate an image for the text: "
  ++ dquote ++ panel_text ++ dquote
  ++ lit " <br><br><em>Error: " ++ exn_to_string host e ++ lit "</em>".

(** [`${panel.text}\n\n**Character:** ${script.characterDescription}\n\n**Style:** ${imageStylePrompt}`] *)
Definition imagePrompt (script panel : json) : completion jsstring :=
  match get_prop (Value panel) (lit "text") with
  | Throw e => Throw e
  | Normal t =>
      match to_string host t with
      | Throw e => Throw e
      | Normal ts =>
          match get_prop (Value script) (lit "characterDescription") with
          | Throw e => Throw e
          | Normal c =>
              match to_string host c with
              | Throw e => Throw e
              | Normal cs =>
                  Normal (ts ++ nl ++ nl ++ lit "**Character:** " ++ cs
                          ++ nl ++ nl ++ lit "**Style:** " ++ imageStylePrompt)
              end
          end
      end
  end.

(** One turn of the loop over the panels, [panelCount] already
    incremented. The result tells whether the loop goes on: [false] is
    the [break] of the [catch] branch. *)
Definition for_panel (chat : StreamingChat) (script panel : json)
    (panelCount : nat) : M bool :=
  panels <- lift (get_prop (Value script) (lit "panels")) ;;
  total <- lift (length_to_string host panels) ;;
  setStatus (lit "Generating panel " ++ nat_to_string panelCount
             ++ lit " of " ++ total ++ lit "...") true ;;
  prompt <- lift (imagePrompt script panel) ;;
  try_catch
    (result <- sendMessageStream the_imageChat chat prompt ;;
     b <- for_await for_chunk result empty_buffers ;;
     match img b with
     | Some image =>
         panel_text <- lift (get_prop (Value panel) (lit "text")) ;;
         addSlide panel_text image ;;
         ret true
     | None => throw no_image
     end)
    (fun e =>
       (* console.error *)
       panel_text <- lift (get_prop (Value panel) (lit "text")) ;;
       shown <- lift (to_string host panel_text) ;;
       setError (panel_failed panelCount shown e) true ;;
       ret false).

(** [for (const panel of script.panels) { panelCount++; ... }] *)
Fixpoint for_panels (chat : StreamingChat) (script : json)
    (panels : list json) (panelCount : nat) : M unit :=
  match panels with
  | [] => ret tt
  | panel :: rest =>
      let panelCount := S panelCount in
      continue <- for_panel chat script panel panelCount ;;
      if continue then for_panels chat script rest panelCount else ret tt
  end.

(** STEP 2. *)
Definition generate (story : jsstring) : M unit :=
  match textChat, imageChat, trim story with
  | Some _, Some chat, _ :: _ =>
      update (set_userInput_disabled true) ;;
      update (set_modelOutput []) ;;
      update (set_slideshow []) ;;
      update (set_slideshow_hidden true) ;;
      setError [] false ;;
      setStatus (lit "Writing the script...") true ;;
      script <- generateScript story ;;
      panels <- lift (match script with
                      | JNull => Normal Undefined      (* !script *)
                      | _ => get_prop (Value script) (lit "panels")
                      end) ;;
      if negb (truthy host (Value script))
         || negb (truthy host panels)
         || length_is_zero host panels
      then
        setStatus [] false ;;
        update (set_userInput_disabled false) ;;
        update userInput_focus
      else
        update (fun d => set_modelOutput (modelOutput d ++ [marked_parse host story]) d) ;;
        update (set_userInput_value []) ;;
        elements <- lift (iterate panels) ;;
        for_panels chat script elements 0 ;;
        setStatus [] false ;;
        update (set_userInput_disabled false) ;;
        update userInput_focus
  | _, _, _ => ret tt   (* if (!textChat || !imageChat || !story.trim()) return; *)
  end.

End Run.

End Part001.

(* ================================================================== *)
(** * Outcomes of the panel loop *)
(* ================================================================== *)

(** What one turn of the panel loop of [part_001] can do to the page and
    to the trace: escape before the request is sent; send the request and
    render one slide; send the request and report the failure. *)
Inductive turn (h : Host) (script panel : json) (k : nat) (s : State)
  : completion bool -> State -> Prop :=
| turn_escapes (e : exn) (s' : State) :
    sent s' = sent s ->
    slideshow (dom s') = slideshow (dom s) ->
    error_innerHTML (dom s') = error_innerHTML (dom s) ->
    error_hidden (dom s') = error_hidden (dom s) ->
    turn h script panel k s (Throw e) s'
| turn_renders (prompt t : jsstring) (image : HTMLImageElement) (s' : State) :
    Part001.imagePrompt h script panel = Normal prompt ->
    get_prop (Value panel) (lit "text") = Normal (Value (JString t)) ->
    sent s' = sent s ++ [(the_imageChat, prompt)] ->
    slideshow (dom s')
    = slideshow (dom s)
      ++ [ {| slide_image := image; slide_caption := marked_parse h t |} ] ->
    error_innerHTML (dom s') = error_innerHTML (dom s) ->
    error_hidden (dom s') = error_hidden (dom s) ->
    turn h script panel k s (Normal true) s'
| turn_fails (prompt shown : jsstring) (e : exn) (s' : State) :
    Part001.imagePrompt h script panel = Normal prompt ->
    sent s' = sent s ++ [(the_imageChat, prompt)] ->
    slideshow (dom s') = slideshow (dom s) ->
    error_innerHTML (dom s') = Part001.panel_failed h k shown e ->
    error_hidden (dom s') = false ->
    turn h script panel k s (Normal false) s'.

(** Every turn of the loop over [pre], started with [panelCount = k] on
    the state [s], rendered its panel (none broke out of the loop), and the
    last one ended on [s']. *)
Fixpoint rendered (h : Host) (chat : StreamingChat) (script : json)
    (pre : list json) (k : nat) (s s' : State) : Prop :=
  match pre with
  | [] => s' = s
  | panel :: pre' =>
      exists s1,
        Part001.for_panel h chat script panel (S k) s = (Normal true, s1)
        /\ rendered h chat script pre' (S k) s1 s'
  end.

(** The declared shape of a script: the interface [ComicScript]. *)
Definition is_ComicScript (script : json) : Prop :=
  exists description panels,
    get_prop (Value script) (lit "characterDescription")
    = Normal (Value (JString description))
    /\ get_prop (Value script) (lit "panels") = Normal (Value (JArray panels))
    /\ Forall (fun panel => exists t, get_prop (Value panel) (lit "text")
                                     = Normal (Value (JString t))) panels.

(* ================================================================== *)
(** * The slide assembler, after the specification *)
(* ================================================================== *)

(** The specification's Part: a text fragment or an inline-image fragment,
    never both. *)
Inductive Fragment : Type :=
| text_fragment (t : jsstring)
| image_fragment (data : jsstring).

Definition part_of (f : Fragment) : Part :=
  match f with
  | text_fragment t => text_part t
  | image_fragment d => image_part d
  end.

(** The image handle decoded from an inline payload. *)
Definition image_of (d : jsstring) : HTMLImageElement :=
  {| src := data_url {| blob_data := Some d |} |}.

(** The concatenation of the text fragments of a sequence. *)
Fixpoint texts_of (fs : list Fragment) : jsstring :=
  match fs with
  | [] => []
  | text_fragment t :: fs' => t ++ texts_of fs'
  | image_fragment _ :: fs' => texts_of fs'
  end.

(** The most recent image fragment of a sequence. *)
Fixpoint last_image (fs : list Fragment) : option HTMLImageElement :=
  match fs with
  | [] => None
  | text_fragment _ :: fs' => last_image fs'
  | image_fragment d :: fs' =>
      match last_image fs' with
      | Some i => Some i
      | None => Some (image_of d)
      end
  end.

(** Specification 4.1: what a fragment does to the accumulator and to the
    current image. *)
Definition hold (f : Fragment) (b : Buffers) : Buffers :=
  match f with
  | text_fragment t => {| text := text b ++ t; img := img b |}
  | image_fragment d => {| text := text b; img := Some (image_of d) |}
  end.

(** Specification 4.2: after every fragment, a non-empty accumulator and a
    held image make one slide and both are reset. The result is the slides
    in emission order and what is left in the buffers at the end. *)
Fixpoint assemble (b : Buffers) (fs : list Fragment)
  : list (jsstring * HTMLImageElement) * Buffers :=
  match fs with
  | [] => ([], b)
  | f :: fs' =>
      let b1 := hold f b in
      match text b1, img b1 with
      | _ :: _, Some image =>
          let (slides, rest) := assemble empty_buffers fs' in
          ((text b1, image) :: slides, rest)
      | _, _ => assemble b1 fs'
      end
  end.

(** The fragments received since the last slide was emitted, [acc] being
    those pending before [fs] arrives. *)
Fixpoint since_last_slide (acc fs : list Fragment) : list Fragment :=
  match fs with
  | [] => acc
  | f :: fs' =>
      match texts_of (acc ++ [f]), last_image (acc ++ [f]) with
      | _ :: _, Some _ => since_last_slide [] fs'
      | _, _ => since_last_slide (acc ++ [f]) fs'
      end
  end.

(** The buffers never hold a text and an image together once a part has
    been processed. *)
Definition settled (b : Buffers) : Prop := text b = [] \/ img b = None.

(** A stream that delivers the given fragments, one chunk per inner list,
    and ends normally. *)
Definition stream_of (fss : list (list Fragment)) : Stream :=
  {| stream_chunks := List.map (fun fs => chunk_of (List.map part_of fs)) fss;
     stream_failure := None |}.

(** The slide element built by [addSlide] from a text and an image. *)
Definition render (h : Host) (p : jsstring * HTMLImageElement) : Slide :=
  {| slide_image := snd p; slide_caption := marked_parse h (fst p) |}.

(** The page after [addSlide(text, image)] and the un-hiding of the
    slideshow. *)
Definition shown (h : Host) (p : jsstring * HTMLImageElement) (s : State) : State :=
  {| dom := set_slideshow_hidden false
              (set_slideshow (slideshow (dom s) ++ [render h p]) (dom s));
     sent := sent s |}.

Definition shown_all (h : Host) (ps : list (jsstring * HTMLImageElement))
    (s : State) : State :=
  fold_left (fun s p => shown h p s) ps s.

(* ================================================================== *)
(** * Sample host, page and replies, for the concrete runs *)
(* ================================================================== *)

(** A host to run the scripts on: paragraphs for [marked.parse], lexemes
    for numbers, a fixed name for engine-raised errors. *)
Definition sample_host : Host :=
  {| marked_parse := fun s => lit "<p>" ++ s ++ lit "</p>" ++ nl;
     number_is_zero := fun l => jsstring_eqb l (lit "0");
     number_to_string := fun l => l;
     engine_message := fun _ => lit "TypeError" |}.

(** The page as it is loaded: input enabled and empty, nothing shown. *)
Definition fresh_page : State :=
  {| dom := {| userInput_disabled := false; userInput_value := [];
               userInput_focused := false; modelOutput := [];
               slideshow := []; slideshow_hidden := true;
               status_textContent := []; status_hidden := true;
               error_innerHTML := []; error_hidden := true |};
     sent := [] |}.

(** The chunk sequence of the specification's example. *)
Definition two_pairs : list Fragment :=
  [text_fragment (lit "A"); image_fragment (lit "I1");
   text_fragment (lit "B"); image_fragment (lit "I2")].

(** A JSON member with a string value, and a script text with the given
    character description and panel texts. *)
Definition member (k v : jsstring) : jsstring :=
  dquote ++ k ++ dquote ++ lit ":" ++ dquote ++ v ++ dquote.

Definition script_text (description : jsstring) (texts : list jsstring) : jsstring :=
  lit "{" ++ member (lit "characterDescription") description ++ lit ","
  ++ dquote ++ lit "panels" ++ dquote ++ lit ":["
  ++ join (lit ",") (List.map (fun t => lit "{" ++ member (lit "text") t ++ lit "}") texts)
  ++ lit "]}".

Definition three_panels : jsstring :=
  script_text (lit "a grey cat") [lit "one"; lit "two"; lit "three"].

(** A text chat that always answers with the given text. *)
Definition answers (t : jsstring) : TextChat := fun _ _ => Normal t.

(** An image chat that answers its first request with a caption and an
    image, and every later one with text only. *)
Definition first_image_only : StreamingChat :=
  fun past _ =>
    match List.filter (fun r => match fst r with the_imageChat => true | _ => false end) past with
    | [] => stream_of [[text_fragment (lit "Here it is."); image_fragment (lit "I1")]]
    | _ => stream_of [[text_fragment (lit "I cannot draw this.")]]
    end.

(** An image chat that always answers with the same fragments. *)
Definition always (fss : list (list Fragment)) : StreamingChat :=
  fun _ _ => stream_of fss.

(** The value [JSON.parse] gives for [three_panels], and its panels. *)
Definition panel_value (t : jsstring) : json := JObject [(lit "text", JString t)].

Definition three_panels_script : json :=
  JObject [(lit "characterDescription", JString (lit "a grey cat"));
           (lit "panels",
            JArray [panel_value (lit "one"); panel_value (lit "two");
                    panel_value (lit "three")])].

(** Replies of the text model that parse but are no usable script: an empty
    list of panels, and a list whose only panel is [null]. *)
Definition no_panels_reply : jsstring :=
  lit "{" ++ dquote ++ lit "panels" ++ dquote ++ lit ":[]}".

Definition null_panel_reply : jsstring :=
  lit "{" ++ dquote ++ lit "panels" ++ dquote ++ lit ":[null]}".

(** An error string with a payload that has a message, and one with a
    payload that has none. *)
Definition quota_error : jsstring :=
  lit "Error: got status: 429. " ++ error_key ++ lit "{"
  ++ member (lit "message") (lit "Quota exceeded") ++ lit "}}".

Definition bare_error : jsstring :=
  lit "Error: got status: 500. " ++ error_key ++ lit "{}}".

(* ================================================================== *)
(** * The key screen, the SDK and the event handlers *)
(* ================================================================== *)

(** A keyboard event, as far as the handlers read it. *)
Record KeyboardEvent : Type := {
  event_key : jsstring;
  event_code : jsstring;
  event_shiftKey : bool
}.

(** A chat session of the SDK: what it answers to [sendMessage] and to
    [sendMessageStream]. *)
Record Chat : Type := {
  chat_sendMessage : TextChat;
  chat_sendMessageStream : StreamingChat
}.

(** The SDK as the initialisation uses it, for a client built with a given
    key: the constructor, [ai.models.list()], [ai.chats.create] with a
    model name (its result may be a falsy value, which [part_001] tests
    for), and the [message] property of what these throw. *)
Record SDK : Type := {
  new_GoogleGenAI : jsstring -> completion unit;
  models_list : jsstring -> completion unit;
  chats_create : jsstring -> jsstring -> completion (option Chat);
  thrown_message : exn -> jsstring
}.

(** [e.message]: a property read, which throws when the value caught is
    [undefined] or [null]. *)
Definition exn_message (sdk : SDK) (e : exn) : completion jsstring :=
  match e with
  | Error m => Normal m
  | ThrownUndefined => Throw (TypeError (read_of_undefined (lit "message")))
  | ThrownNull => Throw (TypeError (read_of_null (lit "message")))
  | _ => Normal (thrown_message sdk e)
  end.

(** The elements around the key: the two screens, the key field and the
    error line under it. *)
Record KeyScreen : Type := {
  apiKeyScreen_hidden : bool;
  mainContent_hidden : bool;
  apiKeyInput_value : jsstring;
  apiError_textContent : jsstring;
  apiError_hidden : bool
}.

(** The whole application: the page of the comic, the key screen, the
    item [gemini_api_key] of [localStorage] and the script's globals. *)
Record App (G : Type) : Type := {
  page : State;
  screen : KeyScreen;
  gemini_api_key : option jsstring;
  globals : G
}.

Definition set_page {G} (p : State) (a : App G) : App G :=
  {| page := p; screen := screen a;
     gemini_api_key := gemini_api_key a; globals := globals a |}.

Definition set_screen {G} (k : KeyScreen) (a : App G) : App G :=
  {| page := page a; screen := k;
     gemini_api_key := gemini_api_key a; globals := globals a |}.

Definition set_globals {G} (g : G) (a : App G) : App G :=
  {| page := page a; screen := screen a;
     gemini_api_key := gemini_api_key a; globals := g |}.

(** [localStorage.setItem('gemini_api_key', apiKey)] *)
Definition localStorage_setItem {G} (apiKey : jsstring) (a : App G) : App G :=
  {| page := page a; screen := screen a;
     gemini_api_key := Some apiKey; globals := globals a |}.

(** [apiKeyScreen.setAttribute('hidden', 'true'); mainContent.removeAttribute('hidden')] *)
Definition show_mainContent (k : KeyScreen) : KeyScreen :=
  {| apiKeyScreen_hidden := true; mainContent_hidden := false;
     apiKeyInput_value := apiKeyInput_value k;
     apiError_textContent := apiError_textContent k;
     apiError_hidden := apiError_hidden k |}.

(** [apiError.textContent = t; apiError.removeAttribute('hidden')] *)
Definition show_apiError (t : jsstring) (k : KeyScreen) : KeyScreen :=
  {| apiKeyScreen_hidden := apiKeyScreen_hidden k;
     mainContent_hidden := mainContent_hidden k;
     apiKeyInput_value := apiKeyInput_value k;
     apiError_textContent := t;
     apiError_hidden := false |}.

Definition set_apiKeyInput_value (v : jsstring) (k : KeyScreen) : KeyScreen :=
  {| apiKeyScreen_hidden := apiKeyScreen_hidden k;
     mainContent_hidden := mainContent_hidden k;
     apiKeyInput_value := v;
     apiError_textContent := apiError_textContent k;
     apiError_hidden := apiError_hidden k |}.

(** [userInput.focus()] and [userInput.value = v], on the application. *)
Definition focus_userInput {G} (a : App G) : App G :=
  set_page {| dom := userInput_focus (dom (page a)); sent := sent (page a) |} a.

Definition fill_userInput {G} (v : jsstring) (a : App G) : App G :=
  set_page {| dom := set_userInput_value v (dom (page a)); sent := sent (page a) |} a.

(** A run of [generate] on the page of the application. *)
Definition on_page {G A} (m : M A) (a : App G) : completion A * App G :=
  let (r, p) := m (page a) in (r, set_page p a).

(** What the user and the browser do to the application: typing in the
    two fields, pressing a key in the story field, clicking the save
    button or an example, and the end of the page load. *)
Inductive Event : Type :=
| input_apiKey (v : jsstring)
| input_story (v : jsstring)
| keydown (e : KeyboardEvent)
| click_saveApiKeyButton
| click_example (textContent : jsstring)
| DOMContentLoaded.

(** ** The evaluation of a module *)

(** The listeners a module registers. *)
Inductive Listener : Type :=
| saveApiKeyButton_click
| userInput_keydown
| example_click
| document_DOMContentLoaded.

Definition Listener_eqb (a b : Listener) : bool :=
  match a, b with
  | saveApiKeyButton_click, saveApiKeyButton_click => true
  | userInput_keydown, userInput_keydown => true
  | example_click, example_click => true
  | document_DOMContentLoaded, document_DOMContentLoaded => true
  | _, _ => false
  end.

(** The statements of a module that follow its declarations, as far as
    the listeners go: one that registers a listener, or one that throws. *)
Inductive Statement : Type :=
| addEventListener (l : Listener)
| throws (e : exn).

(** The listeners registered when the evaluation of the module ends:
    those of the statements before the first one that throws. *)
Fixpoint registered (body : list Statement) : list Listener :=
  match body with
  | [] => []
  | addEventListener l :: body' => l :: registered body'
  | throws _ :: _ => []
  end.

Definition listens (body : list Statement) (l : Listener) : bool :=
  existsb (Listener_eqb l) (registered body).

(** [examples.forEach(...)] in a module that declares no [examples]: the
    identifier is looked up on the global object. When the document has
    an element of that id the window exposes the element under its name,
    and an element has no [forEach]; otherwise the read itself throws. *)
Definition undeclared_examples_forEach (element_of_that_id : bool) : exn :=
  if element_of_that_id
  then TypeError (not_a_function (lit "examples.forEach"))
  else ReferenceError (lit "examples").

(* ================================================================== *)
(** * The key listener of [index.tsx] *)
(* ================================================================== *)

Module IndexPage.

Section Listeners.

Variable host : Host.
Variable chat : StreamingChat.

(** Lines 126 to 139: [examples] is declared at line 134, and both
    registrations take place. *)
Definition event_listeners : list Statement :=
  [ addEventListener userInput_keydown; addEventListener example_click ].

(** [userInput.addEventListener('keydown', ...)]: the result tells
    whether [e.preventDefault()] was called. *)
Definition on_keydown (e : KeyboardEvent) (s : State)
  : bool * (completion unit * State) :=
  if jsstring_eqb (event_code e) (lit "Enter") then
    let message := userInput_value (dom s) in
    (true, Index.generate host chat message s)
  else (false, (Normal tt, s)).

End Listeners.

End IndexPage.

(* ================================================================== *)
(** * Initialisation and listeners of [unnamed/part_000] *)
(* ================================================================== *)

Module Part000Page.

(** The globals [ai] (the key its client was built with) and [chat]. *)
Record Globals : Type := {
  ai : option jsstring;
  chat : option Chat
}.

Definition image_model : jsstring := lit "gemini-2.0-flash-preview-image-generation".

Section Listeners.

Variable host : Host.
Variable sdk : SDK.

(** Whether the document has an element of id [examples]. *)
Variable examples_element : bool.

(** Lines 131 to 166. [examples] is not declared in this file: the
    statement of line 149 throws, the evaluation of the module ends there
    and the listener of line 160 is never registered. *)
Definition event_listeners : list Statement :=
  [ addEventListener saveApiKeyButton_click;                    (* line 131 *)
    addEventListener userInput_keydown;                         (* line 141 *)
    throws (undeclared_examples_forEach examples_element);      (* line 149 *)
    addEventListener document_DOMContentLoaded ].               (* line 160 *)

Definition initialization_failed (message : jsstring) : jsstring :=
  lit "Initialization failed. Please check your API key and network connection. Error: "
  ++ message.

Definition initializeGenAI (apiKey : jsstring) (a : App Globals)
  : completion unit * App Globals :=
  match
    (* try *)
    match new_GoogleGenAI sdk apiKey with
    | Throw e => (Throw e, a)
    | Normal _ =>
        let a := set_globals {| ai := Some apiKey; chat := chat (globals a) |} a in
        match models_list sdk apiKey with
        | Throw e => (Throw e, a)
        | Normal _ =>
            match chats_create sdk apiKey image_model with
            | Throw e => (Throw e, a)
            | Normal c =>
                let a := set_globals {| ai := ai (globals a); chat := c |} a in
                let a := localStorage_setItem apiKey a in
                let a := set_screen (show_mainContent (screen a)) a in
                (Normal tt, focus_userInput a)
            end
        end
    end
  with
  | (Normal _, a) => (Normal tt, a)
  | (Throw e, a) =>
      (* console.error *)
      match exn_message sdk e with
      | Normal message =>
          (Normal tt,
           set_screen (show_apiError (initialization_failed message) (screen a)) a)
      | Throw e' => (Throw e', a)
      end
  end.

Definition generate (message : jsstring) (a : App Globals)
  : completion unit * App Globals :=
  on_page (Part000.generate host
             (option_map chat_sendMessageStream (chat (globals a))) message) a.

Definition on_save_click (a : App Globals) : completion unit * App Globals :=
  let apiKey := trim (apiKeyInput_value (screen a)) in
  match apiKey with
  | _ :: _ => initializeGenAI apiKey a
  | [] =>
      (Normal tt,
       set_screen (show_apiError (lit "Please enter an API key.") (screen a)) a)
  end.

Definition on_keydown (e : KeyboardEvent) (a : App Globals)
  : bool * (completion unit * App Globals) :=
  if jsstring_eqb (event_key e) (lit "Enter") && negb (event_shiftKey e) then
    let message := trim (userInput_value (dom (page a))) in
    (true, generate message a)
  else (false, (Normal tt, a)).

Definition on_example_click (content : jsstring) (a : App Globals)
  : completion unit * App Globals :=
  match content with
  | _ :: _ => generate (trim content) (fill_userInput content a)
  | [] => (Normal tt, a)
  end.

Definition on_DOMContentLoaded (a : App Globals) : completion unit * App Globals :=
  match gemini_api_key a with
  | Some (c :: k) =>
      let savedKey := c :: k in
      initializeGenAI savedKey
        (set_screen (set_apiKeyInput_value savedKey (screen a)) a)
  | _ => (Normal tt, a)
  end.

(** One event, handled to its end by the listener registered for it, if
    there is one; an exception that leaves a listener is an unhandled
    rejection and changes nothing more. *)
Definition handle (ev : Event) (a : App Globals) : App Globals :=
  match ev with
  | input_apiKey v => set_screen (set_apiKeyInput_value v (screen a)) a
  | input_story v => fill_userInput v a
  | keydown e =>
      if listens event_listeners userInput_keydown
      then snd (snd (on_keydown e a)) else a
  | click_saveApiKeyButton =>
      if listens event_listeners saveApiKeyButton_click
      then snd (on_save_click a) else a
  | click_example content =>
      if listens event_listeners example_click
      then snd (on_example_click content a) else a
  | DOMContentLoaded =>
      if listens event_listeners document_DOMContentLoaded
      then snd (on_DOMContentLoaded a) else a
  end.

End Listeners.

End Part000Page.

(* ================================================================== *)
(** * Initialisation and listeners of [unnamed/part_001] *)
(* ================================================================== *)

Module Part001Page.

(** The globals [textChat] and [imageChat]. *)
Record Globals : Type := {
  textChat : option Chat;
  imageChat : option Chat
}.

Definition text_model : jsstring := lit "gemini-1.5-pro-latest".
Definition image_model : jsstring := lit "gemini-2.0-flash-preview-image-generation".

Section Listeners.

Variable host : Host.
Variable sdk : SDK.

(** Whether the document has an element of id [examples]. *)
Variable examples_element : bool.

(** Lines 178 to 198. [examples] is not declared in this file either: the
    statement of line 188 throws and the listener of line 195 is never
    registered. *)
Definition event_listeners : list Statement :=
  [ addEventListener saveApiKeyButton_click;                    (* line 178 *)
    addEventListener userInput_keydown;                         (* line 182 *)
    throws (undeclared_examples_forEach examples_element);      (* line 188 *)
    addEventListener document_DOMContentLoaded ].               (* line 195 *)

Definition initialization_failed (message : jsstring) : jsstring :=
  lit "Initialization failed. Please check your API key. Error: "
  ++ message.

Definition initializeGenAI (apiKey : jsstring) (a : App Globals)
  : completion unit * App Globals :=
  match
    (* try *)
    match new_GoogleGenAI sdk apiKey with
    | Throw e => (Throw e, a)
    | Normal _ =>
        match chats_create sdk apiKey text_model with
        | Throw e => (Throw e, a)
        | Normal t =>
            let a := set_globals {| textChat := t; imageChat := imageChat (globals a) |} a in
            match chats_create sdk apiKey image_model with
            | Throw e => (Throw e, a)
            | Normal i =>
                let a := set_globals {| textChat := textChat (globals a); imageChat := i |} a in
                match t, i with
                | Some _, Some _ =>
                    let a := localStorage_setItem apiKey a in
                    let a := set_screen (show_mainContent (screen a)) a in
                    (Normal tt, focus_userInput a)
                | _, _ => (Throw (Error (lit "Failed to create chat models.")), a)
                end
            end
        end
    end
  with
  | (Normal _, a) => (Normal tt, a)
  | (Throw e, a) =>
      (* console.error *)
      match exn_message sdk e with
      | Normal message =>
          (Normal tt,
           set_screen (show_apiError (initialization_failed message) (screen a)) a)
      | Throw e' => (Throw e', a)
      end
  end.

Definition generate (story : jsstring) (a : App Globals)
  : completion unit * App Globals :=
  on_page (Part001.generate host
             (option_map chat_sendMessage (textChat (globals a)))
             (option_map chat_sendMessageStream (imageChat (globals a))) story) a.

Definition on_save_click (a : App Globals) : completion unit * App Globals :=
  let apiKey := trim (apiKeyInput_value (screen a)) in
  match apiKey with
  | _ :: _ => initializeGenAI apiKey a
  | [] => (Normal tt, a)
  end.

Definition on_keydown (e : KeyboardEvent) (a : App Globals)
  : bool * (completion unit * App Globals) :=
  if jsstring_eqb (event_key e) (lit "Enter") && negb (event_shiftKey e) then
    (true, generate (trim (userInput_value (dom (page a)))) a)
  else (false, (Normal tt, a)).

Definition on_example_click (content : jsstring) (a : App Globals)
  : completion unit * App Globals :=
  match content with
  | _ :: _ => generate (trim content) (fill_userInput content a)
  | [] => (Normal tt, a)
  end.

Definition on_DOMContentLoaded (a : App Globals) : completion unit * App Globals :=
  match gemini_api_key a with
  | Some (c :: k) => initializeGenAI (c :: k) a
  | _ => (Normal tt, a)
  end.

Definition handle (ev : Event) (a : App Globals) : App Globals :=
  match ev with
  | input_apiKey v => set_screen (set_apiKeyInput_value v (screen a)) a
  | input_story v => fill_userInput v a
  | keydown e =>
      if listens event_listeners userInput_keydown
      then snd (snd (on_keydown e a)) else a
  | click_saveApiKeyButton =>
      if listens event_listeners saveApiKeyButton_click
      then snd (on_save_click a) else a
  | click_example content =>
      if listens event_listeners example_click
      then snd (on_example_click content a) else a
  | DOMContentLoaded =>
      if listens event_listeners document_DOMContentLoaded
      then snd (on_DOMContentLoaded a) else a
  end.

End Listeners.

End Part001Page.

(* ================================================================== *)
(** * Sessions *)
(* ================================================================== *)

(** The application as the script finds it when it is loaded: the key
    screen shown, the main content hidden, nothing sent, and whatever an
    earlier visit has left in [localStorage]. *)
Definition loaded {G} (g : G) (stored : option jsstring) : App G :=
  {| page := fresh_page;
     screen := {| apiKeyScreen_hidden := false; mainContent_hidden := true;
                  apiKeyInput_value := [];
                  apiError_textContent := []; apiError_hidden := true |};
     gemini_api_key := stored;
     globals := g |}.

(** The events of a session, handled one after the other. *)
Definition session {G} (handle : Event -> App G -> App G)
    (evs : list Event) (a : App G) : App G :=
  fold_left (fun a ev => handle ev a) evs a.

(** A key that [initializeGenAI] accepts: in [part_000] one for which the
    client is built, the models are listed and the chat is created; in
    [part_001] one for which the client and both chats are created. *)
Definition accepted000 (sdk : SDK) (k : jsstring) : Prop :=
  new_GoogleGenAI sdk k = Normal tt /\ models_list sdk k = Normal tt
  /\ exists c, chats_create sdk k Part000Page.image_model = Normal c.

Definition accepted001 (sdk : SDK) (k : jsstring) : Prop :=
  new_GoogleGenAI sdk k = Normal tt
  /\ (exists t, chats_create sdk k Part001Page.text_model = Normal (Some t))
  /\ (exists i, chats_create sdk k Part001Page.image_model = Normal (Some i)).

(** The application has left the key screen for an accepted key, which is
    the stored one. *)
Definition initialised {G} (accepted : jsstring -> Prop) (a : App G) : Prop :=
  apiKeyScreen_hidden (screen a) = true
  /\ mainContent_hidden (screen a) = false
  /\ exists k, gemini_api_key a = Some k /\ k <> [] /\ accepted k.

(** A request made of a trimmed, non-blank story: the story followed by
    the instructions, or the scriptwriter's prompt around it. *)
Definition story_request (wrap : jsstring -> jsstring) (m : jsstring) : Prop :=
  exists v, trim v <> [] /\ m = wrap (trim v).

(** [ai.chats.create] returns a chat, as the SDK declares it. *)
Definition creates_chats (sdk : SDK) : Prop :=
  forall k model c, chats_create sdk k model = Normal c -> c <> None.

(** What holds of the application of [part_000] during a session that
    began with [stored] in [localStorage]: the key screen is left, a
    chat exists and requests are sent only once a key has been accepted;
    every request is a story request; the stored key changes to accepted
    keys only. *)
Definition invariant000 (sdk : SDK) (stored : option jsstring)
    (a : App Part000Page.Globals) : Prop :=
  ((Part000Page.chat (globals a) <> None \/ sent (page a) <> []
    \/ mainContent_hidden (screen a) = false) ->
   initialised (accepted000 sdk) a)
  /\ Forall (fun q => fst q = the_chat
                      /\ story_request (fun m => m ++ Part000.additionalInstructions) (snd q))
            (sent (page a))
  /\ (gemini_api_key a = stored
      \/ exists k, gemini_api_key a = Some k /\ accepted000 sdk k).

(** The same for [part_001], where a run of [generate] needs both chats. *)
Definition invariant001 (sdk : SDK) (stored : option jsstring)
    (a : App Part001Page.Globals) : Prop :=
  ((Part001Page.imageChat (globals a) <> None \/ sent (page a) <> []
    \/ mainContent_hidden (screen a) = false) ->
   initialised (accepted001 sdk) a)
  /\ Forall (fun q => fst q = the_textChat ->
                      story_request Part001.scriptwriterPrompt (snd q))
            (sent (page a))
  /\ (gemini_api_key a = stored
      \/ exists k, gemini_api_key a = Some k /\ accepted001 sdk k).

(* ================================================================== *)
(** * Streams and runs, as the properties speak of them *)
(* ================================================================== *)

(** The text a sequence of parts delivers, and the images of its parts
    that are taken as images (a part with text is never one). *)
Definition all_text (ps : list Part) : jsstring :=
  flat_map (fun p => match carried_text p with Some t => t | None => [] end) ps.

Definition all_images (ps : list Part) : list HTMLImageElement :=
  flat_map (fun p => match carried_text p, part_inlineData p with
                     | None, Some data => [ {| src := data_url data |} ]
                     | _, _ => []
                     end) ps.

(** A stream made of the given chunks that ends normally. *)
Definition chunks (pss : list (list Part)) : Stream :=
  {| stream_chunks := List.map chunk_of pss; stream_failure := None |}.

(** The images a buffer holds: one or none. *)
Definition held (o : option HTMLImageElement) : list HTMLImageElement :=
  match o with Some i => [i] | None => [] end.

(** The panels the loop of [part_001] goes through for a parsed script:
    none when [script.panels] cannot be read or iterated. *)
Definition panels_of (script : json) : list json :=
  match get_prop (Value script) (lit "panels") with
  | Normal panels =>
      match Part001.iterate panels with
      | Normal elements => elements
      | Throw _ => []
      end
  | Throw _ => []
  end.

(** [script.panels] for the value [generateScript] returned, [undefined]
    when the value is [null]. *)
Definition script_panels (script : json) : jsval :=
  match script with
  | JNull => Undefined
  | _ =>
      match get_prop (Value script) (lit "panels") with
      | Normal panels => panels
      | Throw _ => Undefined
      end
  end.

(** The guard of [generate] in [part_001] on that value:
    [!script || !script.panels || script.panels.length === 0]. *)
Definition no_panels (h : Host) (script : json) : bool :=
  negb (truthy h (Value script))
  || negb (truthy h (script_panels script))
  || Part001.length_is_zero h (script_panels script).

(** What the script request of a run went through: an exception that
    [generateScript] reports, or the value the reply was parsed to. *)
Definition script_of (reply : completion jsstring) : exn + json :=
  match reply with
  | Throw e => inl e
  | Normal [] => inl (Error (lit "Text model returned no response."))
  | Normal (c :: t) =>
      match JSON.parse (Part001.clean (c :: t)) with
      | Some script => inr script
      | None => inl (SyntaxError (Part001.clean (c :: t)))
      end
  end.

(** The page at the start of a run of [part_001], once it is cleared, and
    at the end of a run that returns. *)
Definition cleared (d : DOM) : DOM :=
  set_status (lit "Writing the script...") false
    (set_error [] true
       (set_slideshow_hidden true
          (set_slideshow []
             (set_modelOutput []
                (set_userInput_disabled true d))))).

Definition finished (s : State) : State :=
  {| dom := userInput_focus (set_userInput_disabled false (set_status [] true (dom s)));
     sent := sent s |}.

(* ================================================================== *)
(** * Sample SDKs, chats and events *)
(* ================================================================== *)

(** An SDK whose service accepts exactly one key: building a client and
    creating a chat session involve no request and succeed for every key,
    listing the models needs a valid one. *)
Definition sample_chat : Chat :=
  {| chat_sendMessage := answers three_panels;
     chat_sendMessageStream := always [two_pairs] |}.

Definition sample_sdk : SDK :=
  {| new_GoogleGenAI := fun _ => Normal tt;
     models_list := fun k =>
       if jsstring_eqb k (lit "good-key") then Normal tt
       else Throw (Rejection (lit "ApiError: API key not valid."));
     chats_create := fun _ _ => Normal (Some sample_chat);
     thrown_message := fun _ => lit "API key not valid." |}.

(** A rejection whose payload has a message that cannot be converted to a
    string. *)
Definition unprintable_error : jsstring :=
  lit "ApiError: " ++ error_key ++ lit "{" ++ dquote ++ lit "message" ++ dquote
  ++ lit ":{" ++ dquote ++ lit "toString" ++ dquote ++ lit ":1}}}".

(** A chat whose stream fails at once with the given exception. *)
Definition rejects (e : exn) : StreamingChat :=
  fun _ _ => {| stream_chunks := []; stream_failure := Some e |}.

(** An SDK whose [create] returns [null] for the text model of one key
    and throws for the image model of another. *)
Definition faulty_sdk : SDK :=
  {| new_GoogleGenAI := fun _ => Normal tt;
     models_list := fun _ => Normal tt;
     chats_create := fun k model =>
       if jsstring_eqb k (lit "a") then
         if jsstring_eqb model Part001Page.text_model then Normal None
         else Normal (Some sample_chat)
       else
         if jsstring_eqb model Part001Page.text_model then Normal (Some sample_chat)
         else Throw (Rejection (lit "ApiError: model not found."));
     thrown_message := fun _ => lit "model not found." |}.

(** The Enter key, alone and with Shift held. *)
Definition Enter_key (shift : bool) : KeyboardEvent :=
  {| event_key := lit "Enter"; event_code := lit "Enter"; event_shiftKey := shift |}.
(* ================================================================== *)
(** * Properties of the string operations and of [JSON.parse] *)
(* ================================================================== *)

Unset Implicit Arguments.

Lemma for_of_app {X B : Type} (body : X -> B -> M B) (l1 l2 : list X) (b : B) (s : State) :
  for_of body (l1 ++ l2) b s =
  match for_of body l1 b s with
  | (Normal b', s') => for_of body l2 b' s'
  | (Throw e, s') => (Throw e, s')
  end.
Proof.
  revert b s; induction l1 as [|x l1 IH]; intros b s; simpl.
  - reflexivity.
  - unfold bind. destruct (body x b s) as [[b'|e] s']; [apply IH | reflexivity].
Qed.

Lemma buffers_eta (b : Buffers) : {| text := text b; img := img b |} = b.
Proof. destruct b; reflexivity. Qed.

Lemma texts_of_app (fs gs : list Fragment) :
  texts_of (fs ++ gs) = texts_of fs ++ texts_of gs.
Proof.
  induction fs as [|[t|d] fs IH]; simpl; [reflexivity | | exact IH].
  rewrite IH. apply app_assoc.
Qed.

Lemma last_image_app (fs gs : list Fragment) :
  last_image (fs ++ gs) =
  match last_image gs with Some i => Some i | None => last_image fs end.
Proof.
  induction fs as [|[t|d] fs IH]; simpl.
  - destruct (last_image gs); reflexivity.
  - exact IH.
  - rewrite IH. destruct (last_image gs); reflexivity.
Qed.

Lemma includes_middle (a x b : jsstring) : includes x (a ++ x ++ b).
Proof. exists a, b. reflexivity. Qed.

Lemma jschar_eqb_eq (a b : jschar) : jschar_eqb a b = true <-> a = b.
Proof. apply N.eqb_eq. Qed.

Lemma jschar_eqb_refl (a : jschar) : jschar_eqb a a = true.
Proof. apply N.eqb_refl. Qed.

Lemma jsstring_eqb_length (a b : jsstring) :
  jsstring_eqb a b = true -> List.length a = List.length b.
Proof.
  revert b; induction a as [|x a IH]; intros [|y b] H; simpl in *;
    try discriminate; [reflexivity|].
  apply andb_true_iff in H. destruct H as [_ H]. f_equal. apply IH, H.
Qed.

Lemma strip_prefix_app (p r : jsstring) : strip_prefix p (p ++ r) = Some r.
Proof.
  induction p as [|x p IH]; simpl; [reflexivity|].
  rewrite jschar_eqb_refl. exact IH.
Qed.

Lemma strip_prefix_Some (p s r : jsstring) :
  strip_prefix p s = Some r -> s = p ++ r.
Proof.
  revert s; induction p as [|x p IH]; intros s H; simpl in *.
  - injection H as ->. reflexivity.
  - destruct s as [|y s]; [discriminate|].
    destruct (jschar_eqb x y) eqn:E; [|discriminate].
    apply jschar_eqb_eq in E. subst y. f_equal. apply IH, H.
Qed.

Lemma drop_while_all (f : jschar -> bool) (ws s : jsstring) :
  Forall (fun c => f c = true) ws -> drop_while f (ws ++ s) = drop_while f s.
Proof.
  induction 1 as [|c ws Hc _ IH]; simpl; [reflexivity|].
  rewrite Hc. exact IH.
Qed.

Lemma drop_while_app_stop (f : jschar -> bool) (u : jsstring) (c : jschar) (v : jsstring) :
  f c = false -> drop_while f (u ++ c :: v) = drop_while f u ++ c :: v.
Proof.
  intros Hc. induction u as [|x u IH]; simpl.
  - rewrite Hc. reflexivity.
  - destruct (f x); [exact IH | reflexivity].
Qed.

Lemma trim_blank (s : jsstring) :
  Forall (fun c => is_js_space c = true) s -> trim s = [].
Proof.
  intros H. unfold trim.
  pose proof (drop_while_all is_js_space s [] H) as E.
  rewrite app_nil_r in E. rewrite E. reflexivity.
Qed.

Lemma replace_trailing_fence_app (x : jsstring) :
  replace_trailing_fence (x ++ fence) = x.
Proof.
  induction x as [|c x IH]; [reflexivity|].
  change ((c :: x) ++ fence) with (c :: (x ++ fence)).
  cbn [replace_trailing_fence].
  destruct (jsstring_eqb (c :: x ++ fence) fence) eqn:E.
  - apply jsstring_eqb_length in E. simpl in E. rewrite length_app in E.
    simpl in E. lia.
  - rewrite IH. reflexivity.
Qed.

Lemma replace_trailing_fence_cases (s : jsstring) :
  replace_trailing_fence s = s \/ exists x, s = x ++ fence.
Proof.
  induction s as [|c s IH]; [left; reflexivity|].
  cbn [replace_trailing_fence].
  destruct (jsstring_eqb (c :: s) fence) eqn:E.
  - right. exists [].
    destruct s as [|c1 [|c2 [|c3 [|c4 s]]]]; simpl in E;
      rewrite ?andb_false_r in E; try discriminate.
    apply andb_true_iff in E; destruct E as [E1 E].
    apply andb_true_iff in E; destruct E as [E2 E].
    apply andb_true_iff in E; destruct E as [E3 _].
    apply jschar_eqb_eq in E1, E2, E3. subst. reflexivity.
  - destruct IH as [IH|[x ->]].
    + left. rewrite IH. reflexivity.
    + right. exists (c :: x). reflexivity.
Qed.

(** ** Fuel of the parser *)

Lemma parse_shorter (f : nat) :
  (forall ts v r, JSON.parse_value f ts = Some (v, r) -> List.length r < List.length ts)
  /\ (forall ts vs r, JSON.parse_elements f ts = Some (vs, r) -> List.length r < List.length ts)
  /\ (forall ts ms r, JSON.parse_members f ts = Some (ms, r) -> List.length r < List.length ts).
Proof.
  induction f as [|f (IHv & IHe & IHm)]; [repeat split; intros; discriminate|].
  repeat split.
  - intros ts v r H. cbn [JSON.parse_value] in H.
    destruct ts as [|[| | | | | |s|l| | |] ts]; try discriminate;
      try (injection H as <- <-; cbn; lia).
    + destruct ts as [|[| | | | | |s|l| | |] ts'];
        try (injection H as <- <-; cbn; lia);
        (destruct (JSON.parse_members f _) as [[ms r']|] eqn:E; [|discriminate];
         injection H as <- <-; apply IHm in E; cbn in *; lia).
    + destruct ts as [|[| | | | | |s|l| | |] ts'];
        try (injection H as <- <-; cbn; lia);
        (destruct (JSON.parse_elements f _) as [[vs r']|] eqn:E; [|discriminate];
         injection H as <- <-; apply IHe in E; cbn in *; lia).
  - intros ts vs r H. cbn [JSON.parse_elements] in H.
    destruct (JSON.parse_value f ts) as [[v [|[| | | | | |s|l| | |] r']]|] eqn:E;
      try discriminate; apply IHv in E.
    + injection H as <- <-. cbn in *; lia.
    + destruct (JSON.parse_elements f r') as [[vs' r'']|] eqn:E'; [|discriminate].
      injection H as <- <-. apply IHe in E'. cbn in *; lia.
  - intros ts ms r H. cbn [JSON.parse_members] in H.
    destruct ts as [|[| | | | | |k|l| | |] [|[| | | | | |s|l'| | |] ts]]; try discriminate.
    destruct (JSON.parse_value f ts) as [[v [|[| | | | | |s|l| | |] r']]|] eqn:E;
      try discriminate; apply IHv in E.
    + injection H as <- <-. cbn in *; lia.
    + destruct (JSON.parse_members f r') as [[ms' r'']|] eqn:E'; [|discriminate].
      injection H as <- <-. apply IHm in E'. cbn in *; lia.
Qed.

Lemma fuel_enough (f : nat) :
  (forall ts f', 2 * List.length ts <= f -> f <= f' ->
                 JSON.parse_value f' ts = JSON.parse_value f ts)
  /\ (forall ts f', 2 * List.length ts + 1 <= f -> f <= f' ->
                    JSON.parse_elements f' ts = JSON.parse_elements f ts)
  /\ (forall ts f', 2 * List.length ts + 1 <= f -> f <= f' ->
                    JSON.parse_members f' ts = JSON.parse_members f ts).
Proof.
  induction f as [|f (IHv & IHe & IHm)].
  - repeat split; intros ts f' Hl Hf; try (cbn in Hl; lia).
    destruct ts; [destruct f'; reflexivity | cbn in Hl; lia].
  - repeat split.
    + intros ts f' Hl Hf. destruct f' as [|f']; [lia|].
      cbn [JSON.parse_value].
      destruct ts as [|[| | | | | |s|l| | |] ts]; try reflexivity.
      * destruct ts as [|[| | | | | |s|l| | |] ts']; try reflexivity;
          (rewrite (IHm _ f'); [reflexivity | cbn in *; lia | lia]).
      * destruct ts as [|[| | | | | |s|l| | |] ts']; try reflexivity;
          (rewrite (IHe _ f'); [reflexivity | cbn in *; lia | lia]).
    + intros ts f' Hl Hf. destruct f' as [|f']; [lia|].
      cbn [JSON.parse_elements].
      rewrite (IHv ts f') by lia.
      destruct (JSON.parse_value f ts) as [[v [|[| | | | | |s|l| | |] r']]|] eqn:E;
        try reflexivity.
      apply (proj1 (parse_shorter f)) in E.
      rewrite (IHe r' f'); [reflexivity | cbn in *; lia | lia].
    + intros ts f' Hl Hf. destruct f' as [|f']; [lia|].
      cbn [JSON.parse_members].
      destruct ts as [|[| | | | | |k|l| | |] [|[| | | | | |s|l'| | |] ts]]; try reflexivity.
      rewrite (IHv ts f') by (cbn in *; lia).
      destruct (JSON.parse_value f ts) as [[v [|[| | | | | |s|l| | |] r']]|] eqn:E;
        try reflexivity.
      apply (proj1 (parse_shorter f)) in E.
      rewrite (IHm r' f'); [reflexivity | cbn in *; lia | lia].
Qed.

(** More fuel than [parse_tokens] gives never changes the result. *)
Lemma parse_tokens_fuel (ts : list JSON.token) (f : nat) :
  2 * List.length ts + 2 <= f ->
  JSON.parse_value f ts = JSON.parse_value (2 * List.length ts + 2) ts.
Proof.
  intros H. apply (proj1 (fuel_enough (2 * List.length ts + 2))); lia.
Qed.

(** ** [JSON.parse] on a few texts *)

Example parse_three_panels : JSON.parse three_panels = Some three_panels_script.
Proof. reflexivity. Qed.

Example parse_nested :
  JSON.parse (lit " [ [ ], [1, [2.5e-3, [true, null]]], {} ] ")
  = Some (JArray [JArray [];
                  JArray [JNumber (lit "1");
                          JArray [JNumber (lit "2.5e-3");
                                  JArray [JBool true; JNull]]];
                  JObject []]).
Proof. reflexivity. Qed.

Example parse_escapes :
  JSON.parse (dquote ++ [92; 117] ++ lit "0041" ++ [92; 110] ++ lit "b" ++ dquote)%N
  = Some (JString [65; 10; 98]%N).
Proof. reflexivity. Qed.

Example parse_duplicate_member :
  match JSON.parse (lit "{" ++ member (lit "text") (lit "one") ++ lit ","
                    ++ member (lit "text") (lit "two") ++ lit "}") with
  | Some v => get_prop (Value v) (lit "text")
  | None => Throw (SyntaxError [])
  end
  = Normal (Value (JString (lit "two"))).
Proof. reflexivity. Qed.

Example parse_rejects :
  JSON.parse [] = None
  /\ JSON.parse (lit "[1,]") = None
  /\ JSON.parse (lit "01") = None
  /\ JSON.parse (lit "{} {}") = None
  /\ JSON.parse (lit "nul") = None
  /\ JSON.parse (dquote ++ lit "open") = None
  /\ JSON.parse ([11%N] ++ lit "{}") = None
  /\ JSON.parse (three_panels ++ nl ++ fence ++ nl) = None.
Proof. repeat split. Qed.

(** ** White space around a JSON text *)

Lemma json_ws_cases (c : jschar) :
  is_json_ws c = true -> c = 9%N \/ c = 10%N \/ c = 13%N \/ c = 32%N.
Proof.
  unfold is_json_ws. intros H.
  repeat (apply orb_true_iff in H; destruct H as [H|H]);
    apply N.eqb_eq in H; auto.
Qed.

Lemma lex_go_ws_only (ws : jsstring) :
  Forall (fun c => is_json_ws c = true) ws ->
  forall st acc, JSON.lex_go st acc ws = JSON.lex_end st acc.
Proof.
  induction 1 as [|c ws Hc _ IH]; intros st acc; [reflexivity|].
  cbn [JSON.lex_go].
  destruct (json_ws_cases c Hc) as [-> | [-> | [-> | ->]]];
    destruct st as [|w|str|str|str hex]; cbn;
    try rewrite IH; try reflexivity;
    destruct (JSON.classify (rev w)); cbn; try rewrite IH; reflexivity.
Qed.

Lemma lex_go_ws_suffix (s ws : jsstring) :
  Forall (fun c => is_json_ws c = true) ws ->
  forall st acc, JSON.lex_go st acc (s ++ ws) = JSON.lex_go st acc s.
Proof.
  intros Hws. induction s as [|c s IH]; intros st acc.
  - apply lex_go_ws_only, Hws.
  - cbn [app JSON.lex_go].
    destruct (JSON.lex_step st acc c) as [[st' acc']|]; [apply IH | reflexivity].
Qed.

Lemma js_space_range (c : jschar) :
  is_js_space c = true -> (c <= 32 \/ 160 <= c)%N.
Proof.
  unfold is_js_space. intros H.
  repeat (apply orb_true_iff in H; destruct H as [H|H]);
    repeat (apply andb_true_iff in H; destruct H as [H H']);
    repeat match goal with
           | E : (_ =? _)%N = true |- _ => apply N.eqb_eq in E
           | E : (_ <=? _)%N = true |- _ => apply N.leb_le in E
           end; lia.
Qed.

Lemma between_false (lo hi c : N) :
  (c < lo \/ hi < c)%N -> ((lo <=? c) && (c <=? hi))%N = false.
Proof.
  intros [H|H].
  - replace (lo <=? c)%N with false; [reflexivity|].
    symmetry; apply N.leb_gt, H.
  - replace (c <=? hi)%N with false; [apply andb_false_r|].
    symmetry; apply N.leb_gt, H.
Qed.

Lemma eqb_false_outside (c k : N) :
  (c <= 32 \/ 160 <= c)%N -> (32 < k < 160)%N -> (c =? k)%N = false.
Proof. intros H Hk. apply N.eqb_neq. lia. Qed.

Lemma start_space (c : jschar) (acc : list JSON.token) :
  is_js_space c = true ->
  JSON.start c acc = if is_json_ws c then Some (JSON.LDefault, acc) else None.
Proof.
  intros H. apply js_space_range in H. unfold JSON.start.
  destruct (is_json_ws c); [reflexivity|].
  unfold JSON.is_word_char, JSON.is_digit.
  rewrite !(eqb_false_outside c _ H) by lia.
  rewrite !between_false by lia. reflexivity.
Qed.

Lemma lex_drop_spaces (s : jsstring) (ts : list JSON.token) :
  JSON.lex s = Some ts -> JSON.lex (drop_while is_js_space s) = Some ts.
Proof.
  unfold JSON.lex. induction s as [|c s IH]; intros H; [exact H|].
  cbn [drop_while]. destruct (is_js_space c) eqn:Es; [|exact H].
  cbn [JSON.lex_go JSON.lex_step] in H. rewrite (start_space c [] Es) in H.
  destruct (is_json_ws c); [apply IH, H | discriminate].
Qed.

Lemma lex_go_fence (st : JSON.lstate) (acc : list JSON.token) :
  JSON.lex_go st acc fence = None.
Proof.
  destruct st as [|w|str|str|str hex]; cbn; try reflexivity.
  destruct (JSON.classify (rev w)); reflexivity.
Qed.

Lemma lex_go_fence_suffix (x : jsstring) :
  forall st acc, JSON.lex_go st acc (x ++ fence) = None.
Proof.
  induction x as [|c x IH]; intros st acc.
  - apply lex_go_fence.
  - cbn [app JSON.lex_go].
    destruct (JSON.lex_step st acc c) as [[st' acc']|]; [apply IH | reflexivity].
Qed.

Lemma parse_lex (s : jsstring) (v : json) :
  JSON.parse s = Some v -> exists ts, JSON.lex s = Some ts.
Proof.
  unfold JSON.parse. destruct (JSON.lex s) as [ts|]; [eauto | discriminate].
Qed.

Lemma clean_valid (j : jsstring) (v : json) :
  JSON.parse j = Some v -> Part001.clean j = j.
Proof.
  intros H. destruct (parse_lex j v H) as [ts Hts].
  unfold Part001.clean.
  assert (Hl : replace_leading_fence j = j).
  { unfold replace_leading_fence.
    destruct (strip_prefix (fence ++ lit "json") j) as [r|] eqn:E; [|reflexivity].
    apply strip_prefix_Some in E. subst j. discriminate Hts. }
  rewrite Hl.
  destruct (replace_trailing_fence_cases j) as [E|[x E]]; [exact E|].
  subst j. unfold JSON.lex in Hts. rewrite lex_go_fence_suffix in Hts. discriminate.
Qed.

Lemma clean_fenced (j ws1 ws2 : jsstring) :
  Forall (fun c => is_js_space c = true) ws1 ->
  Part001.clean (fence ++ lit "json" ++ ws1 ++ j ++ ws2 ++ fence) =
  drop_while is_js_space (j ++ ws2).
Proof.
  intros H1. unfold Part001.clean, replace_leading_fence.
  rewrite (app_assoc fence), strip_prefix_app.
  rewrite (drop_while_all _ _ _ H1).
  rewrite (app_assoc j ws2 fence).
  change fence with ([backtick] ++ [backtick; backtick]) at 1.
  cbn [app]. rewrite drop_while_app_stop by reflexivity.
  change (backtick :: [backtick; backtick]) with fence.
  apply replace_trailing_fence_app.
Qed.

(** A valid JSON text between an opening fence followed by white space and
    a closing fence preceded by JSON white space is cleaned to a text that
    parses to the same value, and a valid JSON text without fences is left
    as it is. *)
Lemma fenced_script_parses_like_bare :
  forall (j ws1 ws2 : jsstring) (v : json),
    JSON.parse j = Some v ->
    Forall (fun c => is_js_space c = true) ws1 ->
    Forall (fun c => is_json_ws c = true) ws2 ->
    JSON.parse (Part001.clean (fence ++ lit "json" ++ ws1 ++ j ++ ws2 ++ fence))
    = JSON.parse j
    /\ Part001.clean j = j.
Proof.
  intros j ws1 ws2 v Hj H1 H2. split; [|apply (clean_valid j v Hj)].
  rewrite (clean_fenced j ws1 ws2 H1).
  destruct (parse_lex j v Hj) as [ts Hts].
  assert (Hs : JSON.lex (j ++ ws2) = Some ts).
  { unfold JSON.lex. rewrite (lex_go_ws_suffix j ws2 H2). exact Hts. }
  unfold JSON.parse. rewrite (lex_drop_spaces _ _ Hs), Hts. reflexivity.
Qed.

(** ** The pattern of [parseError] *)

Lemma before_last_Some (c : jschar) (s g : jsstring) :
  before_last c s = Some g -> exists rest, s = g ++ c :: rest.
Proof.
  revert g; induction s as [|x s IH]; intros g H; simpl in H; [discriminate|].
  destruct (before_last c s) as [r|] eqn:E.
  - injection H as <-. destruct (IH r eq_refl) as [rest ->].
    exists rest. reflexivity.
  - destruct (jschar_eqb x c) eqn:Ex; [|discriminate].
    injection H as <-. apply jschar_eqb_eq in Ex. subst x.
    exists s. reflexivity.
Qed.

Lemma before_last_found (c : jschar) (g rest : jsstring) :
  before_last c (g ++ c :: rest) <> None.
Proof.
  induction g as [|x g IH]; simpl.
  - destruct (before_last c rest); [discriminate|].
    rewrite jschar_eqb_refl. discriminate.
  - destruct (before_last c (g ++ c :: rest)); [discriminate | contradiction].
Qed.

Lemma take_while_split (f : jschar -> bool) (s : jsstring) :
  exists rest, s = take_while f s ++ rest.
Proof.
  induction s as [|x s [rest IH]]; simpl.
  - exists []. reflexivity.
  - destruct (f x).
    + exists rest. simpl. f_equal. exact IH.
    + exists (x :: s). reflexivity.
Qed.

Lemma take_while_Forall (f : jschar -> bool) (s : jsstring) :
  Forall (fun c => f c = true) (take_while f s).
Proof.
  induction s as [|x s IH]; simpl; [constructor|].
  destruct (f x) eqn:E; constructor; assumption.
Qed.

Lemma take_while_app (f : jschar -> bool) (g : jsstring) (c : jschar) (rest : jsstring) :
  Forall (fun c => f c = true) g -> f c = true ->
  take_while f (g ++ c :: rest) = g ++ c :: take_while f rest.
Proof.
  intros Hg Hc. induction Hg as [|x g Hx _ IH]; simpl.
  - rewrite Hc. reflexivity.
  - rewrite Hx, IH. reflexivity.
Qed.

Lemma exec_error_group_cons (x : jschar) (s : jsstring) :
  exec_error_group (x :: s) =
  match strip_prefix error_key (x :: s) with
  | Some r =>
      match before_last 125%N (take_while (fun c => negb (is_line_terminator c)) r) with
      | Some g => Some g
      | None => exec_error_group s
      end
  | None => exec_error_group s
  end.
Proof. reflexivity. Qed.

Lemma exec_error_group_Some (s g : jsstring) :
  exec_error_group s = Some g ->
  exists pre post : jsstring,
    s = pre ++ error_key ++ g ++ 125%N :: post /\ single_line g.
Proof.
  induction s as [|x s IH]; intros H; [discriminate|].
  rewrite exec_error_group_cons in H.
  assert (Hrec : exec_error_group s = Some g ->
                 exists pre post : jsstring,
                   x :: s = pre ++ error_key ++ g ++ 125%N :: post /\ single_line g).
  { intros E. destruct (IH E) as (pre & post & -> & Hg).
    exists (x :: pre), post. split; [reflexivity | exact Hg]. }
  destruct (strip_prefix error_key (x :: s)) as [r|] eqn:Ep; [|exact (Hrec H)].
  destruct (before_last 125%N
              (take_while (fun c => negb (is_line_terminator c)) r)) as [g'|] eqn:Eb;
    [|exact (Hrec H)].
  injection H as <-.
  apply strip_prefix_Some in Ep.
  destruct (before_last_Some _ _ _ Eb) as [rest Et].
  destruct (take_while_split (fun c => negb (is_line_terminator c)) r) as [rest' Er].
  exists [], (rest ++ rest'). split.
  - rewrite Ep, Er, Et. cbn [app]. rewrite <- !app_assoc. reflexivity.
  - pose proof (take_while_Forall (fun c => negb (is_line_terminator c)) r) as Hall.
    rewrite Et in Hall. apply Forall_app in Hall. exact (proj1 Hall).
Qed.

Lemma exec_error_group_None (s : jsstring) :
  exec_error_group s = None ->
  forall pre g post : jsstring,
    s = pre ++ error_key ++ g ++ 125%N :: post -> single_line g -> False.
Proof.
  intros H pre. revert s H. induction pre as [|x pre IH]; intros s H g post E Hg.
  - cbn [app] in E.
    destruct s as [|x s']; [discriminate E|].
    rewrite exec_error_group_cons, E, strip_prefix_app in H.
    rewrite (take_while_app (fun c => negb (is_line_terminator c)) g 125%N post Hg eq_refl) in H.
    pose proof (before_last_found 125%N g
                  (take_while (fun c => negb (is_line_terminator c)) post)) as Hf.
    destruct (before_last 125%N
                (g ++ 125%N :: take_while (fun c => negb (is_line_terminator c)) post));
      [discriminate | contradiction].
  - cbn [app] in E. subst s. rewrite exec_error_group_cons in H.
    apply (IH (pre ++ error_key ++ g ++ 125%N :: post)) with (g := g) (post := post);
      [|reflexivity | exact Hg].
    destruct (strip_prefix error_key (x :: pre ++ error_key ++ g ++ 125%N :: post)) as [r|];
      [|exact H].
    destruct (before_last 125%N (take_while (fun c => negb (is_line_terminator c)) r));
      [discriminate | exact H].
Qed.

Lemma get_prop_value_object (v w : json) (key : jsstring) :
  get_prop (Value v) key = Normal (Value w) -> exists ms, v = JObject ms.
Proof.
  destruct v; cbn; try discriminate. intros _. eexists. reflexivity.
Qed.

(* ================================================================== *)
(** * Properties of the stream loops *)
(* ================================================================== *)

Section StreamLoops.

Variable host : Host.

Lemma absorb_part_of (f : Fragment) (b : Buffers) :
  Index.absorb (part_of f) b = hold f b.
Proof.
  destruct f as [[|c t]|d]; simpl; unfold Index.absorb; simpl.
  - rewrite app_nil_r. symmetry. apply buffers_eta.
  - reflexivity.
  - reflexivity.
Qed.

Lemma for_part_run (p : Part) (b : Buffers) (s : State) :
  Index.for_part host p b s =
  match text (Index.absorb p b), img (Index.absorb p b) with
  | c :: t, Some image => (Normal empty_buffers, shown host (c :: t, image) s)
  | _, _ => (Normal (Index.absorb p b), s)
  end.
Proof.
  unfold Index.for_part, Index.pair_up.
  destruct (text (Index.absorb p b)) as [|c t] eqn:Et;
    destruct (img (Index.absorb p b)) as [image|] eqn:Ei; try reflexivity.
Qed.

Lemma for_parts_assemble (fs : list Fragment) (b : Buffers) (s : State) :
  for_of (Index.for_part host) (List.map part_of fs) b s =
  (Normal (snd (assemble b fs)), shown_all host (fst (assemble b fs)) s).
Proof.
  revert b s; induction fs as [|f fs IH]; intros b s; simpl.
  - reflexivity.
  - unfold bind. rewrite for_part_run, absorb_part_of.
    destruct (text (hold f b)) as [|c t] eqn:Et.
    + rewrite IH. reflexivity.
    + destruct (img (hold f b)) as [image|] eqn:Ei.
      * rewrite IH. destruct (assemble empty_buffers fs) as [slides rest].
        reflexivity.
      * rewrite IH. reflexivity.
Qed.

Lemma for_chunk_chunk_of (ps : list Part) (b : Buffers) (s : State) :
  Index.for_chunk host (chunk_of ps) b s = for_of (Index.for_part host) ps b s.
Proof.
  unfold Index.for_chunk, chunk_of; simpl. unfold bind, Index.for_candidate; simpl.
  destruct (for_of (Index.for_part host) ps b s) as [[b'|e] s']; reflexivity.
Qed.

Lemma for_chunks_concat (pss : list (list Part)) (b : Buffers) (s : State) :
  for_of (Index.for_chunk host) (List.map chunk_of pss) b s =
  for_of (Index.for_part host) (List.concat pss) b s.
Proof.
  revert b s; induction pss as [|ps pss IH]; intros b s; simpl.
  - reflexivity.
  - rewrite for_of_app. unfold bind. rewrite for_chunk_chunk_of.
    destruct (for_of (Index.for_part host) ps b s) as [[b'|e] s'];
      [apply IH | reflexivity].
Qed.

Lemma shown_all_slideshow (l : list (jsstring * HTMLImageElement)) (s : State) :
  slideshow (dom (shown_all host l s)) = slideshow (dom s) ++ List.map (render host) l.
Proof.
  revert s; induction l as [|p l IH]; intros s.
  - simpl. symmetry; apply app_nil_r.
  - change (shown_all host (p :: l) s) with (shown_all host l (shown host p s)).
    rewrite IH. simpl. rewrite <- app_assoc. reflexivity.
Qed.

Lemma assemble_settled (fs : list Fragment) (b : Buffers) :
  settled b -> settled (snd (assemble b fs)).
Proof.
  revert b; induction fs as [|f fs IH]; intros b Hb; simpl; [exact Hb|].
  destruct (text (hold f b)) as [|c t] eqn:Et.
  - apply IH. left; exact Et.
  - destruct (img (hold f b)) as [image|] eqn:Ei.
    + specialize (IH empty_buffers (or_introl eq_refl)).
      destruct (assemble empty_buffers fs); exact IH.
    + apply IH. right; exact Ei.
Qed.

Lemma for_await_stream_of (fss : list (list Fragment)) (b : Buffers) (s : State) :
  for_await (Index.for_chunk host) (stream_of fss) b s =
  (Normal (snd (assemble b (List.concat fss))),
   shown_all host (fst (assemble b (List.concat fss))) s).
Proof.
  unfold for_await, stream_of, bind; simpl.
  rewrite <- (map_map (List.map part_of) chunk_of).
  rewrite for_chunks_concat, <- concat_map, for_parts_assemble.
  reflexivity.
Qed.

Lemma index_generate_slideshow (chat : StreamingChat) (fss : list (list Fragment))
    (message : jsstring) (s : State) :
  chat (sent s) (message ++ Index.additionalInstructions) = stream_of fss ->
  Index.generate host chat message s =
  (Normal tt,
   let a := assemble empty_buffers (List.concat fss) in
   let s1 := {| dom := set_userInput_value []
                         (set_modelOutput [marked_parse host message]
                            (set_error [] true
                               (set_slideshow []
                                  (set_modelOutput []
                                     (set_userInput_disabled true (dom s))))));
                sent := sent s ++ [(the_chat, message ++ Index.additionalInstructions)] |} in
   let s2 := shown_all host (fst a) s1 in
   let s3 := match img (snd a) with
             | Some image => shown host (text (snd a), image) s2
             | None => s2
             end in
   {| dom := userInput_focus (set_userInput_disabled false (dom s3)); sent := sent s3 |}).
Proof.
  intros H.
  cbv beta iota zeta delta
    [Index.generate bind update try_catch sendMessageStream ret].
  cbn [dom sent]. rewrite H, for_await_stream_of.
  destruct (img (snd (assemble empty_buffers (List.concat fss)))) as [image|] eqn:Ei;
    reflexivity.
Qed.

Lemma part000_generate_slideshow (chat : StreamingChat) (fss : list (list Fragment))
    (message : jsstring) (s : State) :
  trim message <> [] ->
  chat (sent s) (message ++ Part000.additionalInstructions) = stream_of fss ->
  Part000.generate host (Some chat) message s =
  (Normal tt,
   let a := assemble empty_buffers (List.concat fss) in
   let s1 := {| dom := set_userInput_value []
                         (set_modelOutput [marked_parse host message]
                            (set_error [] true
                               (set_slideshow []
                                  (set_modelOutput []
                                     (set_userInput_disabled true (dom s))))));
                sent := sent s ++ [(the_chat, message ++ Part000.additionalInstructions)] |} in
   let s2 := shown_all host (fst a) s1 in
   {| dom := userInput_focus (set_userInput_disabled false (dom s2)); sent := sent s2 |}).
Proof.
  intros Hm H. unfold Part000.generate.
  destruct (trim message) as [|c t]; [contradiction|].
  cbv beta iota zeta delta [bind update try_catch sendMessageStream ret].
  cbn [dom sent]. rewrite H.
  change (Part000.for_chunk host) with (Index.for_chunk host).
  rewrite for_await_stream_of. reflexivity.
Qed.

Lemma hold_pending (acc : list Fragment) (f : Fragment) :
  hold f {| text := texts_of acc; img := last_image acc |} =
  {| text := texts_of (acc ++ [f]); img := last_image (acc ++ [f]) |}.
Proof.
  rewrite texts_of_app, last_image_app.
  destruct f as [t|d]; simpl; rewrite ?app_nil_r; reflexivity.
Qed.

Lemma assemble_pending (fs acc : list Fragment) :
  snd (assemble {| text := texts_of acc; img := last_image acc |} fs) =
  {| text := texts_of (since_last_slide acc fs);
     img := last_image (since_last_slide acc fs) |}.
Proof.
  revert acc; induction fs as [|f fs IH]; intros acc; simpl; [reflexivity|].
  rewrite hold_pending. cbn [text img].
  destruct (texts_of (acc ++ [f])) as [|c t] eqn:Et.
  - rewrite <- Et. apply IH.
  - destruct (last_image (acc ++ [f])) as [image|] eqn:Ei.
    + specialize (IH []). simpl in IH.
      change {| text := []; img := None |} with empty_buffers in IH.
      destruct (assemble empty_buffers fs) as [slides rest]. exact IH.
    + rewrite <- Et, <- Ei. apply IH.
Qed.

Lemma for_of_keeps {X B A : Type} (f : State -> A) (body : X -> B -> M B) :
  (forall x b s, f (snd (body x b s)) = f s) ->
  forall l b s, f (snd (for_of body l b s)) = f s.
Proof.
  intros H l. induction l as [|x l IH]; intros b s; [reflexivity|].
  cbn [for_of]. unfold bind. specialize (H x b s).
  destruct (body x b s) as [[b'|e] s1]; cbn [snd] in *.
  - rewrite IH. exact H.
  - exact H.
Qed.

Lemma index_for_part_error_hidden (p : Part) (b : Buffers) (s : State) :
  error_hidden (dom (snd (Index.for_part host p b s))) = error_hidden (dom s).
Proof.
  rewrite for_part_run.
  destruct (text (Index.absorb p b)); [reflexivity|].
  destruct (img (Index.absorb p b)); reflexivity.
Qed.

Lemma index_for_chunk_error_hidden (c : Chunk) (b : Buffers) (s : State) :
  error_hidden (dom (snd (Index.for_chunk host c b s))) = error_hidden (dom s).
Proof.
  unfold Index.for_chunk. destruct (chunk_candidates c) as [cs|]; [|reflexivity].
  apply (for_of_keeps (fun s => error_hidden (dom s))).
  intros candidate b' s'. unfold Index.for_candidate.
  destruct (candidate_content candidate) as [content|]; [|reflexivity].
  apply (for_of_keeps (fun s => error_hidden (dom s))).
  apply index_for_part_error_hidden.
Qed.

Lemma index_for_await_error_hidden (result : Stream) (b : Buffers) (s : State) :
  error_hidden (dom (snd (for_await (Index.for_chunk host) result b s)))
  = error_hidden (dom s).
Proof.
  unfold for_await, bind.
  pose proof (for_of_keeps (fun s => error_hidden (dom s)) (Index.for_chunk host)
                index_for_chunk_error_hidden (stream_chunks result) b s) as H.
  destruct (for_of (Index.for_chunk host) (stream_chunks result) b s) as [[b'|e] s1];
    cbn [snd] in *; [|exact H].
  destruct (stream_failure result); exact H.
Qed.

Lemma part001_parts_pure (ps : list Part) (b : Buffers) (s : State) :
  for_of (fun part b => ret (Part001.absorb part b)) ps b s =
  (Normal (fold_left (fun b p => Part001.absorb p b) ps b), s).
Proof.
  revert b; induction ps as [|p ps IH]; intros b; [reflexivity|].
  cbn [for_of fold_left]. unfold bind at 1, ret at 1. apply IH.
Qed.

Lemma part001_for_chunk_pure (c : Chunk) (b : Buffers) :
  exists r, forall s, Part001.for_chunk c b s = (r, s).
Proof.
  unfold Part001.for_chunk.
  destruct (chunk_candidates c) as [[|candidate cs]|];
    try (eexists; intros s; reflexivity).
  eexists; intros s. apply part001_parts_pure.
Qed.

Lemma part001_for_chunks_pure (cs : list Chunk) (b : Buffers) :
  exists r, forall s, for_of Part001.for_chunk cs b s = (r, s).
Proof.
  revert b; induction cs as [|c cs IH]; intros b.
  - eexists; intros s; reflexivity.
  - destruct (part001_for_chunk_pure c b) as [[b'|e] Hc].
    + destruct (IH b') as [r Hr]. exists r. intros s.
      cbn [for_of]. unfold bind. rewrite Hc. apply Hr.
    + exists (Throw e). intros s. cbn [for_of]. unfold bind. rewrite Hc. reflexivity.
Qed.

Lemma part001_for_await_pure (result : Stream) (b : Buffers) :
  exists r, forall s, for_await Part001.for_chunk result b s = (r, s).
Proof.
  destruct (part001_for_chunks_pure (stream_chunks result) b) as [[b'|e] Hr].
  - destruct (stream_failure result) as [e|] eqn:Ef.
    + exists (Throw e). intros s. unfold for_await, bind. rewrite Hr, Ef. reflexivity.
    + exists (Normal b'). intros s. unfold for_await, bind. rewrite Hr, Ef. reflexivity.
  - exists (Throw e). intros s. unfold for_await, bind. rewrite Hr. reflexivity.
Qed.

Lemma part001_for_chunk_fragments (fs : list Fragment) (b : Buffers) (s : State) :
  Part001.for_chunk (chunk_of (List.map part_of fs)) b s
  = (Normal {| text := text b ++ texts_of fs;
               img := match last_image fs with
                      | Some image => Some image
                      | None => img b
                      end |}, s).
Proof.
  unfold Part001.for_chunk, chunk_of. cbn.
  revert b; induction fs as [|f fs IH]; intros b.
  - cbn. rewrite app_nil_r, buffers_eta. reflexivity.
  - cbn [List.map for_of]. unfold bind at 1. unfold ret at 1.
    rewrite IH. change Part001.absorb with Index.absorb.
    rewrite absorb_part_of.
    destruct f as [t|d]; cbn.
    + rewrite <- app_assoc. reflexivity.
    + destruct (last_image fs); reflexivity.
Qed.

Lemma part001_stream_of (fss : list (list Fragment)) (b : Buffers) (s : State) :
  for_await Part001.for_chunk (stream_of fss) b s
  = (Normal {| text := text b ++ texts_of (List.concat fss);
               img := match last_image (List.concat fss) with
                      | Some image => Some image
                      | None => img b
                      end |}, s).
Proof.
  unfold for_await, stream_of, bind. cbn [stream_chunks stream_failure].
  assert (H : for_of Part001.for_chunk
                (List.map (fun fs => chunk_of (List.map part_of fs)) fss) b s
              = (Normal {| text := text b ++ texts_of (List.concat fss);
                           img := match last_image (List.concat fss) with
                                  | Some image => Some image
                                  | None => img b
                                  end |}, s)).
  { revert b; induction fss as [|fs fss IH]; intros b.
    - cbn. rewrite app_nil_r, buffers_eta. reflexivity.
    - cbn [List.map for_of List.concat]. unfold bind.
      rewrite part001_for_chunk_fragments, IH. cbn [text img].
      rewrite texts_of_app, last_image_app, <- app_assoc.
      destruct (last_image (List.concat fss)); reflexivity. }
  rewrite H. reflexivity.
Qed.

Lemma for_await_failing (fss : list (list Fragment)) (e : exn) (b : Buffers) (s : State) :
  for_await (Index.for_chunk host)
    {| stream_chunks := stream_chunks (stream_of fss); stream_failure := Some e |} b s =
  (Throw e, shown_all host (fst (assemble b (List.concat fss))) s).
Proof.
  pose proof (for_await_stream_of fss b s) as H.
  unfold for_await, bind in *. cbn [stream_chunks stream_failure] in *.
  destruct (for_of (Index.for_chunk host) (stream_chunks (stream_of fss)) b s)
    as [[b'|e'] s1]; [|discriminate].
  unfold ret in H. injection H as _ <-. reflexivity.
Qed.

Lemma index_generate_failing (chat : StreamingChat) (fss : list (list Fragment))
    (e : exn) (msg : jsval) (rendered message : jsstring) (s : State) :
  chat (sent s) (message ++ Index.additionalInstructions)
  = {| stream_chunks := stream_chunks (stream_of fss); stream_failure := Some e |} ->
  Index.parseError (exn_to_string host e) = Normal msg ->
  to_string host msg = Normal rendered ->
  Index.generate host chat message s =
  (Normal tt,
   let s1 := {| dom := set_userInput_value []
                         (set_modelOutput [marked_parse host message]
                            (set_error [] true
                               (set_slideshow []
                                  (set_modelOutput []
                                     (set_userInput_disabled true (dom s))))));
                sent := sent s ++ [(the_chat, message ++ Index.additionalInstructions)] |} in
   let s2 := shown_all host (fst (assemble empty_buffers (List.concat fss))) s1 in
   {| dom := userInput_focus
               (set_userInput_disabled false
                  (set_error (lit "Something went wrong: " ++ rendered) false (dom s2)));
      sent := sent s2 |}).
Proof.
  intros H Hm Hr.
  cbv beta iota zeta delta
    [Index.generate bind update try_catch sendMessageStream ret lift].
  cbn [dom sent]. rewrite H, for_await_failing, Hm, Hr. reflexivity.
Qed.

End StreamLoops.

(* ================================================================== *)
(** * Properties of the two-stage pipeline *)
(* ================================================================== *)

(** Reduce the page projections of an explicit state, and nothing else. *)
Ltac page_simpl :=
  cbn [fst snd dom sent
       userInput_disabled userInput_value userInput_focused modelOutput
       slideshow slideshow_hidden status_textContent status_hidden
       error_innerHTML error_hidden
       set_userInput_disabled set_userInput_value userInput_focus set_modelOutput
       set_slideshow set_slideshow_hidden set_status set_error] in *.

Section Pipeline.

Variable host : Host.

Lemma imagePrompt_Normal (script panel : json) (prompt : jsstring) :
  Part001.imagePrompt host script panel = Normal prompt ->
  exists pt ts,
    get_prop (Value panel) (lit "text") = Normal pt /\ to_string host pt = Normal ts.
Proof.
  unfold Part001.imagePrompt.
  destruct (get_prop (Value panel) (lit "text")) as [pt|]; [|discriminate].
  destruct (to_string host pt) as [ts|] eqn:E; [|discriminate].
  intros _. exists pt, ts. split; [reflexivity | exact E].
Qed.

Lemma imagePrompt_typed (script panel : json) (cd t : jsstring) :
  get_prop (Value script) (lit "characterDescription") = Normal (Value (JString cd)) ->
  get_prop (Value panel) (lit "text") = Normal (Value (JString t)) ->
  Part001.imagePrompt host script panel =
  Normal (t ++ nl ++ nl ++ lit "**Character:** " ++ cd
          ++ nl ++ nl ++ lit "**Style:** " ++ Part001.imageStylePrompt).
Proof.
  intros Hc Ht. unfold Part001.imagePrompt. rewrite Ht, Hc. reflexivity.
Qed.

(** The page and the trace after the [catch] branch of a turn. *)
Lemma for_panel_unfold (chat : StreamingChat) (script panel : json) (k : nat)
    (s : State) (panels : jsval) (total prompt : jsstring) (pt : jsval)
    (ts : jsstring) (r : completion Buffers) :
  get_prop (Value script) (lit "panels") = Normal panels ->
  Part001.length_to_string host panels = Normal total ->
  Part001.imagePrompt host script panel = Normal prompt ->
  get_prop (Value panel) (lit "text") = Normal pt ->
  to_string host pt = Normal ts ->
  (forall st, for_await Part001.for_chunk (chat (sent s) prompt) empty_buffers st = (r, st)) ->
  let d1 := set_status (lit "Generating panel " ++ nat_to_string k
                        ++ lit " of " ++ total ++ lit "...") false (dom s) in
  let s2 := {| dom := d1; sent := sent s ++ [(the_imageChat, prompt)] |} in
  let failed e := (Normal false,
                   {| dom := set_error (Part001.panel_failed host k ts e) false d1;
                      sent := sent s2 |}) in
  Part001.for_panel host chat script panel k s =
  match r with
  | Normal b =>
      match img b with
      | Some image =>
          match pt with
          | Value (JString t) =>
              (Normal true,
               {| dom := set_slideshow_hidden false
                           (set_slideshow
                              (slideshow d1 ++ [ {| slide_image := image;
                                                    slide_caption := marked_parse host t |} ])
                              d1);
                  sent := sent s2 |})
          | _ => failed (MarkedError pt)
          end
      | None => failed Part001.no_image
      end
  | Throw e => failed e
  end.
Proof.
  intros Hp Ht Hi Hpt Hts Hr d1 s2 failed.
  cbv beta iota zeta delta
    [Part001.for_panel bind lift update try_catch sendMessageStream ret throw
     Part001.setStatus Part001.setError].
  rewrite Hp, Ht. cbn [negb dom sent]. rewrite Hi. cbn [dom sent].
  rewrite Hr.
  destruct r as [b|e].
  - destruct (img b) as [image|].
    + rewrite Hpt. unfold Part001.addSlide.
      destruct pt as [|[| | |t| |]];
        cbv beta iota zeta delta [bind update throw];
        cbn [dom sent]; rewrite ?Hts; reflexivity.
    + rewrite Hpt, Hts. reflexivity.
  - rewrite Hpt, Hts. reflexivity.
Qed.

Lemma generateScript_run (chat : TextChat) (story : jsstring) (s : State) :
  let prompt := Part001.scriptwriterPrompt story in
  let s1 := {| dom := dom s; sent := sent s ++ [(the_textChat, prompt)] |} in
  let failed e := (Normal JNull,
                   {| dom := set_error (Part001.scriptwriting_failed host e) false (dom s);
                      sent := sent s1 |}) in
  Part001.generateScript host (Some chat) story s =
  match chat (sent s) prompt with
  | Throw e => failed e
  | Normal [] => failed (Error (lit "Text model returned no response."))
  | Normal (c :: t) =>
      match JSON.parse (Part001.clean (c :: t)) with
      | Some script => (Normal script, s1)
      | None => failed (SyntaxError (Part001.clean (c :: t)))
      end
  end.
Proof.
  cbv beta iota zeta delta
    [Part001.generateScript Part001.sendMessage bind try_catch ret throw update
     Part001.setError].
  destruct (chat (sent s) (Part001.scriptwriterPrompt story)) as [[|c t]|e];
    try reflexivity.
  destruct (JSON.parse (Part001.clean (c :: t))); reflexivity.
Qed.

(** The page when [generate] returns, and before the script is requested. *)
Lemma generate_unfold (textChat : TextChat) (imageChat : StreamingChat)
    (story : jsstring) (s : State) :
  trim story <> [] ->
  let finish (s : State) :=
    {| dom := userInput_focus (set_userInput_disabled false (set_status [] true (dom s)));
       sent := sent s |} in
  let s0 :=
    {| dom := set_status (lit "Writing the script...") false
                (set_error [] true
                   (set_slideshow_hidden true
                      (set_slideshow []
                         (set_modelOutput []
                            (set_userInput_disabled true (dom s))))));
       sent := sent s |} in
  Part001.generate host (Some textChat) (Some imageChat) story s =
  match Part001.generateScript host (Some textChat) story s0 with
  | (Throw e, s1) => (Throw e, s1)
  | (Normal script, s1) =>
      match (match script with
             | JNull => Normal Undefined
             | _ => get_prop (Value script) (lit "panels")
             end) with
      | Throw e => (Throw e, s1)
      | Normal panels =>
          if negb (truthy host (Value script))
             || negb (truthy host panels)
             || Part001.length_is_zero host panels
          then (Normal tt, finish s1)
          else
            let s2 := {| dom := set_userInput_value []
                                  (set_modelOutput
                                     (modelOutput (dom s1) ++ [marked_parse host story])
                                     (dom s1));
                         sent := sent s1 |} in
            match Part001.iterate panels with
            | Throw e => (Throw e, s2)
            | Normal elements =>
                match Part001.for_panels host imageChat script elements 0 s2 with
                | (Throw e, s3) => (Throw e, s3)
                | (Normal _, s3) => (Normal tt, finish s3)
                end
            end
      end
  end.
Proof.
  intros Hs finish s0. unfold Part001.generate.
  destruct (trim story) as [|c t]; [contradiction|].
  cbv beta iota zeta delta [bind update Part001.setError Part001.setStatus].
  cbn [negb dom sent].
  fold s0.
  destruct (Part001.generateScript host (Some textChat) story s0) as [[script|e] s1];
    [|reflexivity].
  unfold lift at 1.
  destruct (match script with
            | JNull => Normal Undefined
            | _ => get_prop (Value script) (lit "panels")
            end) as [panels|e]; [|reflexivity].
  destruct (negb (truthy host (Value script)) || negb (truthy host panels)
            || Part001.length_is_zero host panels); [reflexivity|].
  cbn [dom sent]. unfold lift.
  destruct (Part001.iterate panels) as [elements|e]; [|reflexivity].
  destruct (Part001.for_panels host imageChat script elements 0 _) as [[u|e] s3];
    reflexivity.
Qed.

Lemma for_panel_turn (chat : StreamingChat) (script panel : json) (k : nat) (s : State) :
  turn host script panel k s
       (fst (Part001.for_panel host chat script panel k s))
       (snd (Part001.for_panel host chat script panel k s)).
Proof.
  destruct (get_prop (Value script) (lit "panels")) as [panels|e] eqn:Hp.
  2:{ cbv beta iota zeta delta [Part001.for_panel bind lift]. rewrite Hp.
      constructor; reflexivity. }
  destruct (Part001.length_to_string host panels) as [total|e] eqn:Ht.
  2:{ cbv beta iota zeta delta [Part001.for_panel bind lift]. rewrite Hp, Ht.
      constructor; reflexivity. }
  destruct (Part001.imagePrompt host script panel) as [prompt|e] eqn:Hi.
  2:{ cbv beta iota zeta delta [Part001.for_panel bind lift Part001.setStatus update].
      rewrite Hp, Ht. cbn [dom sent]. rewrite Hi. constructor; reflexivity. }
  destruct (imagePrompt_Normal script panel prompt Hi) as (pt & ts & Hpt & Hts).
  destruct (part001_for_await_pure (chat (sent s) prompt) empty_buffers) as [r Hr].
  rewrite (for_panel_unfold chat script panel k s panels total prompt pt ts r
             Hp Ht Hi Hpt Hts Hr).
  cbv zeta.
  destruct r as [b|e];
    [|apply turn_fails with (prompt := prompt) (shown := ts) (e := e);
      solve [assumption | reflexivity]].
  destruct (img b) as [image|];
    [|apply turn_fails with (prompt := prompt) (shown := ts) (e := Part001.no_image);
      solve [assumption | reflexivity]].
  destruct pt as [|[| | |t| |]];
    try (eapply turn_fails with (prompt := prompt) (shown := ts);
         solve [assumption | reflexivity]).
  apply turn_renders with (prompt := prompt) (t := t) (image := image);
    solve [assumption | reflexivity].
Qed.

Lemma for_panels_cons (chat : StreamingChat) (script panel : json)
    (rest : list json) (k : nat) (s : State) :
  Part001.for_panels host chat script (panel :: rest) k s =
  match Part001.for_panel host chat script panel (S k) s with
  | (Normal true, s1) => Part001.for_panels host chat script rest (S k) s1
  | (Normal false, s1) => (Normal tt, s1)
  | (Throw e, s1) => (Throw e, s1)
  end.
Proof.
  cbn [Part001.for_panels]. unfold bind.
  destruct (Part001.for_panel host chat script panel (S k) s) as [[[|]|e] s1];
    reflexivity.
Qed.

Lemma for_panels_after_rendered (chat : StreamingChat) (script : json)
    (pre rest : list json) (k : nat) (s s1 : State) :
  rendered host chat script pre k s s1 ->
  Part001.for_panels host chat script (pre ++ rest) k s =
  Part001.for_panels host chat script rest (k + List.length pre) s1.
Proof.
  revert k s; induction pre as [|p pre IH]; intros k s H.
  - cbn in H. subst s1. cbn. rewrite Nat.add_0_r. reflexivity.
  - destruct H as (s0 & Hp & H). cbn [app]. rewrite for_panels_cons, Hp.
    rewrite (IH (S k) s0 H). cbn [List.length]. f_equal. lia.
Qed.

Lemma rendered_slides (chat : StreamingChat) (script : json)
    (pre : list json) (k : nat) (s s1 : State) :
  rendered host chat script pre k s s1 ->
  List.length (slideshow (dom s1)) = List.length (slideshow (dom s)) + List.length pre.
Proof.
  revert k s; induction pre as [|p pre IH]; intros k s H.
  - cbn in H. subst s1. cbn. lia.
  - destruct H as (s0 & Hp & H).
    pose proof (for_panel_turn chat script p (S k) s) as Ht.
    rewrite Hp in Ht. cbn [fst snd] in Ht. inversion Ht; subst.
    rewrite (IH (S k) s0 H).
    match goal with E : slideshow (dom s0) = _ |- _ => rewrite E end.
    rewrite length_app. cbn [List.length]. lia.
Qed.

Lemma panel_failed_names (k : nat) (t : jsstring) (e : exn) :
  includes (nat_to_string k) (Part001.panel_failed host k t e)
  /\ includes t (Part001.panel_failed host k t e)
  /\ includes (exn_to_string host e) (Part001.panel_failed host k t e).
Proof.
  unfold Part001.panel_failed. repeat split.
  - apply includes_middle.
  - exists (lit "<strong>Panel " ++ nat_to_string k
            ++ lit " Failed:</strong> Could not generate an image for the text: " ++ dquote),
           (dquote ++ lit " <br><br><em>Error: " ++ exn_to_string host e ++ lit "</em>").
    rewrite <- !app_assoc. reflexivity.
  - exists (lit "<strong>Panel " ++ nat_to_string k
            ++ lit " Failed:</strong> Could not generate an image for the text: "
            ++ dquote ++ t ++ dquote ++ lit " <br><br><em>Error: "),
           (lit "</em>").
    rewrite <- !app_assoc. reflexivity.
Qed.

Lemma scriptwriting_failed_includes (e : exn) :
  includes (exn_to_string host e) (Part001.scriptwriting_failed host e).
Proof. unfold Part001.scriptwriting_failed. apply includes_middle. Qed.

Lemma for_panel_no_image (chat : StreamingChat) (script panel : json) (k : nat)
    (s : State) (all : list json) (prompt t : jsstring) (b : Buffers) :
  get_prop (Value script) (lit "panels") = Normal (Value (JArray all)) ->
  Part001.imagePrompt host script panel = Normal prompt ->
  get_prop (Value panel) (lit "text") = Normal (Value (JString t)) ->
  (forall st, for_await Part001.for_chunk (chat (sent s) prompt) empty_buffers st
              = (Normal b, st)) ->
  img b = None ->
  exists s',
    Part001.for_panel host chat script panel k s = (Normal false, s')
    /\ slideshow (dom s') = slideshow (dom s)
    /\ sent s' = sent s ++ [(the_imageChat, prompt)]
    /\ error_hidden (dom s') = false
    /\ error_innerHTML (dom s') = Part001.panel_failed host k t Part001.no_image.
Proof.
  intros Hp Hi Ht Hr Hb.
  rewrite (for_panel_unfold chat script panel k s (Value (JArray all))
             (nat_to_string (List.length all)) prompt (Value (JString t)) t
             (Normal b) Hp eq_refl Hi Ht eq_refl Hr).
  cbv zeta. rewrite Hb. eexists. repeat split.
Qed.

Lemma for_panel_returns (chat : StreamingChat) (script panel : json) (k : nat)
    (s : State) (all : list json) (prompt : jsstring) :
  get_prop (Value script) (lit "panels") = Normal (Value (JArray all)) ->
  Part001.imagePrompt host script panel = Normal prompt ->
  exists c s',
    Part001.for_panel host chat script panel k s = (Normal c, s')
    /\ sent s' = sent s ++ [(the_imageChat, prompt)].
Proof.
  intros Hp Hi.
  destruct (imagePrompt_Normal script panel prompt Hi) as (pt & ts & Hpt & Hts).
  destruct (part001_for_await_pure (chat (sent s) prompt) empty_buffers) as [r Hr].
  rewrite (for_panel_unfold chat script panel k s (Value (JArray all))
             (nat_to_string (List.length all)) prompt pt ts r
             Hp eq_refl Hi Hpt Hts Hr).
  cbv zeta.
  destruct r as [b|e]; [|eexists _, _; split; reflexivity].
  destruct (img b) as [image|]; [|eexists _, _; split; reflexivity].
  destruct pt as [|[| | |t| |]]; eexists _, _; split; reflexivity.
Qed.

Lemma for_panels_sent (chat : StreamingChat) (script : json) (panels : list json)
    (k : nat) (s : State) :
  exists more,
    sent (snd (Part001.for_panels host chat script panels k s)) = sent s ++ more.
Proof.
  revert k s; induction panels as [|p panels IH]; intros k s.
  - exists []. cbn. rewrite app_nil_r. reflexivity.
  - rewrite for_panels_cons.
    pose proof (for_panel_turn chat script p (S k) s) as Ht.
    destruct (Part001.for_panel host chat script p (S k) s) as [r s1].
    cbn [fst snd] in Ht. inversion Ht; subst; cbn [snd].
    + exists []. rewrite app_nil_r. assumption.
    + destruct (IH (S k) s1) as [more Hm]. rewrite Hm.
      match goal with E : sent s1 = _ |- _ => rewrite E end.
      rewrite <- app_assoc. eexists. reflexivity.
    + eexists. eassumption.
Qed.

Lemma for_panels_error (chat : StreamingChat) (script : json) (panels : list json)
    (k : nat) (s : State) :
  let s' := snd (Part001.for_panels host chat script panels k s) in
  (error_innerHTML (dom s') = error_innerHTML (dom s)
   /\ error_hidden (dom s') = error_hidden (dom s))
  \/ (error_hidden (dom s') = false
      /\ exists k' shown e,
           error_innerHTML (dom s') = Part001.panel_failed host k' shown e).
Proof.
  revert k s; induction panels as [|p panels IH]; intros k s; cbv zeta.
  - left. split; reflexivity.
  - rewrite for_panels_cons.
    pose proof (for_panel_turn chat script p (S k) s) as Ht.
    destruct (Part001.for_panel host chat script p (S k) s) as [r s1].
    cbn [fst snd] in Ht. inversion Ht; subst; cbn [snd].
    + left. split; assumption.
    + destruct (IH (S k) s1) as [[Ei Eh]|Hf]; [left | right; exact Hf].
      split; congruence.
    + right. split; [assumption|]. eexists _, _, _. eassumption.
Qed.

Lemma for_panels_typed_return (chat : StreamingChat) (script : json)
    (all : list json) (cd : jsstring) (panels : list json) (k : nat) (s : State) :
  get_prop (Value script) (lit "panels") = Normal (Value (JArray all)) ->
  get_prop (Value script) (lit "characterDescription") = Normal (Value (JString cd)) ->
  Forall (fun panel => exists t, get_prop (Value panel) (lit "text")
                                  = Normal (Value (JString t))) panels ->
  exists s', Part001.for_panels host chat script panels k s = (Normal tt, s').
Proof.
  intros Hp Hc H. revert k s. induction H as [|p panels [t Ht] _ IH]; intros k s.
  - eexists. reflexivity.
  - rewrite for_panels_cons.
    destruct (for_panel_returns chat script p (S k) s all _
                Hp (imagePrompt_typed script p cd t Hc Ht)) as (c & s1 & Hrun & _).
    rewrite Hrun. destruct c; [apply IH | eexists; reflexivity].
Qed.

End Pipeline.

(* ================================================================== *)
(** * The script stage and the guard of [generate] *)
(* ================================================================== *)

Section ScriptStage.

Variable host : Host.

Lemma code_points_nonempty (c : jschar) (s : jsstring) : code_points (c :: s) <> [].
Proof.
  cbn [code_points]. destruct s as [|d s]; [discriminate|].
  destruct ((55296 <=? c) && (c <=? 56319) && (56320 <=? d) && (d <=? 57343))%N;
    [destruct (code_points (d :: s))|]; discriminate.
Qed.

(** A run of [generate] that has passed its first guard, in terms of what
    the script request went through and of the guard on the script. *)
Lemma generate_guard (textChat : TextChat) (imageChat : StreamingChat)
    (story : jsstring) (s : State) :
  trim story <> [] ->
  let prompt := Part001.scriptwriterPrompt story in
  let sent1 := sent s ++ [(the_textChat, prompt)] in
  let s2 := {| dom := set_userInput_value []
                        (set_modelOutput [marked_parse host story] (cleared (dom s)));
               sent := sent1 |} in
  Part001.generate host (Some textChat) (Some imageChat) story s =
  match script_of (textChat (sent s) prompt) with
  | inl e =>
      (Normal tt,
       finished {| dom := set_error (Part001.scriptwriting_failed host e) false
                            (cleared (dom s));
                   sent := sent1 |})
  | inr script =>
      if no_panels host script
      then (Normal tt, finished {| dom := cleared (dom s); sent := sent1 |})
      else
        match Part001.iterate (script_panels script) with
        | Throw e => (Throw e, s2)
        | Normal elements =>
            match Part001.for_panels host imageChat script elements 0 s2 with
            | (Throw e, s3) => (Throw e, s3)
            | (Normal _, s3) => (Normal tt, finished s3)
            end
        end
  end.
Proof.
  intros Hs prompt sent1 s2. subst s2.
  rewrite (generate_unfold host textChat imageChat story s Hs). cbv zeta.
  rewrite generateScript_run. cbv zeta. cbn [dom sent].
  fold prompt. fold sent1. unfold script_of.
  destruct (textChat (sent s) prompt) as [[|c t]|e]; try reflexivity.
  destruct (JSON.parse (Part001.clean (c :: t))) as [script|]; [|reflexivity].
  unfold no_panels, script_panels.
  destruct script as [|b|l|st|vs|ms]; cbn [get_prop]; reflexivity.
Qed.

(** The guard lets a value through exactly when it is an object whose
    [panels] member is truthy and has a length other than zero. *)
Lemma no_panels_false (script : json) :
  no_panels host script = false <->
  exists ms panels,
    script = JObject ms
    /\ lookup (lit "panels") ms = Value panels
    /\ truthy host (Value panels) = true
    /\ Part001.length_is_zero host (Value panels) = false.
Proof.
  unfold no_panels, script_panels. split.
  - destruct script as [|b|l|st|vs|ms]; cbn [get_prop truthy negb orb];
      try (rewrite ?orb_true_r; discriminate).
    destruct (lookup (lit "panels") ms) as [|panels] eqn:Hl; [discriminate|].
    intro H. apply orb_false_iff in H. destruct H as [Ht Hz].
    apply negb_false_iff in Ht. exists ms, panels. repeat split; assumption.
  - intros (ms & panels & -> & Hl & Ht & Hz).
    cbn [get_prop truthy negb orb]. rewrite Hl, Ht, Hz. reflexivity.
Qed.

(** What the guard lets through is iterated over at least one element,
    unless it cannot be iterated. *)
Lemma iterate_guarded (script : json) (elements : list json) :
  no_panels host script = false ->
  Part001.iterate (script_panels script) = Normal elements ->
  elements <> [].
Proof.
  intros Hg Hi. apply no_panels_false in Hg.
  destruct Hg as (ms & panels & -> & Hl & Ht & Hz).
  unfold script_panels in Hi. cbn [get_prop] in Hi. rewrite Hl in Hi.
  destruct panels as [|b|l|[|c st]|[|v vs]|ms']; cbn in Hi, Ht, Hz; try discriminate;
    injection Hi as <-.
  - intro H. apply map_eq_nil in H. exact (code_points_nonempty c st H).
  - discriminate.
Qed.

(** Once the guard is passed, the run throws or sends an image request. *)
Lemma guarded_run_goes_on (imageChat : StreamingChat) (script : json)
    (elements : list json) (s2 : State) :
  elements <> [] ->
  let r := Part001.for_panels host imageChat script elements 0 s2 in
  (exists e, fst r = Throw e)
  \/ (exists q more, sent (snd r) = sent s2 ++ q :: more).
Proof.
  intros Hne r. subst r. destruct elements as [|p rest]; [contradiction|].
  rewrite for_panels_cons.
  pose proof (for_panel_turn host imageChat script p 1 s2) as T.
  destruct (Part001.for_panel host imageChat script p 1 s2) as [[[|]|e] s1];
    cbn [fst snd] in T; inversion T; subst.
  - destruct (for_panels_sent host imageChat script rest 1 s1) as [more Hm].
    right. exists (the_imageChat, prompt), more.
    rewrite Hm. match goal with H : sent s1 = _ |- _ => rewrite H end.
    rewrite <- app_assoc. reflexivity.
  - right. exists (the_imageChat, prompt), []. cbn [snd]. assumption.
  - left. exists e. reflexivity.
Qed.

End ScriptStage.

(* ================================================================== *)
(** * The claims *)
(* ================================================================== *)

(** C1. In [index.tsx] and in [part_000] the pairing check runs after
    every single part: a part never throws, it leaves the buffers never
    both filled, and when the accumulated text is non-empty and an image
    is held it appends exactly one slide made of that text and that
    image and resets both buffers, otherwise it changes nothing on the
    page; chunk boundaries are irrelevant (a sequence of chunks is
    processed as the concatenation of their parts); and one chunk with
    the parts text A, image I1, text B, image I2 yields exactly the two
    slides (A, I1) and (B, I2), in that order. *)
Theorem pairing_fires_after_every_part :
  forall host : Host,
  (forall (p : Part) (b : Buffers) (s : State),
      exists b' s',
        Index.for_part host p b s = (Normal b', s')
        /\ Part000.for_part host p b s = (Normal b', s')
        /\ settled b'
        /\ match text (Index.absorb p b), img (Index.absorb p b) with
           | _ :: _, Some image =>
               slideshow (dom s') =
                 slideshow (dom s)
                 ++ [ {| slide_image := image;
                         slide_caption := marked_parse host (text (Index.absorb p b)) |} ]
               /\ b' = empty_buffers
           | _, _ => s' = s /\ b' = Index.absorb p b
           end)
  /\ (forall (pss : list (list Part)) (b : Buffers) (s : State),
        for_of (Index.for_chunk host) (List.map chunk_of pss) b s
        = for_of (Index.for_part host) (List.concat pss) b s
        /\ for_of (Part000.for_chunk host) (List.map chunk_of pss) b s
           = for_of (Part000.for_part host) (List.concat pss) b s)
  /\ (forall (chat : StreamingChat) (message : jsstring) (s : State),
        chat (sent s) (message ++ Index.additionalInstructions) = stream_of [two_pairs] ->
        slideshow (dom (snd (Index.generate host chat message s)))
        = [render host (lit "A", image_of (lit "I1"));
           render host (lit "B", image_of (lit "I2"))])
  /\ (forall (chat : StreamingChat) (message : jsstring) (s : State),
        trim message <> [] ->
        chat (sent s) (message ++ Part000.additionalInstructions) = stream_of [two_pairs] ->
        slideshow (dom (snd (Part000.generate host (Some chat) message s)))
        = [render host (lit "A", image_of (lit "I1"));
           render host (lit "B", image_of (lit "I2"))]).
Proof.
  intros host.
  split; [|split; [|split]].
  - intros p b s.
    change (Part000.for_part host p b s) with (Index.for_part host p b s).
    rewrite for_part_run.
    destruct (text (Index.absorb p b)) as [|c t] eqn:Et.
    + exists (Index.absorb p b), s. repeat split; try reflexivity. left; exact Et.
    + destruct (img (Index.absorb p b)) as [image|] eqn:Ei.
      * exists empty_buffers, (shown host (c :: t, image) s).
        repeat split; try reflexivity. left; reflexivity.
      * exists (Index.absorb p b), s. repeat split; try reflexivity. right; exact Ei.
  - intros pss b s. split; [apply for_chunks_concat|].
    change (Part000.for_chunk host) with (Index.for_chunk host).
    change (Part000.for_part host) with (Index.for_part host).
    apply for_chunks_concat.
  - intros chat message s H.
    rewrite (index_generate_slideshow host chat [two_pairs] message s H). reflexivity.
  - intros chat message s Hm H.
    rewrite (part000_generate_slideshow host chat [two_pairs] message s Hm H). reflexivity.
Qed.

(** C1, witness: the example of the specification run through
    [part_000]. *)
Lemma pairing_fires_after_every_part_witness :
  slideshow (dom (snd (Part000.generate sample_host (Some (always [two_pairs]))
                         (lit "A cat naps.") fresh_page)))
  = [render sample_host (lit "A", image_of (lit "I1"));
     render sample_host (lit "B", image_of (lit "I2"))].
Proof.
  apply (proj2 (proj2 (proj2 (pairing_fires_after_every_part sample_host)))).
  - vm_compute. discriminate.
  - reflexivity.
Defined.

(** C2. In the two-stage pipeline, when the panels before panel i have
    all been rendered and the stream of panel i ends without an image
    having been held, the loop stops there: the error region is shown with
    a message that names the panel's number and its text, the slideshow is
    what it was after the earlier panels (one slide for each of them), and
    the last request sent is the one of panel i, so that no later panel is
    attempted. In the run of a three-panel script whose second stream has
    no image, exactly one slide is rendered, two image requests are sent
    and the third panel is never requested. *)
Theorem failed_panel_halts_the_loop :
  forall host : Host,
  (forall (chat : StreamingChat) (script : json) (pre : list json) (p : json)
          (post : list json) (k : nat) (s s1 : State)
          (all : list json) (cd t : jsstring) (b : Buffers),
      get_prop (Value script) (lit "panels") = Normal (Value (JArray all)) ->
      get_prop (Value script) (lit "characterDescription") = Normal (Value (JString cd)) ->
      get_prop (Value p) (lit "text") = Normal (Value (JString t)) ->
      rendered host chat script pre k s s1 ->
      (forall st,
          for_await Part001.for_chunk
            (chat (sent s1)
                  (t ++ nl ++ nl ++ lit "**Character:** " ++ cd
                   ++ nl ++ nl ++ lit "**Style:** " ++ Part001.imageStylePrompt))
            empty_buffers st
          = (Normal b, st)) ->
      img b = None ->
      exists s2,
        Part001.for_panels host chat script (pre ++ p :: post) k s = (Normal tt, s2)
        /\ slideshow (dom s2) = slideshow (dom s1)
        /\ List.length (slideshow (dom s2))
           = List.length (slideshow (dom s)) + List.length pre
        /\ sent s2
           = sent s1
             ++ [(the_imageChat,
                  t ++ nl ++ nl ++ lit "**Character:** " ++ cd
                  ++ nl ++ nl ++ lit "**Style:** " ++ Part001.imageStylePrompt)]
        /\ error_hidden (dom s2) = false
        /\ error_innerHTML (dom s2)
           = Part001.panel_failed host (k + List.length pre + 1) t Part001.no_image
        /\ includes (nat_to_string (k + List.length pre + 1)) (error_innerHTML (dom s2))
        /\ includes t (error_innerHTML (dom s2)))
  /\ (let run := Part001.generate host (Some (answers three_panels))
                   (Some first_image_only) (lit "A cat naps.") fresh_page in
      fst run = Normal tt
      /\ slideshow (dom (snd run)) = [render host (lit "one", image_of (lit "I1"))]
      /\ List.map fst (sent (snd run)) = [the_textChat; the_imageChat; the_imageChat]
      /\ List.map snd (List.tl (sent (snd run)))
         = [lit "one" ++ nl ++ nl ++ lit "**Character:** a grey cat"
            ++ nl ++ nl ++ lit "**Style:** " ++ Part001.imageStylePrompt;
            lit "two" ++ nl ++ nl ++ lit "**Character:** a grey cat"
            ++ nl ++ nl ++ lit "**Style:** " ++ Part001.imageStylePrompt]
      /\ error_hidden (dom (snd run)) = false
      /\ error_innerHTML (dom (snd run))
         = Part001.panel_failed host 2 (lit "two") Part001.no_image
      /\ userInput_disabled (dom (snd run)) = false).
Proof.
  intros host.
  split.
  - intros chat script pre p post k s s1 all cd t b Hp Hc Ht Hpre Hr Hb.
    pose proof (imagePrompt_typed host script p cd t Hc Ht) as Hi.
    destruct (for_panel_no_image host chat script p (S (k + List.length pre)) s1 all _ t b
                Hp Hi Ht Hr Hb) as (s2 & Hrun & Hslides & Hsent & Hhid & Herr).
    exists s2.
    rewrite (for_panels_after_rendered host chat script pre (p :: post) k s s1 Hpre).
    rewrite for_panels_cons, Hrun.
    replace (k + List.length pre + 1) with (S (k + List.length pre)) by lia.
    repeat split; try assumption.
    + rewrite Hslides. apply (rendered_slides host chat script pre k s s1 Hpre).
    + rewrite Herr. apply panel_failed_names.
    + rewrite Herr. apply panel_failed_names.
  - vm_compute. repeat split.
Qed.

(** C2, witness: three panels, the second stream without an image. *)
Lemma failed_panel_halts_the_loop_witness :
  exists s2,
    Part001.for_panels sample_host first_image_only three_panels_script
      ([panel_value (lit "one")] ++ panel_value (lit "two") :: [panel_value (lit "three")])
      0 fresh_page
    = (Normal tt, s2)
    /\ List.length (slideshow (dom s2)) = 1
    /\ error_hidden (dom s2) = false
    /\ includes (lit "two") (error_innerHTML (dom s2)).
Proof.
  destruct (proj1 (failed_panel_halts_the_loop sample_host)
              first_image_only three_panels_script
              [panel_value (lit "one")] (panel_value (lit "two"))
              [panel_value (lit "three")] 0 fresh_page
              (snd (Part001.for_panel sample_host first_image_only three_panels_script
                      (panel_value (lit "one")) 1 fresh_page))
              [panel_value (lit "one"); panel_value (lit "two"); panel_value (lit "three")]
              (lit "a grey cat") (lit "two")
              {| text := lit "I cannot draw this."; img := None |})
    as (s2 & Hrun & _ & Hlen & _ & Hhid & _ & _ & Hinc).
  - reflexivity.
  - reflexivity.
  - reflexivity.
  - simpl. eexists. split; reflexivity.
  - intros st. reflexivity.
  - reflexivity.
  - exists s2. repeat split; assumption.
Defined.




(** Replies that parse and that the guard stops without a message: a list,
    [null], a number, an object whose [panels] is [null], and an object
    whose [panels] is an object of length zero. *)
Example guard_stops_silently :
  Forall (fun reply =>
            let run := Part001.generate sample_host (Some (answers reply))
                         (Some first_image_only) (lit "A cat naps.") fresh_page in
            (exists script,
               JSON.parse (Part001.clean reply) = Some script
               /\ no_panels sample_host script = true)
            /\ fst run = Normal tt
            /\ slideshow (dom (snd run)) = []
            /\ sent (snd run)
               = [(the_textChat, Part001.scriptwriterPrompt (lit "A cat naps."))]
            /\ userInput_disabled (dom (snd run)) = false
            /\ error_hidden (dom (snd run)) = true
            /\ error_innerHTML (dom (snd run)) = [])
         [lit "[]"; lit "null"; lit "5";
          lit "{" ++ dquote ++ lit "panels" ++ dquote ++ lit ":null}";
          lit "{" ++ dquote ++ lit "panels" ++ dquote ++ lit ":{" ++ dquote
          ++ lit "length" ++ dquote ++ lit ":0}}"].
Proof.
  repeat constructor; try (vm_compute; reflexivity);
    (eexists; split; vm_compute; reflexivity).
Qed.

(** C4, as amended. For every stream of fragments that ends normally: in
    [part_000] the slideshow is exactly the slides emitted by the eager
    pairing check, and whatever is left in the buffers at the end of the
    stream is discarded; in [index.tsx] leftover text is discarded as
    well, but an image still held at the end of the stream is shown as
    one more slide, whose caption is rendered from the empty string. *)
Theorem leftovers_at_end_of_stream :
  forall host : Host,
  forall (chat : StreamingChat) (fss : list (list Fragment))
         (message : jsstring) (s : State),
    (trim message <> [] ->
     chat (sent s) (message ++ Part000.additionalInstructions) = stream_of fss ->
     slideshow (dom (snd (Part000.generate host (Some chat) message s)))
     = List.map (render host) (fst (assemble empty_buffers (List.concat fss))))
    /\ (chat (sent s) (message ++ Index.additionalInstructions) = stream_of fss ->
        slideshow (dom (snd (Index.generate host chat message s)))
        = List.map (render host) (fst (assemble empty_buffers (List.concat fss)))
          ++ match img (snd (assemble empty_buffers (List.concat fss))) with
             | Some image => [render host ([], image)]
             | None => []
             end).
Proof.
  intros host.
  intros chat fss message s. split.
  - intros Hm H. rewrite (part000_generate_slideshow host chat fss message s Hm H).
    cbn [snd dom sent]. cbv zeta.
    change (slideshow (userInput_focus ?d)) with (slideshow d).
    cbn [slideshow userInput_focus set_userInput_disabled].
    rewrite shown_all_slideshow. reflexivity.
  - intros H. rewrite (index_generate_slideshow host chat fss message s H).
    cbn [snd dom sent]. cbv zeta.
    pose proof (assemble_settled (List.concat fss) empty_buffers
                  (or_introl eq_refl)) as Hs.
    destruct (img (snd (assemble empty_buffers (List.concat fss)))) as [image|] eqn:Ei.
    + destruct Hs as [Ht|Hi]; [|rewrite Hi in Ei; discriminate].
      rewrite Ht. cbn [slideshow userInput_focus set_userInput_disabled shown dom
                       set_slideshow_hidden set_slideshow].
      rewrite shown_all_slideshow. reflexivity.
    + cbn [slideshow userInput_focus set_userInput_disabled].
      rewrite shown_all_slideshow, app_nil_r. reflexivity.
Qed.

(** C4, counterexample: a stream made of one image fragment. The pairing
    check emits nothing, and [index.tsx] still shows a slide. *)
Lemma index_shows_leftover_image :
  fst (assemble empty_buffers [image_fragment (lit "I1")]) = []
  /\ slideshow (dom (snd (Index.generate sample_host (always [[image_fragment (lit "I1")]])
                            (lit "A cat naps.") fresh_page)))
     = [render sample_host ([], image_of (lit "I1"))].
Proof. vm_compute. split; reflexivity. Qed.

(** C4, witness: a lone image in [part_000], a lone text in
    [index.tsx]. *)
Lemma leftovers_at_end_of_stream_witness :
  slideshow (dom (snd (Part000.generate sample_host
                         (Some (always [[image_fragment (lit "I1")]]))
                         (lit "A cat naps.") fresh_page)))
  = []
  /\ slideshow (dom (snd (Index.generate sample_host
                            (always [[text_fragment (lit "A")]])
                            (lit "A cat naps.") fresh_page)))
     = [].
Proof.
  split.
  - apply (proj1 (leftovers_at_end_of_stream sample_host
                    (always [[image_fragment (lit "I1")]])
                    [[image_fragment (lit "I1")]] (lit "A cat naps.") fresh_page)).
    + vm_compute. discriminate.
    + reflexivity.
  - apply (proj2 (leftovers_at_end_of_stream sample_host
                    (always [[text_fragment (lit "A")]])
                    [[text_fragment (lit "A")]] (lit "A cat naps.") fresh_page)).
    reflexivity.
Defined.

(** C5. For every valid JSON text [j], the post-processing of the script
    stage applied to [j] wrapped in a code fence (the opening fence with its
    [json] tag, any white space, [j], JSON white space, the closing fence)
    gives a text that parses to the same value as [j] itself, a text
    without fences is left untouched, and [generateScript] returns that
    value for a fenced reply of the model, without reporting an error. *)
Theorem fenced_script_is_accepted :
  forall (host : Host) (textChat : TextChat) (story : jsstring) (s : State)
         (j ws1 ws2 : jsstring) (v : json),
    JSON.parse j = Some v ->
    Forall (fun c => is_js_space c = true) ws1 ->
    Forall (fun c => is_json_ws c = true) ws2 ->
    JSON.parse (Part001.clean (fence ++ lit "json" ++ ws1 ++ j ++ ws2 ++ fence))
    = JSON.parse j
    /\ Part001.clean j = j
    /\ (textChat (sent s) (Part001.scriptwriterPrompt story)
        = Normal (fence ++ lit "json" ++ ws1 ++ j ++ ws2 ++ fence) ->
        Part001.generateScript host (Some textChat) story s
        = (Normal v,
           {| dom := dom s;
              sent := sent s ++ [(the_textChat, Part001.scriptwriterPrompt story)] |})).
Proof.
  intros host textChat story s j ws1 ws2 v Hj H1 H2.
  destruct (fenced_script_parses_like_bare j ws1 ws2 v Hj H1 H2) as [Hf Hc].
  split; [exact Hf|]. split; [exact Hc|].
  intros Hr. rewrite generateScript_run. cbv zeta. rewrite Hr.
  change (fence ++ lit "json" ++ ws1 ++ j ++ ws2 ++ fence)
    with (backtick :: ([backtick; backtick] ++ lit "json" ++ ws1 ++ j ++ ws2 ++ fence)).
  cbv iota.
  change (backtick :: ([backtick; backtick] ++ lit "json" ++ ws1 ++ j ++ ws2 ++ fence))
    with (fence ++ lit "json" ++ ws1 ++ j ++ ws2 ++ fence).
  rewrite Hf, Hj. reflexivity.
Qed.

(** C5, witness: the three-panel script between fences. *)
Lemma fenced_script_is_accepted_witness :
  JSON.parse (Part001.clean (fence ++ lit "json" ++ nl ++ three_panels ++ nl ++ fence))
  = JSON.parse three_panels
  /\ JSON.parse three_panels = Some three_panels_script.
Proof.
  split; [|reflexivity].
  apply (fenced_script_is_accepted sample_host (answers []) [] fresh_page
           three_panels nl nl three_panels_script).
  - reflexivity.
  - repeat constructor.
  - repeat constructor.
Defined.

(** C6, as amended. In [part_000] and in [part_001], for every story that
    is empty or made of white space only, [generate] returns at once: the
    page is unchanged and no request of any kind has been sent.
    ([index.tsx] has no such guard.) *)
Theorem blank_story_sends_nothing :
  forall (host : Host) (chat : option StreamingChat)
         (textChat : option TextChat) (imageChat : option StreamingChat)
         (story : jsstring) (s : State),
    Forall (fun c => is_js_space c = true) story ->
    Part000.generate host chat story s = (Normal tt, s)
    /\ Part001.generate host textChat imageChat story s = (Normal tt, s).
Proof.
  intros host chat textChat imageChat story s H.
  unfold Part000.generate, Part001.generate. rewrite (trim_blank story H).
  destruct chat, textChat, imageChat; split; reflexivity.
Qed.

(** C6, counterexample: [index.tsx] sends a story of three spaces to the
    model. *)
Lemma index_sends_blank_story :
  trim (lit "   ") = []
  /\ sent (snd (Index.generate sample_host (always []) (lit "   ") fresh_page))
     = [(the_chat, lit "   " ++ Index.additionalInstructions)].
Proof. vm_compute. split; reflexivity. Qed.

(** C6, witness: a story of three spaces. *)
Lemma blank_story_sends_nothing_witness :
  Part000.generate sample_host (Some (always [two_pairs])) (lit "   ") fresh_page
  = (Normal tt, fresh_page)
  /\ Part001.generate sample_host (Some (answers three_panels)) (Some first_image_only)
       (lit "   ") fresh_page
     = (Normal tt, fresh_page).
Proof.
  apply (blank_story_sends_nothing sample_host (Some (always [two_pairs]))
           (Some (answers three_panels)) (Some first_image_only) (lit "   ") fresh_page).
  repeat constructor.
Defined.

(** C7. Within one stream a text fragment is appended to the accumulator
    and an image fragment replaces the held image, in [index.tsx] as in
    [part_001]; in [index.tsx], after any sequence of fragments, the
    accumulator is the concatenation of the text fragments received since
    the last emitted slide and the held image is the most recent image
    fragment received since then; in [part_001], where nothing is emitted
    inside a stream, they are the concatenation of all text fragments and
    the most recent of all image fragments. *)
Theorem text_is_appended_and_last_image_wins :
  forall host : Host,
  (forall (t : jsstring) (b : Buffers),
      Index.absorb (part_of (text_fragment t)) b = {| text := text b ++ t; img := img b |}
      /\ Part001.absorb (part_of (text_fragment t)) b = {| text := text b ++ t; img := img b |})
  /\ (forall (d : jsstring) (b : Buffers),
        Index.absorb (part_of (image_fragment d)) b
        = {| text := text b; img := Some (image_of d) |}
        /\ Part001.absorb (part_of (image_fragment d)) b
           = {| text := text b; img := Some (image_of d) |})
  /\ (forall (fs : list Fragment) (s : State),
        fst (for_of (Index.for_part host) (List.map part_of fs) empty_buffers s)
        = Normal {| text := texts_of (since_last_slide [] fs);
                    img := last_image (since_last_slide [] fs) |})
  /\ (forall (fs : list Fragment) (b : Buffers) (s : State),
        Part001.for_chunk (chunk_of (List.map part_of fs)) b s
        = (Normal {| text := text b ++ texts_of fs;
                     img := match last_image fs with
                            | Some image => Some image
                            | None => img b
                            end |}, s)).
Proof.
  intros host.
  split; [|split; [|split]].
  - intros t b. change (Part001.absorb) with (Index.absorb).
    split; apply (absorb_part_of (text_fragment t) b).
  - intros d b. split; reflexivity.
  - intros fs s. rewrite for_parts_assemble. cbn [fst].
    rewrite <- (assemble_pending fs []). reflexivity.
  - intros fs b s. apply part001_for_chunk_fragments.
Qed.

(** C8. The claim does not hold of [part_001]: the loop over the panels
    builds the image prompt from [panel.text] before its [try] is entered,
    and [generate] has no [try] of its own. The text model answers
    [{"panels":[null]}] to the story [A cat naps.]: the reply parses, the
    guard lets it through, reading [text] of [null] throws a [TypeError]
    that leaves [generate], and the run ends with the input control still
    disabled, the status line still showing and no error message. A reply
    whose [panels] is the number [5] does the same where the loop starts to
    iterate. The sibling paths do what the claim says: an image request
    that is rejected inside the [try] of the same loop is reported in a
    panel message that includes the error and the input is re-enabled, and
    in [index.tsx], whose [try] spans the whole run, a rejected request is
    reported and the input re-enabled. *)
Theorem null_panel_leaves_input_disabled :
  let run := Part001.generate sample_host (Some (answers null_panel_reply))
               (Some first_image_only) (lit "A cat naps.") fresh_page in
  let panels_5 := lit "{" ++ dquote ++ lit "panels" ++ dquote ++ lit ":5}" in
  let run_5 := Part001.generate sample_host (Some (answers panels_5))
                 (Some first_image_only) (lit "A cat naps.") fresh_page in
  let caught := Part001.generate sample_host (Some (answers three_panels))
                  (Some (rejects (Error (lit "quota exceeded"))))
                  (lit "A cat naps.") fresh_page in
  let caught_index := Index.generate sample_host (rejects (Error (lit "quota exceeded")))
                        (lit "A cat naps.") fresh_page in
  JSON.parse (Part001.clean null_panel_reply) = Some (JObject [(lit "panels", JArray [JNull])])
  /\ fst run = Throw (TypeError (read_of_null (lit "text")))
  /\ userInput_disabled (dom (snd run)) = true
  /\ error_hidden (dom (snd run)) = true
  /\ error_innerHTML (dom (snd run)) = []
  /\ status_hidden (dom (snd run)) = false
  /\ sent (snd run) = [(the_textChat, Part001.scriptwriterPrompt (lit "A cat naps."))]
  /\ fst run_5 = Throw (TypeError not_iterable)
  /\ userInput_disabled (dom (snd run_5)) = true
  /\ error_hidden (dom (snd run_5)) = true
  /\ fst caught = Normal tt
  /\ userInput_disabled (dom (snd caught)) = false
  /\ error_hidden (dom (snd caught)) = false
  /\ error_innerHTML (dom (snd caught))
     = Part001.panel_failed sample_host 1 (lit "one") (Error (lit "quota exceeded"))
  /\ fst caught_index = Normal tt
  /\ userInput_disabled (dom (snd caught_index)) = false
  /\ error_hidden (dom (snd caught_index)) = false
  /\ error_innerHTML (dom (snd caught_index))
     = lit "Something went wrong: Error: quota exceeded".
Proof. vm_compute. repeat split. Qed.

(** C9. In the two-stage pipeline the slides added by the loop over the
    panels correspond, in order, to the first panels of the script, and the
    caption of each is [marked.parse] of that panel's [text], a string of
    the script; and the slide rendered for a panel is determined by the
    panel's text and by the last image fragment of its stream: the text
    fragments of the stream are accumulated and never shown. *)
Theorem captions_come_from_the_script :
  forall host : Host,
  (forall (chat : StreamingChat) (script : json) (panels : list json)
          (k : nat) (s : State),
      exists slides,
        slideshow (dom (snd (Part001.for_panels host chat script panels k s)))
        = slideshow (dom s) ++ slides
        /\ Forall2 (fun panel slide =>
                      exists t,
                        get_prop (Value panel) (lit "text") = Normal (Value (JString t))
                        /\ slide_caption slide = marked_parse host t)
                   (firstn (List.length slides) panels) slides)
  /\ (forall (chat : StreamingChat) (script panel : json) (k : nat) (s : State)
            (all : list json) (prompt t : jsstring) (fss : list (list Fragment)),
        get_prop (Value script) (lit "panels") = Normal (Value (JArray all)) ->
        Part001.imagePrompt host script panel = Normal prompt ->
        get_prop (Value panel) (lit "text") = Normal (Value (JString t)) ->
        chat (sent s) prompt = stream_of fss ->
        slideshow (dom (snd (Part001.for_panel host chat script panel k s)))
        = slideshow (dom s)
          ++ match last_image (List.concat fss) with
             | Some image => [ {| slide_image := image;
                                  slide_caption := marked_parse host t |} ]
             | None => []
             end).
Proof.
  intros host.
  split.
  - intros chat script panels. induction panels as [|p panels IH]; intros k s.
    + exists []. cbn. rewrite app_nil_r. split; [reflexivity | constructor].
    + rewrite for_panels_cons.
      pose proof (for_panel_turn host chat script p (S k) s) as Ht.
      destruct (Part001.for_panel host chat script p (S k) s) as [r s1].
      cbn [fst snd] in Ht. inversion Ht; subst.
      * exists []. cbn [snd]. rewrite app_nil_r. split; [assumption | constructor].
      * destruct (IH (S k) s1) as (slides & Hs & Hf).
        exists ({| slide_image := image; slide_caption := marked_parse host t |} :: slides).
        split.
        -- rewrite Hs.
           match goal with E : slideshow (dom s1) = _ |- _ => rewrite E end.
           rewrite <- app_assoc. reflexivity.
        -- cbn [List.length firstn]. constructor; [|exact Hf].
           exists t. split; [assumption | reflexivity].
      * exists []. cbn [snd]. rewrite app_nil_r. split; [assumption | constructor].
  - intros chat script panel k s all prompt t fss Hp Hi Ht Hc.
    rewrite (for_panel_unfold host chat script panel k s (Value (JArray all))
               (nat_to_string (List.length all)) prompt (Value (JString t)) t
               (Normal {| text := texts_of (List.concat fss);
                          img := last_image (List.concat fss) |})
               Hp eq_refl Hi Ht eq_refl).
    + cbv zeta. cbn [img].
      destruct (last_image (List.concat fss)) as [image|]; cbn.
      * reflexivity.
      * rewrite app_nil_r. reflexivity.
    + intros st. rewrite Hc, part001_stream_of. cbn.
      destruct (last_image (List.concat fss)); reflexivity.
Qed.

(** C9, witness: the model streams a caption of its own with the
    image. *)
Lemma captions_come_from_the_script_witness :
  slideshow (dom (snd (Part001.for_panel sample_host
                         (always [[text_fragment (lit "A caption of the model's own.");
                                   image_fragment (lit "I1")]])
                         three_panels_script (panel_value (lit "one")) 1 fresh_page)))
  = [ {| slide_image := image_of (lit "I1");
         slide_caption := marked_parse sample_host (lit "one") |} ].
Proof.
  apply (proj2 (captions_come_from_the_script sample_host)
           (always [[text_fragment (lit "A caption of the model's own.");
                     image_fragment (lit "I1")]])
           three_panels_script (panel_value (lit "one")) 1 fresh_page
           [panel_value (lit "one"); panel_value (lit "two"); panel_value (lit "three")]
           (lit "one" ++ nl ++ nl ++ lit "**Character:** a grey cat"
            ++ nl ++ nl ++ lit "**Style:** " ++ Part001.imageStylePrompt)
           (lit "one")
           [[text_fragment (lit "A caption of the model's own.");
             image_fragment (lit "I1")]]);
    reflexivity.
Defined.

(** C10, as amended. [parseError] is total and never throws. When the
    pattern matches (leftmost match, the group running up to the last
    closing brace of the line) and the group parses as a JSON object with a
    [message] member, it returns that member; when the pattern does not
    match, or the group is not valid JSON, or it parses to [null], the
    exception raised inside is caught and the input is returned unchanged;
    when the group parses to any other value without a [message] property,
    no exception is raised and the result is [undefined], not the input.
    The group is what the pattern says: [exec_error_group] finds a match
    exactly when the string contains the opening, a run free of line
    terminators and a closing brace. *)
Theorem parseError_never_throws :
  forall error : jsstring,
    (exists v, Index.parseError error = Normal v)
    /\ (forall g ms m,
          exec_error_group error = Some g ->
          JSON.parse g = Some (JObject ms) ->
          lookup (lit "message") ms = Value m ->
          Index.parseError error = Normal (Value m))
    /\ (exec_error_group error = None ->
        Index.parseError error = Normal (Value (JString error)))
    /\ (forall g,
          exec_error_group error = Some g ->
          JSON.parse g = None \/ JSON.parse g = Some JNull ->
          Index.parseError error = Normal (Value (JString error)))
    /\ (forall g err,
          exec_error_group error = Some g ->
          JSON.parse g = Some err ->
          get_prop (Value err) (lit "message") = Normal Undefined ->
          Index.parseError error = Normal Undefined)
    /\ (forall g,
          exec_error_group error = Some g ->
          exists pre post : jsstring,
            error = pre ++ error_key ++ g ++ 125%N :: post /\ single_line g)
    /\ (exec_error_group error = None ->
        forall pre g post : jsstring,
          error = pre ++ error_key ++ g ++ 125%N :: post -> ~ single_line g).
Proof.
  intros error. unfold Index.parseError. repeat split.
  - destruct (exec_error_group error) as [g|]; [|eexists; reflexivity].
    destruct (JSON.parse g) as [err|]; [|eexists; reflexivity].
    destruct (get_prop (Value err) (lit "message")); eexists; reflexivity.
  - intros g ms m -> -> H. cbn [get_prop]. rewrite H. reflexivity.
  - intros ->. reflexivity.
  - intros g -> [-> | ->]; reflexivity.
  - intros g err -> -> ->. reflexivity.
  - intros g H. apply exec_error_group_Some, H.
  - intros H pre g post E Hg. exact (exec_error_group_None error H pre g post E Hg).
Qed.

(** C10, counterexample: the payload is an empty object; [parseError]
    returns [undefined]. *)
Lemma parseError_message_missing :
  exec_error_group bare_error = Some (lit "{}")
  /\ JSON.parse (lit "{}") = Some (JObject [])
  /\ Index.parseError bare_error = Normal Undefined
  /\ Index.parseError bare_error <> Normal (Value (JString bare_error)).
Proof. vm_compute. repeat split. discriminate. Qed.

(** C10, witness: a payload with a message. *)
Lemma parseError_never_throws_witness :
  Index.parseError quota_error = Normal (Value (JString (lit "Quota exceeded"))).
Proof.
  apply (proj1 (proj2 (parseError_never_throws quota_error))
           (lit "{" ++ member (lit "message") (lit "Quota exceeded") ++ lit "}")
           [(lit "message", JString (lit "Quota exceeded"))]
           (JString (lit "Quota exceeded")));
    reflexivity.
Defined.

(* ================================================================== *)
(** * Further properties: the stream loops of [index.tsx] and [part_000] *)
(* ================================================================== *)

Lemma shown_all_app (h : Host) (l1 l2 : list (jsstring * HTMLImageElement)) (s : State) :
  shown_all h l2 (shown_all h l1 s) = shown_all h (l1 ++ l2) s.
Proof. unfold shown_all. rewrite fold_left_app. reflexivity. Qed.

Lemma shown_all_cons (h : Host) (p : jsstring * HTMLImageElement)
    (l : list (jsstring * HTMLImageElement)) (s : State) :
  shown_all h l (shown h p s) = shown_all h (p :: l) s.
Proof. reflexivity. Qed.

Lemma shown_all_sent (h : Host) (l : list (jsstring * HTMLImageElement)) (s : State) :
  sent (shown_all h l s) = sent s.
Proof.
  revert s; induction l as [|p l IH]; intro s; [reflexivity|].
  rewrite <- shown_all_cons, IH. reflexivity.
Qed.

Lemma absorb_cases (p : Part) (b : Buffers) :
  (exists t, carried_text p = Some t /\ t <> []
             /\ Index.absorb p b = {| text := text b ++ t; img := img b |})
  \/ (exists data, carried_text p = None /\ part_inlineData p = Some data
                   /\ Index.absorb p b
                      = {| text := text b; img := Some {| src := data_url data |} |})
  \/ (carried_text p = None /\ part_inlineData p = None /\ Index.absorb p b = b).
Proof.
  unfold Index.absorb.
  destruct (carried_text p) as [t|] eqn:Ht.
  - left. exists t. repeat split.
    unfold carried_text in Ht. destruct (part_text p) as [[|c u]|]; try discriminate.
    injection Ht as <-. discriminate.
  - destruct (part_inlineData p) as [data|].
    + right; left. exists data. repeat split.
    + right; right. repeat split.
Qed.

Lemma for_parts_cons (host : Host) (p : Part) (ps : list Part) (b : Buffers) (s : State) :
  for_of (Index.for_part host) (p :: ps) b s =
  match text (Index.absorb p b), img (Index.absorb p b) with
  | c :: t, Some image =>
      for_of (Index.for_part host) ps empty_buffers (shown host (c :: t, image) s)
  | _, _ => for_of (Index.for_part host) ps (Index.absorb p b) s
  end.
Proof.
  cbn [for_of]. unfold bind. rewrite for_part_run.
  destruct (text (Index.absorb p b)); [reflexivity|].
  destruct (img (Index.absorb p b)); reflexivity.
Qed.

Lemma parts_partition (host : Host) (ps : list Part) :
  forall (b : Buffers) (s : State),
  exists pairs b',
    for_of (Index.for_part host) ps b s = (Normal b', shown_all host pairs s)
    /\ List.concat (List.map fst pairs) ++ text b' = text b ++ all_text ps
    /\ Forall (fun p => fst p <> []) pairs
    /\ incl (List.map snd pairs ++ held (img b')) (held (img b) ++ all_images ps)
    /\ List.length pairs + List.length (held (img b'))
       <= List.length (held (img b)) + List.length (all_images ps)
    /\ (settled b -> settled b').
Proof.
  induction ps as [|p ps IH]; intros b s.
  - exists [], b. cbn [for_of ret shown_all fold_left List.map List.concat app all_text
                      all_images flat_map List.length].
    rewrite !app_nil_r. repeat split; auto.
    + apply incl_refl.
    + lia.
  - rewrite for_parts_cons.
    assert (Hstep :
      forall b1, Index.absorb p b = b1 ->
        forall ta ia, text b1 = text b ++ ta -> all_text (p :: ps) = ta ++ all_text ps ->
        incl (held (img b1)) (held (img b) ++ ia) -> 
        List.length (held (img b1)) <= List.length (held (img b)) + List.length ia ->
        all_images (p :: ps) = ia ++ all_images ps ->
        exists pairs b',
          match text b1, img b1 with
          | c :: t, Some image =>
              for_of (Index.for_part host) ps empty_buffers (shown host (c :: t, image) s)
          | _, _ => for_of (Index.for_part host) ps b1 s
          end = (Normal b', shown_all host pairs s)
          /\ List.concat (List.map fst pairs) ++ text b' = text b ++ all_text (p :: ps)
          /\ Forall (fun p => fst p <> []) pairs
          /\ incl (List.map snd pairs ++ held (img b')) (held (img b) ++ all_images (p :: ps))
          /\ List.length pairs + List.length (held (img b'))
             <= List.length (held (img b)) + List.length (all_images (p :: ps))
          /\ (settled b -> settled b')).
    { intros b1 _ ta ia Ht Hat Hin Hlen Hai. rewrite Hat, Hai.
      destruct (text b1) as [|c t] eqn:Htb.
      - destruct (IH b1 s) as (pairs & b' & Hr & Hc & Hne & Hi & Hl & Hs).
        exists pairs, b'. rewrite Hr. repeat split; auto.
        + rewrite Hc, Htb, app_assoc, <- Ht. reflexivity.
        + intros x Hx. apply Hi in Hx. apply in_app_or in Hx. rewrite app_assoc.
          apply in_or_app. destruct Hx as [Hx|Hx]; [left; apply Hin, Hx|right; exact Hx].
        + rewrite length_app. lia.
        + intros _. apply Hs. left. exact Htb.
      - destruct (img b1) as [image|] eqn:Him.
        + destruct (IH empty_buffers (shown host (c :: t, image) s))
            as (pairs & b' & Hr & Hc & Hne & Hi & Hl & Hs).
          exists ((c :: t, image) :: pairs), b'. rewrite Hr, shown_all_cons.
          cbn [text img empty_buffers held List.length] in *.
          repeat split.
          * cbn [List.map fst List.concat]. rewrite <- app_assoc, Hc.
            rewrite (app_assoc (text b)), <- Ht. reflexivity.
          * constructor; [discriminate|exact Hne].
          * cbn [List.map snd app]. intros x [Hx|Hx].
            -- subst x. rewrite app_assoc. apply in_or_app. left. apply Hin. left. reflexivity.
            -- rewrite app_assoc. apply in_or_app. right. apply Hi. exact Hx.
          * rewrite length_app. lia.
          * intros _. apply Hs. left. reflexivity.
        + destruct (IH b1 s) as (pairs & b' & Hr & Hc & Hne & Hi & Hl & Hs).
          exists pairs, b'. rewrite Hr. rewrite Him in Hi, Hl.
          repeat split; auto.
          * rewrite Hc, Htb, app_assoc, <- Ht. reflexivity.
          * intros x Hx. apply Hi in Hx. cbn [held app] in Hx.
            rewrite app_assoc. apply in_or_app. right. exact Hx.
          * rewrite length_app. cbn [held List.length] in *. lia.
          * intros _. apply Hs. right. exact Him. }
    destruct (absorb_cases p b) as [(t & Hc & Hne & Ha)|[(data & Hc & Hd & Ha)|(Hc & Hd & Ha)]].
    + rewrite Ha. apply (Hstep _ Ha t []); cbn [text img all_text all_images flat_map];
        rewrite ?Hc; cbn [app]; auto.
      * rewrite app_nil_r. apply incl_refl.
      * lia.
    + rewrite Ha. apply (Hstep _ Ha [] [ {| src := data_url data |} ]);
        cbn [text img all_text all_images flat_map]; rewrite ?Hc, ?Hd; cbn [app]; auto.
      * rewrite app_nil_r; reflexivity.
      * cbn [held]. intros x [Hx|[]]. apply in_or_app. right. left. exact Hx.
      * cbn [held List.length]. lia.
    + rewrite Ha. apply (Hstep _ Ha [] []);
        cbn [text img all_text all_images flat_map]; rewrite ?Hc, ?Hd; cbn [app]; auto.
      * rewrite app_nil_r; reflexivity.
      * rewrite app_nil_r. apply incl_refl.
      * cbn [List.length]. lia.
Qed.

Lemma shown_all_dom (h : Host) (l : list (jsstring * HTMLImageElement)) (s : State) :
  dom (shown_all h l s)
  = set_slideshow_hidden (match l with [] => slideshow_hidden (dom s) | _ => false end)
      (set_slideshow (slideshow (dom s) ++ List.map (render h) l) (dom s)).
Proof.
  revert s; induction l as [|p l IH]; intro s.
  - cbn [shown_all fold_left List.map]. rewrite app_nil_r. destruct (dom s); reflexivity.
  - rewrite <- shown_all_cons, IH. unfold shown. page_simpl.
    cbn [List.map]. rewrite <- app_assoc. cbn [app].
    destruct l; reflexivity.
Qed.

Lemma for_of_appends {X : Type} (host : Host) (body : X -> Buffers -> M Buffers) :
  (forall x b, exists r pairs, forall s, body x b s = (r, shown_all host pairs s)) ->
  forall l b, exists r pairs, forall s, for_of body l b s = (r, shown_all host pairs s).
Proof.
  intros Hbody l; induction l as [|x l IH]; intro b.
  - exists (Normal b), []. reflexivity.
  - destruct (Hbody x b) as ([b1|e] & p1 & H1).
    + destruct (IH b1) as (r & p2 & H2). exists r, (p1 ++ p2). intro s.
      cbn [for_of]. unfold bind. rewrite H1, H2. rewrite shown_all_app. reflexivity.
    + exists (Throw e), p1. intro s. cbn [for_of]. unfold bind. rewrite H1. reflexivity.
Qed.

Lemma index_for_chunk_appends (host : Host) (c : Chunk) (b : Buffers) :
  exists r pairs, forall s, Index.for_chunk host c b s = (r, shown_all host pairs s).
Proof.
  unfold Index.for_chunk. destruct (chunk_candidates c) as [cs|].
  2:{ exists (Throw (TypeError not_iterable)), []. reflexivity. }
  apply for_of_appends. clear. intros cand b. unfold Index.for_candidate.
  destruct (candidate_content cand) as [content|].
  2:{ eexists (Throw _), []. reflexivity. }
  apply for_of_appends. clear. intros p b.
  destruct (text (Index.absorb p b)) as [|c t] eqn:Ht.
  - exists (Normal (Index.absorb p b)), []. intro s. rewrite for_part_run, Ht. reflexivity.
  - destruct (img (Index.absorb p b)) as [image|] eqn:Hi.
    + exists (Normal empty_buffers), [(c :: t, image)]. intro s.
      rewrite for_part_run, Ht, Hi. reflexivity.
    + exists (Normal (Index.absorb p b)), []. intro s. rewrite for_part_run, Ht, Hi.
      reflexivity.
Qed.

Lemma index_for_await_appends (host : Host) (result : Stream) (b : Buffers) :
  exists r pairs,
    forall s, for_await (Index.for_chunk host) result b s = (r, shown_all host pairs s).
Proof.
  destruct (for_of_appends host (Index.for_chunk host) (index_for_chunk_appends host)
              (stream_chunks result) b) as ([b1|e] & pairs & H).
  - destruct (stream_failure result) as [e|] eqn:Hf.
    + exists (Throw e), pairs. intro s. unfold for_await, bind. rewrite H, Hf. reflexivity.
    + exists (Normal b1), pairs. intro s. unfold for_await, bind. rewrite H, Hf. reflexivity.
  - exists (Throw e), pairs. intro s. unfold for_await, bind. rewrite H. reflexivity.
Qed.

Lemma json_to_string_throws (h : Host) (v : json) (e : exn) :
  json_to_string h v = Throw e -> e = TypeError no_primitive_value.
Proof.
  revert v e.
  fix IH 1. intros v e.
  destruct v as [|[|]|l|s|vs|ms]; cbn [json_to_string]; try discriminate.
  - match goal with
    | |- match ?f vs with _ => _ end = _ -> _ =>
        assert (Hel : forall e', f vs = Throw e' -> e' = TypeError no_primitive_value)
    end.
    { clear e. revert vs. fix IHvs 1. intros vs e'.
      destruct vs as [|x vs]; [discriminate|].
      destruct (match x with JNull => Normal [] | _ => json_to_string h x end)
        as [sx|ex] eqn:Hx.
      - specialize (IHvs vs).
        destruct ((fix elements (vs : list json) : completion (list jsstring) :=
                     match vs with
                     | [] => Normal []
                     | x :: vs' =>
                         match (match x with
                                | JNull => Normal []
                                | _ => json_to_string h x
                                end) with
                         | Normal s =>
                             match elements vs' with
                             | Normal ss => Normal (s :: ss)
                             | Throw e => Throw e
                             end
                         | Throw e => Throw e
                         end
                     end) vs) as [ss|e2]; [discriminate|].
        intro H. injection H as <-. apply IHvs. reflexivity.
      - intro H. injection H as <-.
        apply (IH x). destruct x; try exact Hx. discriminate. }
    destruct (_ vs) as [ss|e2]; [discriminate|].
    intro H. injection H as <-. apply Hel. reflexivity.
  - destruct (lookup (lit "toString") ms); [discriminate|].
    intro H; injection H as <-; reflexivity.
Qed.

Lemma to_string_throws (h : Host) (v : jsval) (e : exn) :
  to_string h v = Throw e -> e = TypeError no_primitive_value.
Proof. destruct v; [discriminate|]. apply json_to_string_throws. Qed.

Lemma parseError_total (error : jsstring) : exists msg, Index.parseError error = Normal msg.
Proof.
  unfold Index.parseError.
  destruct (exec_error_group error) as [g|]; [|eexists; reflexivity].
  destruct (JSON.parse g) as [err|]; [|eexists; reflexivity].
  destruct (get_prop (Value err) (lit "message")); eexists; reflexivity.
Qed.

Lemma part000_parseError_cases (host : Host) (e : exn) :
  match Part000.parseError host e with
  | Normal msg => msg = exn_to_string host e /\ e <> ThrownUndefined /\ e <> ThrownNull
  | Throw e' =>
      (e = ThrownUndefined /\ e' = TypeError (read_of_undefined (lit "toString")))
      \/ (e = ThrownNull /\ e' = TypeError (read_of_null (lit "toString")))
  end.
Proof.
  destruct e; cbn [Part000.parseError]; try (repeat split; discriminate).
  - left. split; reflexivity.
  - right. split; reflexivity.
Qed.

Lemma part000_generate_run (host : Host) (c : StreamingChat) (message : jsstring)
    (s : State) :
  trim message <> [] ->
  let request := message ++ Part000.additionalInstructions in
  let run := Part000.generate host (Some c) message s in
  exists r pairs,
    (forall st,
        for_await (Part000.for_chunk host) (c (sent s) request) empty_buffers st
        = (r, shown_all host pairs st))
    /\ sent (snd run) = sent s ++ [(the_chat, request)]
    /\ userInput_value (dom (snd run)) = []
    /\ modelOutput (dom (snd run)) = [marked_parse host message]
    /\ slideshow (dom (snd run)) = List.map (render host) pairs
    /\ slideshow_hidden (dom (snd run))
       = match pairs with [] => slideshow_hidden (dom s) | _ => false end
    /\ match r with
       | Normal _ =>
           fst run = Normal tt
           /\ userInput_disabled (dom (snd run)) = false
           /\ userInput_focused (dom (snd run)) = true
           /\ error_hidden (dom (snd run)) = true
           /\ error_innerHTML (dom (snd run)) = []
       | Throw e =>
           match Part000.parseError host e with
           | Normal msg =>
               fst run = Normal tt
               /\ userInput_disabled (dom (snd run)) = false
               /\ userInput_focused (dom (snd run)) = true
               /\ error_hidden (dom (snd run)) = false
               /\ error_innerHTML (dom (snd run)) = lit "Something went wrong: " ++ msg
           | Throw e' =>
               fst run = Throw e'
               /\ userInput_disabled (dom (snd run)) = true
               /\ userInput_focused (dom (snd run)) = userInput_focused (dom s)
               /\ error_hidden (dom (snd run)) = true
               /\ error_innerHTML (dom (snd run)) = []
           end
       end.
Proof.
  intros Hm request run. subst run.
  unfold Part000.generate.
  destruct (trim message) as [|x t]; [contradiction|].
  destruct (index_for_await_appends host (c (sent s) request) empty_buffers)
    as (r & pairs & Hr).
  exists r, pairs. split; [exact Hr|].
  cbv beta iota zeta delta [bind update try_catch sendMessageStream ret lift].
  cbn [dom sent].
  change (for_await (Part000.for_chunk host)) with (for_await (Index.for_chunk host)) in *.
  fold request. rewrite Hr.
  destruct r as [b|e].
  - cbn [fst snd dom sent]. rewrite shown_all_sent, !shown_all_dom. page_simpl.
    repeat split; reflexivity.
  - destruct (Part000.parseError host e) as [msg|e'];
      cbn [fst snd dom sent]; rewrite shown_all_sent, !shown_all_dom; page_simpl;
      repeat split; reflexivity.
Qed.

(** X1. The outcomes of [generate] of [part_000], for every chat, message
    and page and whatever the stream delivers. Without a chat or with a
    blank message nothing changes. Otherwise exactly one request is sent,
    the message followed by the instructions; the story field is emptied,
    the output holds the echoed message, the slideshow holds exactly the
    slides the loop paired, and its region is un-hidden by a slide and
    never hidden again. When the stream ends normally the run returns with
    the field enabled and focused and the error region hidden and empty.
    When the iteration throws a value that has a [toString], the run
    returns likewise and shows [Something went wrong: ] followed by the
    string conversion of that value. When the value thrown is [undefined]
    or [null], [parseError] reads [toString] of it inside the [catch]
    block: the [TypeError] leaves [generate], the field stays disabled and
    no message is shown. *)
Theorem part000_generate_outcomes :
  forall (host : Host) (chat : option StreamingChat) (message : jsstring) (s : State),
  let run := Part000.generate host chat message s in
  match chat, trim message with
  | Some c, _ :: _ =>
      let request := message ++ Part000.additionalInstructions in
      exists r pairs,
        (forall st,
            for_await (Part000.for_chunk host) (c (sent s) request) empty_buffers st
            = (r, shown_all host pairs st))
        /\ sent (snd run) = sent s ++ [(the_chat, request)]
        /\ userInput_value (dom (snd run)) = []
        /\ modelOutput (dom (snd run)) = [marked_parse host message]
        /\ slideshow (dom (snd run)) = List.map (render host) pairs
        /\ slideshow_hidden (dom (snd run))
           = match pairs with [] => slideshow_hidden (dom s) | _ => false end
        /\ match r with
           | Normal _ =>
               fst run = Normal tt
               /\ userInput_disabled (dom (snd run)) = false
               /\ userInput_focused (dom (snd run)) = true
               /\ error_hidden (dom (snd run)) = true
               /\ error_innerHTML (dom (snd run)) = []
           | Throw ThrownUndefined =>
               fst run = Throw (TypeError (read_of_undefined (lit "toString")))
               /\ userInput_disabled (dom (snd run)) = true
               /\ error_hidden (dom (snd run)) = true
               /\ error_innerHTML (dom (snd run)) = []
           | Throw ThrownNull =>
               fst run = Throw (TypeError (read_of_null (lit "toString")))
               /\ userInput_disabled (dom (snd run)) = true
               /\ error_hidden (dom (snd run)) = true
               /\ error_innerHTML (dom (snd run)) = []
           | Throw e =>
               fst run = Normal tt
               /\ userInput_disabled (dom (snd run)) = false
               /\ userInput_focused (dom (snd run)) = true
               /\ error_hidden (dom (snd run)) = false
               /\ error_innerHTML (dom (snd run))
                  = lit "Something went wrong: " ++ exn_to_string host e
           end
  | _, _ => run = (Normal tt, s)
  end
  /\ fst (Part000.generate sample_host (Some (rejects ThrownUndefined))
            (lit "A cat naps.") fresh_page)
     = Throw (TypeError (read_of_undefined (lit "toString"))).
Proof.
  intros host chat message s run. subst run. split; [|vm_compute; reflexivity].
  destruct chat as [c|]; [|reflexivity].
  destruct (trim message) as [|x t] eqn:Hm.
  - unfold Part000.generate. rewrite Hm. reflexivity.
  - assert (Hne : trim message <> []) by (rewrite Hm; discriminate).
    destruct (part000_generate_run host c message s Hne)
      as (r & pairs & Hr & H1 & H2 & H3 & H4 & H5 & H6).
    cbv zeta. exists r, pairs.
    split; [exact Hr|]. split; [exact H1|]. split; [exact H2|]. split; [exact H3|].
    split; [exact H4|]. split; [exact H5|].
    destruct r as [b|e]; [exact H6|].
    destruct e; cbn [Part000.parseError] in H6;
      try exact H6;
      destruct H6 as (G1 & G2 & _ & G3 & G4); repeat split; assumption.
Qed.

Lemma for_await_chunks (host : Host) (pss : list (list Part)) (b : Buffers) (s : State) :
  for_await (Index.for_chunk host) (chunks pss) b s
  = for_of (Index.for_part host) (List.concat pss) b s.
Proof.
  unfold for_await, chunks, bind. cbn [stream_chunks stream_failure].
  rewrite for_chunks_concat.
  destruct (for_of (Index.for_part host) (List.concat pss) b s) as [[b'|e] s']; reflexivity.
Qed.

(** X2. For a stream of arbitrary parts that ends normally, the captions
    cut the streamed text in pieces: in [part_000] the texts of the
    slides, concatenated in order, followed by the text dropped at the end
    of the stream, are exactly the text the parts carried; no slide has
    an empty text; every slide image is the image of a part without text,
    and there are at most as many slides as such parts. In [index.tsx] the
    same holds of the paired slides, and a last image that is flushed has
    an empty text and nothing is dropped then. *)
Theorem captions_partition_the_streamed_text :
  forall (host : Host) (chat : StreamingChat) (pss : list (list Part))
         (message : jsstring) (s : State),
  (trim message <> [] ->
   chat (sent s) (message ++ Part000.additionalInstructions) = chunks pss ->
   exists pairs dropped,
     slideshow (dom (snd (Part000.generate host (Some chat) message s)))
     = List.map (render host) pairs
     /\ List.concat (List.map fst pairs) ++ dropped = all_text (List.concat pss)
     /\ Forall (fun p => fst p <> []) pairs
     /\ incl (List.map snd pairs) (all_images (List.concat pss))
     /\ List.length pairs <= List.length (all_images (List.concat pss)))
  /\ (chat (sent s) (message ++ Index.additionalInstructions) = chunks pss ->
      exists pairs dropped last,
        slideshow (dom (snd (Index.generate host chat message s)))
        = List.map (render host) (pairs ++ List.map (fun i => ([], i)) (held last))
        /\ List.concat (List.map fst pairs) ++ dropped = all_text (List.concat pss)
        /\ (last <> None -> dropped = [])
        /\ Forall (fun p => fst p <> []) pairs
        /\ incl (List.map snd pairs ++ held last) (all_images (List.concat pss))
        /\ List.length pairs + List.length (held last)
           <= List.length (all_images (List.concat pss))).
Proof.
  intros host chat pss message s. split.
  - intros Hm Hc.
    unfold Part000.generate. destruct (trim message) as [|x t]; [contradiction|].
    cbv beta iota zeta delta [bind update try_catch sendMessageStream ret Part000.parseError].
    cbn [dom sent]. rewrite Hc.
    change (for_await (Part000.for_chunk host)) with (for_await (Index.for_chunk host)).
    rewrite for_await_chunks.
    match goal with
    | |- context [for_of (Index.for_part host) (List.concat pss) empty_buffers ?st] =>
        destruct (parts_partition host (List.concat pss) empty_buffers st)
          as (pairs & b' & Hr & Hcat & Hne & Hin & Hlen & _)
    end.
    exists pairs, (text b'). rewrite Hr. cbn [snd dom]. rewrite !shown_all_dom. page_simpl.
    cbn [held img text empty_buffers app List.length] in *.
    repeat split; auto.
    + intros y Hy. apply Hin. apply in_or_app. left. exact Hy.
    + lia.
  - intros Hc.
    unfold Index.generate.
    cbv beta iota zeta delta [bind update try_catch sendMessageStream ret].
    cbn [dom sent]. rewrite Hc.
    rewrite for_await_chunks.
    match goal with
    | |- context [for_of (Index.for_part host) (List.concat pss) empty_buffers ?st] =>
        destruct (parts_partition host (List.concat pss) empty_buffers st)
          as (pairs & b' & Hr & Hcat & Hne & Hin & Hlen & Hs)
    end.
    exists pairs, (text b'), (img b'). rewrite Hr.
    cbn [held img text empty_buffers app List.length] in Hcat, Hin, Hlen.
    assert (Hset : img b' <> None -> text b' = []).
    { intro Hi. destruct Hs as [H|H]; [left; reflexivity|exact H|contradiction]. }
    repeat split; auto.
    destruct (img b') as [image|] eqn:Hi.
    + rewrite Hset by discriminate.
      unfold Index.addSlide. cbv beta iota zeta delta [bind update].
      cbn [snd dom sent]. rewrite !shown_all_dom. page_simpl.
      rewrite List.map_app. reflexivity.
    + cbn [snd dom held List.map]. rewrite !shown_all_dom, app_nil_r. page_simpl.
      reflexivity.
Qed.

(** X2, witness: the stream of the specification's example. *)
Lemma captions_partition_the_streamed_text_witness :
  exists pairs dropped,
    slideshow (dom (snd (Part000.generate sample_host (Some (always [two_pairs]))
                           (lit "A cat naps.") fresh_page)))
    = List.map (render sample_host) pairs
    /\ List.concat (List.map fst pairs) ++ dropped = lit "AB"
    /\ List.length pairs <= 2.
Proof.
  destruct (proj1 (captions_partition_the_streamed_text sample_host (always [two_pairs])
                     [List.map part_of two_pairs] (lit "A cat naps.") fresh_page)
              ltac:(vm_compute; discriminate) eq_refl)
    as (pairs & dropped & H1 & H2 & _ & _ & H3).
  exists pairs, dropped. repeat split; assumption.
Defined.

(** X3. Every run of [generate] of [index.tsx], whatever the chat
    answers: exactly one request is sent, the message followed by the
    instructions; the output holds the echoed message and the story
    field is emptied. When the iteration ends normally the run returns
    with the field enabled, the error hidden, and the paired slides
    followed by the flushed image, if one is held. When the iteration
    throws, the paired slides stay and [parseError] gives a value: if
    that value has a string conversion the run returns, field enabled,
    showing [Something went wrong: ] and that string; if it has none
    (an object with a [toString] member), the [TypeError] leaves
    [generate] from inside the [catch] block, with the field still
    disabled and the error region hidden. The last case occurs: a
    rejection whose payload is the object [unprintable_error]. *)
Theorem index_generate_outcomes :
  forall (host : Host) (chat : StreamingChat) (message : jsstring) (s : State),
  let request := message ++ Index.additionalInstructions in
  let run := Index.generate host chat message s in
  (exists r pairs,
     (forall st,
         for_await (Index.for_chunk host) (chat (sent s) request) empty_buffers st
         = (r, shown_all host pairs st))
     /\ sent (snd run) = sent s ++ [(the_chat, request)]
     /\ modelOutput (dom (snd run)) = [marked_parse host message]
     /\ userInput_value (dom (snd run)) = []
     /\ match r with
        | Normal b =>
            fst run = Normal tt
            /\ userInput_disabled (dom (snd run)) = false
            /\ error_hidden (dom (snd run)) = true
            /\ slideshow (dom (snd run))
               = List.map (render host) (pairs ++ List.map (fun i => (text b, i)) (held (img b)))
        | Throw e =>
            slideshow (dom (snd run)) = List.map (render host) pairs
            /\ exists msg,
                 Index.parseError (exn_to_string host e) = Normal msg
                 /\ match to_string host msg with
                    | Normal rendered =>
                        fst run = Normal tt
                        /\ userInput_disabled (dom (snd run)) = false
                        /\ error_hidden (dom (snd run)) = false
                        /\ error_innerHTML (dom (snd run))
                           = lit "Something went wrong: " ++ rendered
                    | Throw e' =>
                        e' = TypeError no_primitive_value
                        /\ fst run = Throw e'
                        /\ userInput_disabled (dom (snd run)) = true
                        /\ error_hidden (dom (snd run)) = true
                    end
        end)
  /\ fst (Index.generate sample_host (rejects (Rejection unprintable_error))
            (lit "A cat naps.") fresh_page)
     = Throw (TypeError no_primitive_value).
Proof.
  intros host chat message s request run. split; [|vm_compute; reflexivity].
  destruct (index_for_await_appends host (chat (sent s) request) empty_buffers)
    as (r & pairs & Hr).
  exists r, pairs. split; [exact Hr|].
  subst run. unfold Index.generate.
  cbv beta iota zeta delta [bind update try_catch sendMessageStream ret lift].
  cbn [dom sent]. fold request. rewrite Hr.
  destruct r as [b|e].
  - destruct (img b) as [image|].
    + unfold Index.addSlide. cbv beta iota zeta delta [bind update].
      cbn [fst snd dom sent]. rewrite shown_all_sent, !shown_all_dom. page_simpl.
      rewrite List.map_app. repeat split; reflexivity.
    + cbn [fst snd dom sent held List.map]. rewrite shown_all_sent, !shown_all_dom. page_simpl.
      rewrite app_nil_r. repeat split; reflexivity.
  - destruct (parseError_total (exn_to_string host e)) as [msg Hmsg]. rewrite Hmsg.
    destruct (to_string host msg) as [rendered|e'] eqn:Hts.
    + cbn [fst snd dom sent]. rewrite shown_all_sent, !shown_all_dom. page_simpl.
      repeat split; try reflexivity. exists msg. rewrite Hts. repeat split; reflexivity.
    + cbn [fst snd dom sent]. rewrite shown_all_sent, !shown_all_dom. page_simpl.
      repeat split; try reflexivity. exists msg. rewrite Hts.
      repeat split; try reflexivity. apply (to_string_throws host msg e' Hts).
Qed.

(* ================================================================== *)
(** * Further properties: the two-stage pipeline *)
(* ================================================================== *)

Section PipelinePage.

Variable host : Host.

Lemma get_prop_throws (v : jsval) (key : jsstring) (e : exn) :
  get_prop v key = Throw e -> exists w, e = TypeError w.
Proof.
  destruct v as [|[]]; cbn [get_prop]; intro H; try discriminate;
    injection H as <-; eexists; reflexivity.
Qed.

Lemma length_to_string_throws (v : jsval) (e : exn) :
  Part001.length_to_string host v = Throw e -> exists w, e = TypeError w.
Proof.
  destruct v as [|[]]; cbn [Part001.length_to_string]; try discriminate.
  intro H. apply to_string_throws in H. eexists; exact H.
Qed.

Lemma imagePrompt_throws (script panel : json) (e : exn) :
  Part001.imagePrompt host script panel = Throw e -> exists w, e = TypeError w.
Proof.
  unfold Part001.imagePrompt.
  destruct (get_prop (Value panel) (lit "text")) as [t|e1] eqn:H1.
  2:{ intro H; injection H as <-. exact (get_prop_throws _ _ _ H1). }
  destruct (to_string host t) as [ts|e2] eqn:H2.
  2:{ intro H; injection H as <-. eexists. exact (to_string_throws _ _ _ H2). }
  destruct (get_prop (Value script) (lit "characterDescription")) as [c|e3] eqn:H3.
  2:{ intro H; injection H as <-. exact (get_prop_throws _ _ _ H3). }
  destruct (to_string host c) as [cs|e4] eqn:H4.
  2:{ intro H; injection H as <-. eexists. exact (to_string_throws _ _ _ H4). }
  discriminate.
Qed.

(** What one turn leaves alone, and what it keeps true. *)
Lemma for_panel_page (chat : StreamingChat) (script panel : json) (k : nat) (s : State) :
  let r := fst (Part001.for_panel host chat script panel k s) in
  let s' := snd (Part001.for_panel host chat script panel k s) in
  userInput_disabled (dom s') = userInput_disabled (dom s)
  /\ userInput_value (dom s') = userInput_value (dom s)
  /\ userInput_focused (dom s') = userInput_focused (dom s)
  /\ modelOutput (dom s') = modelOutput (dom s)
  /\ (status_hidden (dom s) = false -> status_hidden (dom s') = false)
  /\ ((slideshow_hidden (dom s) = true <-> slideshow (dom s) = []) ->
      (slideshow_hidden (dom s') = true <-> slideshow (dom s') = []))
  /\ (forall e, r = Throw e -> exists w, e = TypeError w).
Proof.
  destruct (get_prop (Value script) (lit "panels")) as [panels|e] eqn:Hp.
  2:{ cbv beta iota zeta delta [Part001.for_panel bind lift]. rewrite Hp.
      cbn [fst snd]. repeat split; auto; try apply H; try apply H.
      intros e0 H0. injection H0 as <-. exact (get_prop_throws _ _ _ Hp). }
  destruct (Part001.length_to_string host panels) as [total|e] eqn:Ht.
  2:{ cbv beta iota zeta delta [Part001.for_panel bind lift]. rewrite Hp, Ht.
      cbn [fst snd]. repeat split; auto; try apply H.
      intros e0 H0. injection H0 as <-. exact (length_to_string_throws _ _ Ht). }
  destruct (Part001.imagePrompt host script panel) as [prompt|e] eqn:Hi.
  2:{ cbv beta iota zeta delta [Part001.for_panel bind lift Part001.setStatus update].
      rewrite Hp, Ht. cbn [dom sent]. rewrite Hi. page_simpl.
      repeat split; auto; try apply H.
      intros e0 H0. injection H0 as <-. exact (imagePrompt_throws _ _ _ Hi). }
  destruct (imagePrompt_Normal host script panel prompt Hi) as (pt & ts & Hpt & Hts).
  destruct (part001_for_await_pure (chat (sent s) prompt) empty_buffers) as [r Hr].
  rewrite (for_panel_unfold host chat script panel k s panels total prompt pt ts r
             Hp Ht Hi Hpt Hts Hr).
  cbv zeta.
  destruct r as [b|e]; [destruct (img b) as [image|]; [destruct pt as [|[| | |t| |]]|]|];
    page_simpl; repeat split; auto; try apply H; try discriminate;
    try (intros _; destruct (slideshow (dom s)); discriminate).
  intro H0. apply app_eq_nil in H0. destruct H0 as [_ H0]. discriminate.
Qed.


Lemma for_panels_page (chat : StreamingChat) (script : json) (panels : list json) :
  forall (k : nat) (s : State),
  let r := fst (Part001.for_panels host chat script panels k s) in
  let s' := snd (Part001.for_panels host chat script panels k s) in
  userInput_disabled (dom s') = userInput_disabled (dom s)
  /\ userInput_value (dom s') = userInput_value (dom s)
  /\ userInput_focused (dom s') = userInput_focused (dom s)
  /\ modelOutput (dom s') = modelOutput (dom s)
  /\ (status_hidden (dom s) = false -> status_hidden (dom s') = false)
  /\ ((slideshow_hidden (dom s) = true <-> slideshow (dom s) = []) ->
      (slideshow_hidden (dom s') = true <-> slideshow (dom s') = []))
  /\ (forall e, r = Throw e -> exists w, e = TypeError w).
Proof.
  induction panels as [|panel rest IH]; intros k s.
  - cbn. repeat split; auto; try apply H; discriminate.
  - cbv zeta. rewrite for_panels_cons.
    pose proof (for_panel_page chat script panel (S k) s) as Hp. cbv zeta in Hp.
    destruct (Part001.for_panel host chat script panel (S k) s) as [[[|]|e] s1].
    + cbn [fst snd] in Hp. destruct Hp as (H1 & H2 & H3 & H4 & H5 & H6 & _).
      specialize (IH (S k) s1). cbv zeta in IH.
      destruct IH as (I1 & I2 & I3 & I4 & I5 & I6 & I7).
      rewrite I1, I2, I3, I4, H1, H2, H3, H4. repeat split; auto.
      * apply I6, H6, H.
      * apply I6, H6, H.
    + cbn [fst snd] in *. destruct Hp as (H1 & H2 & H3 & H4 & H5 & H6 & _).
      repeat split; auto; try apply H6; try assumption. discriminate.
    + cbn [fst snd] in *. destruct Hp as (H1 & H2 & H3 & H4 & H5 & H6 & H7).
      repeat split; auto; try apply H6; try assumption.
      intros e0 H0. injection H0 as <-. apply (H7 e). reflexivity.
Qed.

Lemma for_panels_requests (chat : StreamingChat) (script : json) (panels : list json) :
  forall (k : nat) (s : State),
  let r := fst (Part001.for_panels host chat script panels k s) in
  let s' := snd (Part001.for_panels host chat script panels k s) in
  exists reqs slides,
    sent s' = sent s ++ reqs
    /\ Forall (fun q => fst q = the_imageChat) reqs
    /\ slideshow (dom s') = slideshow (dom s) ++ slides
    /\ List.length slides <= List.length reqs <= List.length slides + 1
    /\ List.length reqs <= List.length panels
    /\ (forall e, r = Throw e ->
          List.length reqs = List.length slides
          /\ error_innerHTML (dom s') = error_innerHTML (dom s)
          /\ error_hidden (dom s') = error_hidden (dom s))
    /\ (r = Normal tt -> error_hidden (dom s) = true -> error_hidden (dom s') = true ->
        rendered host chat script panels k s s').
Proof.
  induction panels as [|panel rest IH]; intros k s.
  - exists [], []. cbn. rewrite !app_nil_r. repeat split; auto; discriminate.
  - cbv zeta. rewrite for_panels_cons.
    pose proof (for_panel_turn host chat script panel (S k) s) as T.
    destruct (Part001.for_panel host chat script panel (S k) s) as [[[|]|e] s1] eqn:Hfp;
      cbn [fst snd] in T; inversion T; subst.
    + specialize (IH (S k) s1). cbv zeta in IH.
      destruct IH as (reqs & slides & I1 & I2 & I3 & I4 & I5 & I6 & I7).
      exists ((the_imageChat, prompt) :: reqs),
             ({| slide_image := image; slide_caption := marked_parse host t |} :: slides).
      split; [|split; [|split; [|split; [|split; [|split]]]]].
      * rewrite I1. match goal with H : sent s1 = _ |- _ => rewrite H end.
        rewrite <- app_assoc. reflexivity.
      * constructor; [reflexivity|exact I2].
      * rewrite I3. match goal with H : slideshow (dom s1) = _ |- _ => rewrite H end.
        rewrite <- app_assoc. reflexivity.
      * cbn [List.length]. lia.
      * cbn [List.length]. lia.
      * intros e' He. destruct (I6 e' He) as (? & ? & ?). cbn [List.length].
        repeat split; [lia|congruence|congruence].
      * intros Hn Hh Hh'. cbn [rendered]. exists s1. split; [exact Hfp|].
        apply I7; [exact Hn| congruence | exact Hh'].
    + exists [(the_imageChat, prompt)], []. cbn [fst snd List.length].
      rewrite app_nil_r. repeat split; auto; try lia; try discriminate.
      intros _ Hh Hh'. congruence.
    + exists [], []. cbn [fst snd List.length]. rewrite !app_nil_r.
      repeat split; auto; try lia. discriminate.
Qed.

End PipelinePage.

Section PipelineRuns.

Variable host : Host.

(** The four ways a run of [generate] goes, once the guard is passed. *)
Lemma generate_run (textChat : TextChat) (imageChat : StreamingChat)
    (story : jsstring) (s : State) :
  trim story <> [] ->
  let prompt := Part001.scriptwriterPrompt story in
  let sent1 := sent s ++ [(the_textChat, prompt)] in
  let run := Part001.generate host (Some textChat) (Some imageChat) story s in
  match script_of (textChat (sent s) prompt) with
  | inl e =>
      run = (Normal tt,
             finished {| dom := set_error (Part001.scriptwriting_failed host e) false
                                  (cleared (dom s));
                         sent := sent1 |})
  | inr script =>
      let s2 := {| dom := set_userInput_value []
                            (set_modelOutput [marked_parse host story] (cleared (dom s)));
                   sent := sent1 |} in
      (panels_of script = []
       /\ run = (Normal tt, finished {| dom := cleared (dom s); sent := sent1 |}))
      \/ (panels_of script = [] /\ run = (Throw (TypeError not_iterable), s2))
      \/ (run = match Part001.for_panels host imageChat script (panels_of script) 0 s2 with
                | (Throw e, s3) => (Throw e, s3)
                | (Normal _, s3) => (Normal tt, finished s3)
                end)
  end.
Proof.
  intros Hs prompt sent1 run. subst run.
  rewrite (generate_unfold host textChat imageChat story s Hs). cbv zeta.
  rewrite generateScript_run. cbv zeta. cbn [dom sent].
  fold prompt. fold sent1. unfold script_of.
  destruct (textChat (sent s) prompt) as [[|c t]|e]; try reflexivity.
  destruct (JSON.parse (Part001.clean (c :: t))) as [script|]; [|reflexivity].
  cbv zeta.
  assert (Hgen : forall panels,
    (script <> JNull -> get_prop (Value script) (lit "panels") = Normal panels) ->
    (script = JNull -> panels = Undefined) ->
    let s1 := {| dom := cleared (dom s); sent := sent1 |} in
    let s2 := {| dom := set_userInput_value []
                          (set_modelOutput [marked_parse host story] (cleared (dom s)));
                 sent := sent1 |} in
    let rest :=
      if negb (truthy host (Value script)) || negb (truthy host panels)
         || Part001.length_is_zero host panels
      then (Normal tt, finished s1)
      else
        match Part001.iterate panels with
        | Throw e => (Throw e, s2)
        | Normal elements =>
            match Part001.for_panels host imageChat script elements 0 s2 with
            | (Throw e, s3) => (Throw e, s3)
            | (Normal _, s3) => (Normal tt, finished s3)
            end
        end in
    (panels_of script = [] /\ rest = (Normal tt, finished s1))
    \/ (panels_of script = [] /\ rest = (Throw (TypeError not_iterable), s2))
    \/ rest = match Part001.for_panels host imageChat script (panels_of script) 0 s2 with
              | (Throw e, s3) => (Throw e, s3)
              | (Normal _, s3) => (Normal tt, finished s3)
              end).
  { intros panels Hp Hnull s1 s2 rest. subst rest.
    destruct (negb (truthy host (Value script)) || negb (truthy host panels)
              || Part001.length_is_zero host panels) eqn:Hg.
    - left. split; [|reflexivity]. unfold panels_of.
      destruct script as [|b|l|st|vs|ms]; [reflexivity|..];
        (rewrite Hp by discriminate);
        specialize (Hp ltac:(discriminate)); cbn [get_prop] in Hp;
        try (injection Hp as <-; reflexivity).
      cbn [truthy negb orb] in Hg.
      destruct panels as [|[|b'|l'|[|c' st']|[|v vs']|ms']]; try reflexivity;
        cbn in Hg; discriminate.
    - destruct (Part001.iterate panels) as [elements|e] eqn:Hit.
      + right; right. unfold panels_of.
        destruct script as [|b|l|st|vs|ms]; [cbn in Hg; discriminate|..];
          rewrite Hp by discriminate; rewrite Hit; reflexivity.
      + right; left. unfold panels_of.
        assert (e = TypeError not_iterable) as ->.
        { destruct panels as [|[]]; cbn in Hit; congruence. }
        split; [|reflexivity].
        destruct script as [|b|l|st|vs|ms]; [reflexivity|..];
          rewrite Hp by discriminate; rewrite Hit; reflexivity. }
  destruct script as [|b|l|st|vs|ms]; cbn [get_prop];
    apply Hgen; intros; try reflexivity; congruence.
Qed.


Lemma rendered_captions (chat : StreamingChat) (script : json) (pre : list json) :
  forall (k : nat) (s s1 : State),
  rendered host chat script pre k s s1 ->
  exists slides reqs,
    slideshow (dom s1) = slideshow (dom s) ++ slides
    /\ Forall2 (fun panel slide =>
                  exists t, get_prop (Value panel) (lit "text") = Normal (Value (JString t))
                            /\ slide_caption slide = marked_parse host t) pre slides
    /\ sent s1 = sent s ++ reqs
    /\ Forall2 (fun panel q =>
                  Part001.imagePrompt host script panel = Normal (snd q)
                  /\ fst q = the_imageChat) pre reqs.
Proof.
  induction pre as [|p pre IH]; intros k s s1 H.
  - cbn in H. subst s1. exists [], []. rewrite !app_nil_r. repeat split; constructor.
  - destruct H as (s0 & Hp & H).
    pose proof (for_panel_turn host chat script p (S k) s) as T. rewrite Hp in T.
    cbn [fst snd] in T. inversion T; subst.
    destruct (IH (S k) s0 s1 H) as (slides & reqs & I1 & I2 & I3 & I4).
    exists ({| slide_image := image; slide_caption := marked_parse host t |} :: slides),
           ((the_imageChat, prompt) :: reqs).
    split; [|split; [|split]].
    + rewrite I1. match goal with H : slideshow (dom s0) = _ |- _ => rewrite H end.
      rewrite <- app_assoc. reflexivity.
    + constructor; [|exact I2]. exists t. split; [assumption|reflexivity].
    + rewrite I3. match goal with H : sent s0 = _ |- _ => rewrite H end.
      rewrite <- app_assoc. reflexivity.
    + constructor; [|exact I4]. split; [assumption|reflexivity].
Qed.

End PipelineRuns.

(** X4. Requests of a run of [generate] of [part_001] that passes its
    guard: exactly one request to the text chat, the scriptwriter's
    prompt of the story, comes first; every later request goes to the
    image chat; there is one per slide shown, and at most one more (for
    the panel that failed); when the run throws, every image request has
    produced its slide; no image request is sent when no script was
    parsed, and never more than the script has panels. *)
Theorem pipeline_requests :
  forall (host : Host) (textChat : TextChat) (imageChat : StreamingChat)
         (story : jsstring) (s : State),
  trim story <> [] ->
  let prompt := Part001.scriptwriterPrompt story in
  let run := Part001.generate host (Some textChat) (Some imageChat) story s in
  exists reqs,
    sent (snd run) = sent s ++ (the_textChat, prompt) :: reqs
    /\ Forall (fun q => fst q = the_imageChat) reqs
    /\ List.length (slideshow (dom (snd run))) <= List.length reqs
       <= List.length (slideshow (dom (snd run))) + 1
    /\ (forall e, fst run = Throw e ->
          List.length reqs = List.length (slideshow (dom (snd run))))
    /\ match script_of (textChat (sent s) prompt) with
       | inl _ => reqs = []
       | inr script => List.length reqs <= List.length (panels_of script)
       end.
Proof.
  intros host textChat imageChat story s Hs prompt run.
  pose proof (generate_run host textChat imageChat story s Hs) as R. cbv zeta in R.
  fold prompt in R. fold run in R.
  destruct (script_of (textChat (sent s) prompt)) as [e|script].
  - rewrite R. exists []. unfold finished, cleared. page_simpl.
    repeat split; auto; try discriminate. cbn. lia.
  - destruct R as [[Hp R]|[[Hp R]|R]].
    + rewrite R. exists []. unfold finished, cleared. page_simpl.
      repeat split; auto; try discriminate; cbn; lia.
    + rewrite R. exists []. unfold finished, cleared. page_simpl.
      repeat split; auto; cbn; lia.
    + match type of R with
      | _ = match Part001.for_panels _ _ _ ?els 0 ?s2 with _ => _ end =>
          pose proof (for_panels_requests host imageChat script els 0 s2) as Q
      end.
      cbv zeta in Q. destruct Q as (reqs & slides & Q1 & Q2 & Q3 & Q4 & Q5 & Q6 & _).
      exists reqs. rewrite R.
      destruct (Part001.for_panels host imageChat script (panels_of script) 0 _)
        as [[u|e] s3]; cbn [fst snd] in *; unfold finished, cleared in *; page_simpl;
        rewrite Q1, Q3, <- app_assoc; cbn [app];
        (split; [reflexivity|split; [exact Q2|split; [exact Q4|split; [|exact Q5]]]]).
      * discriminate.
      * intros e' He. apply (Q6 e). reflexivity.
Qed.

(** X4, witness: a script of three panels, the second of which gets no image. *)
Lemma pipeline_requests_witness :
  exists reqs,
    sent (snd (Part001.generate sample_host (Some (answers three_panels))
                 (Some first_image_only) (lit "A cat naps.") fresh_page))
    = (the_textChat, Part001.scriptwriterPrompt (lit "A cat naps.")) :: reqs
    /\ List.length reqs <= 3.
Proof.
  destruct (pipeline_requests sample_host (answers three_panels) first_image_only
              (lit "A cat naps.") fresh_page ltac:(vm_compute; discriminate))
    as (reqs & H1 & _ & _ & _ & H2).
  exists reqs. split; [exact H1|exact H2].
Defined.

(** X5. A run of [generate] of [part_001] that returns with the error
    region hidden has rendered the whole script: the reply of the text
    chat was parsed to a script, the slideshow has one slide per panel of
    that script, in order, each with the rendered text of its panel as
    caption, and one image request was sent per panel, with the prompt of
    that panel. A comic that stops before its last panel always comes
    with an error message or an exception. *)
Theorem no_silent_partial_comic :
  forall (host : Host) (textChat : TextChat) (imageChat : StreamingChat)
         (story : jsstring) (s : State),
  trim story <> [] ->
  let prompt := Part001.scriptwriterPrompt story in
  let run := Part001.generate host (Some textChat) (Some imageChat) story s in
  fst run = Normal tt ->
  error_hidden (dom (snd run)) = true ->
  exists script reqs,
    script_of (textChat (sent s) prompt) = inr script
    /\ Forall2 (fun panel slide =>
                  exists t, get_prop (Value panel) (lit "text") = Normal (Value (JString t))
                            /\ slide_caption slide = marked_parse host t)
               (panels_of script) (slideshow (dom (snd run)))
    /\ sent (snd run) = sent s ++ (the_textChat, prompt) :: reqs
    /\ Forall2 (fun panel q =>
                  Part001.imagePrompt host script panel = Normal (snd q)
                  /\ fst q = the_imageChat)
               (panels_of script) reqs.
Proof.
  intros host textChat imageChat story s Hs prompt run Hr Hh.
  pose proof (generate_run host textChat imageChat story s Hs) as R. cbv zeta in R.
  fold prompt in R. fold run in R.
  destruct (script_of (textChat (sent s) prompt)) as [e|script].
  - rewrite R in Hh. unfold finished, cleared in Hh. page_simpl. discriminate.
  - exists script.
    destruct R as [[Hp R]|[[Hp R]|R]].
    + exists []. rewrite R, Hp. unfold finished, cleared. page_simpl.
      repeat split; auto; constructor.
    + rewrite R in Hr. discriminate.
    + match type of R with
      | _ = match Part001.for_panels _ _ _ ?els 0 ?s2 with _ => _ end =>
          pose proof (for_panels_requests host imageChat script els 0 s2) as Q
      end.
      cbv zeta in Q. destruct Q as (reqs0 & slides0 & _ & _ & _ & _ & _ & _ & Q7).
      rewrite R in Hr, Hh. rewrite R.
      destruct (Part001.for_panels host imageChat script (panels_of script) 0 _)
        as [[[]|e] s3] eqn:Hfp; cbn [fst snd] in *; [|discriminate].
      unfold finished in Hh. page_simpl.
      specialize (Q7 eq_refl eq_refl Hh).
      destruct (rendered_captions host imageChat script (panels_of script) 0 _ s3 Q7)
        as (slides & reqs & C1 & C2 & C3 & C4).
      exists reqs. unfold finished, cleared in *. page_simpl.
      rewrite C1, C3, <- app_assoc. cbn [app].
      repeat split; assumption.
Qed.

(** X5, witness: a script of three panels, each of which gets an image. *)
Lemma no_silent_partial_comic_witness :
  List.length (slideshow (dom (snd (Part001.generate sample_host
                                      (Some (answers three_panels))
                                      (Some (always [two_pairs]))
                                      (lit "A cat naps.") fresh_page)))) = 3.
Proof.
  destruct (no_silent_partial_comic sample_host (answers three_panels) (always [two_pairs])
              (lit "A cat naps.") fresh_page
              ltac:(vm_compute; discriminate) ltac:(vm_compute; reflexivity)
              ltac:(vm_compute; reflexivity))
    as (script & reqs & H1 & H2 & _).
  vm_compute in H1. injection H1 as <-.
  apply Forall2_length in H2. rewrite <- H2. reflexivity.
Defined.

(** X6. The page after a run of [generate] of [part_001] that passes its
    guard. The slideshow region is hidden exactly when it holds no slide.
    When the run returns, the story field is enabled and focused and the
    status line is hidden and empty. When an exception leaves the run, it
    is a [TypeError]; the story field stays disabled, the status line
    stays shown, the error region is hidden and empty, and the story has
    been echoed and removed from the field. *)
Theorem pipeline_page_after_a_run :
  forall (host : Host) (textChat : TextChat) (imageChat : StreamingChat)
         (story : jsstring) (s : State),
  trim story <> [] ->
  let run := Part001.generate host (Some textChat) (Some imageChat) story s in
  let d := dom (snd run) in
  (slideshow_hidden d = true <-> slideshow d = [])
  /\ match fst run with
     | Normal _ =>
         userInput_disabled d = false
         /\ userInput_focused d = true
         /\ status_hidden d = true
         /\ status_textContent d = []
     | Throw e =>
         (exists w, e = TypeError w)
         /\ userInput_disabled d = true
         /\ userInput_focused d = userInput_focused (dom s)
         /\ status_hidden d = false
         /\ error_hidden d = true
         /\ error_innerHTML d = []
         /\ userInput_value d = []
         /\ modelOutput d = [marked_parse host story]
     end.
Proof.
  intros host textChat imageChat story s Hs run d. subst d.
  pose proof (generate_run host textChat imageChat story s Hs) as R. cbv zeta in R.
  fold run in R.
  destruct (script_of (textChat (sent s) (Part001.scriptwriterPrompt story))) as [e|script].
  - rewrite R. unfold finished, cleared. page_simpl. repeat split; auto.
  - destruct R as [[Hp R]|[[Hp R]|R]].
    + rewrite R. unfold finished, cleared. page_simpl. repeat split; auto.
    + rewrite R. unfold finished, cleared. page_simpl. repeat split; auto.
      eexists; reflexivity.
    + match type of R with
      | _ = match Part001.for_panels _ _ _ ?els 0 ?s2 with _ => _ end =>
          pose proof (for_panels_requests host imageChat script els 0 s2) as Q;
          pose proof (for_panels_page host imageChat script els 0 s2) as P
      end.
      cbv zeta in Q, P.
      destruct Q as (reqs & slides & _ & _ & _ & _ & _ & Q6 & _).
      destruct P as (P1 & P2 & P3 & P4 & P5 & P6 & P7).
      rewrite R.
      destruct (Part001.for_panels host imageChat script (panels_of script) 0 _)
        as [[u|e] s3]; cbn [fst snd] in *; unfold finished, cleared in *; page_simpl.
      * split; [apply P6; split; reflexivity|]. repeat split; reflexivity.
      * destruct (Q6 e eq_refl) as (_ & E1 & E2).
        split; [apply P6; split; reflexivity|].
        split; [apply (P7 e); reflexivity|].
        rewrite P1, P2, P3, P4, E1, E2. repeat split; try reflexivity.
        apply P5. reflexivity.
Qed.

(** X6, witness: the run that a [null] panel ends with an exception. *)
Lemma pipeline_page_after_a_run_witness :
  let d := dom (snd (Part001.generate sample_host (Some (answers null_panel_reply))
                       (Some (always [two_pairs])) (lit "A cat naps.") fresh_page)) in
  slideshow_hidden d = true <-> slideshow d = [].
Proof.
  exact (proj1 (pipeline_page_after_a_run sample_host (answers null_panel_reply)
                  (always [two_pairs]) (lit "A cat naps.") fresh_page
                  ltac:(vm_compute; discriminate))).
Defined.

(** X7. The story stays in the field exactly in the runs that end before
    the panel loop. When [generateScript] reports a failure (the request
    throws, the reply is empty or is not valid JSON), the run returns with
    the story field holding what it held, nothing echoed, no slide, one
    request, and the Scriptwriting Failed message of that exception. When
    a value is parsed and the guard
    [!script || !script.panels || script.panels.length === 0] holds of it,
    the same is true with the error region hidden and empty. When a value
    is parsed and the guard does not hold, the field is emptied and the
    story is echoed, also when the loop then throws (a [panels] that is
    the number [5]). *)
Theorem story_stays_until_the_panel_loop :
  forall (host : Host) (textChat : TextChat) (imageChat : StreamingChat)
         (story : jsstring) (s : State),
  trim story <> [] ->
  let prompt := Part001.scriptwriterPrompt story in
  let run := Part001.generate host (Some textChat) (Some imageChat) story s in
  let d := dom (snd run) in
  let kept :=
    fst run = Normal tt
    /\ userInput_value d = userInput_value (dom s)
    /\ modelOutput d = []
    /\ slideshow d = []
    /\ sent (snd run) = sent s ++ [(the_textChat, prompt)] in
  let consumed := userInput_value d = [] /\ modelOutput d = [marked_parse host story] in
  match script_of (textChat (sent s) prompt) with
  | inl e =>
      kept /\ error_hidden d = false
      /\ error_innerHTML d = Part001.scriptwriting_failed host e
  | inr script =>
      if no_panels host script
      then kept /\ error_hidden d = true /\ error_innerHTML d = []
      else consumed
  end.
Proof.
  intros host textChat imageChat story s Hs prompt run d kept consumed.
  subst kept consumed d run.
  rewrite (generate_guard host textChat imageChat story s Hs). cbv zeta.
  fold prompt.
  destruct (script_of (textChat (sent s) prompt)) as [e|script].
  - unfold finished, cleared. page_simpl. repeat split; auto.
  - destruct (no_panels host script).
    + unfold finished, cleared. page_simpl. repeat split; auto.
    + destruct (Part001.iterate (script_panels script)) as [elements|e].
      2:{ cbn [fst snd dom]. page_simpl. split; reflexivity. }
      match goal with
      | |- context [Part001.for_panels host imageChat script elements 0 ?s2] =>
          pose proof (for_panels_page host imageChat script elements 0 s2) as P
      end.
      cbv zeta in P. destruct P as (P1 & P2 & P3 & P4 & _).
      destruct (Part001.for_panels host imageChat script elements 0 _)
        as [[u|e] s3]; cbn [fst snd] in *; unfold finished, cleared in *; page_simpl;
        rewrite P2, P4; split; reflexivity.
Qed.

(** X7, witness: a reply that is no JSON, a script without panels, and a
    script whose [panels] is a number. *)
Lemma story_stays_until_the_panel_loop_witness :
  let typed := {| dom := set_userInput_value (lit "A cat naps.") (dom fresh_page);
                  sent := [] |} in
  let panels_5 := lit "{" ++ dquote ++ lit "panels" ++ dquote ++ lit ":5}" in
  userInput_value
    (dom (snd (Part001.generate sample_host (Some (answers (lit "no script")))
                 (Some (always [two_pairs])) (lit "A cat naps.") typed)))
  = lit "A cat naps."
  /\ userInput_value
       (dom (snd (Part001.generate sample_host (Some (answers no_panels_reply))
                    (Some (always [two_pairs])) (lit "A cat naps.") typed)))
     = lit "A cat naps."
  /\ userInput_value
       (dom (snd (Part001.generate sample_host (Some (answers panels_5))
                    (Some (always [two_pairs])) (lit "A cat naps.") typed)))
     = [].
Proof.
  cbv zeta.
  pose proof (story_stays_until_the_panel_loop sample_host (answers (lit "no script"))
                (always [two_pairs]) (lit "A cat naps.")
                {| dom := set_userInput_value (lit "A cat naps.") (dom fresh_page);
                   sent := [] |}
                ltac:(vm_compute; discriminate)) as H1.
  pose proof (story_stays_until_the_panel_loop sample_host (answers no_panels_reply)
                (always [two_pairs]) (lit "A cat naps.")
                {| dom := set_userInput_value (lit "A cat naps.") (dom fresh_page);
                   sent := [] |}
                ltac:(vm_compute; discriminate)) as H2.
  pose proof (story_stays_until_the_panel_loop sample_host
                (answers (lit "{" ++ dquote ++ lit "panels" ++ dquote ++ lit ":5}"))
                (always [two_pairs]) (lit "A cat naps.")
                {| dom := set_userInput_value (lit "A cat naps.") (dom fresh_page);
                   sent := [] |}
                ltac:(vm_compute; discriminate)) as H3.
  cbv zeta in H1, H2, H3.
  split; [exact (proj1 (proj2 (proj1 H1)))|].
  split; [exact (proj1 (proj2 (proj1 H2)))|exact (proj1 H3)].
Defined.

Section DeclaredScripts.

Variable host : Host.

Lemma rendered_snoc (chat : StreamingChat) (script : json) (p : json) (pre : list json) :
  forall (k : nat) (s s0 s1 : State),
  Part001.for_panel host chat script p (S k) s = (Normal true, s0) ->
  rendered host chat script pre (S k) s0 s1 ->
  rendered host chat script (p :: pre) k s s1.
Proof. intros k s s0 s1 H1 H2. cbn [rendered]. exists s0. split; assumption. Qed.

(** The loop over the panels of a script of the declared shape: every
    panel is rendered, or the loop stops at the first panel whose stream
    throws or delivers no image, with the message of that exception. *)
Lemma for_panels_declared (chat : StreamingChat) (script : json) (all : list json)
    (cd : jsstring) (panels : list json) :
  get_prop (Value script) (lit "panels") = Normal (Value (JArray all)) ->
  get_prop (Value script) (lit "characterDescription") = Normal (Value (JString cd)) ->
  Forall (fun panel => exists t, get_prop (Value panel) (lit "text")
                                  = Normal (Value (JString t))) panels ->
  forall (k : nat) (s : State),
  exists s',
    Part001.for_panels host chat script panels k s = (Normal tt, s')
    /\ ((rendered host chat script panels k s s'
         /\ error_innerHTML (dom s') = error_innerHTML (dom s)
         /\ error_hidden (dom s') = error_hidden (dom s))
        \/ exists pre p post t prompt e s1,
             panels = pre ++ p :: post
             /\ get_prop (Value p) (lit "text") = Normal (Value (JString t))
             /\ Part001.imagePrompt host script p = Normal prompt
             /\ rendered host chat script pre k s s1
             /\ sent s' = sent s1 ++ [(the_imageChat, prompt)]
             /\ slideshow (dom s') = slideshow (dom s1)
             /\ ((forall st, for_await Part001.for_chunk (chat (sent s1) prompt)
                               empty_buffers st = (Throw e, st))
                 \/ (e = Part001.no_image
                     /\ exists b,
                          (forall st, for_await Part001.for_chunk (chat (sent s1) prompt)
                                        empty_buffers st = (Normal b, st))
                          /\ img b = None))
             /\ error_hidden (dom s') = false
             /\ error_innerHTML (dom s')
                = Part001.panel_failed host (k + List.length pre + 1) t e).
Proof.
  intros Hp Hc Hall. induction Hall as [|p rest [t Ht] Hrest IH]; intros k s.
  - exists s. split; [reflexivity|]. left. repeat split.
  - rewrite for_panels_cons.
    pose proof (imagePrompt_typed host script p cd t Hc Ht) as Hi.
    match type of Hi with _ = Normal ?pr => set (prompt := pr) in * end.
    destruct (part001_for_await_pure (chat (sent s) prompt) empty_buffers) as [r Hr].
    rewrite (for_panel_unfold host chat script p (S k) s (Value (JArray all))
               (nat_to_string (List.length all)) prompt (Value (JString t)) t r
               Hp eq_refl Hi Ht eq_refl Hr).
    cbv zeta.
    assert (Hfail : forall e,
      (r = Throw e \/ (e = Part001.no_image /\ exists b, r = Normal b /\ img b = None)) ->
      let s' := {| dom := set_error (Part001.panel_failed host (S k) t e) false
                            (set_status (lit "Generating panel " ++ nat_to_string (S k)
                                         ++ lit " of " ++ nat_to_string (List.length all)
                                         ++ lit "...") false (dom s));
                   sent := sent s ++ [(the_imageChat, prompt)] |} in
      exists s'0,
        (Normal tt, s') = (Normal tt, s'0)
        /\ ((rendered host chat script (p :: rest) k s s'0
             /\ error_innerHTML (dom s'0) = error_innerHTML (dom s)
             /\ error_hidden (dom s'0) = error_hidden (dom s))
            \/ exists pre p0 post t0 prompt0 e0 s1,
                 p :: rest = pre ++ p0 :: post
                 /\ get_prop (Value p0) (lit "text") = Normal (Value (JString t0))
                 /\ Part001.imagePrompt host script p0 = Normal prompt0
                 /\ rendered host chat script pre k s s1
                 /\ sent s'0 = sent s1 ++ [(the_imageChat, prompt0)]
                 /\ slideshow (dom s'0) = slideshow (dom s1)
                 /\ ((forall st, for_await Part001.for_chunk (chat (sent s1) prompt0)
                                   empty_buffers st = (Throw e0, st))
                     \/ (e0 = Part001.no_image
                         /\ exists b,
                              (forall st, for_await Part001.for_chunk
                                            (chat (sent s1) prompt0) empty_buffers st
                                          = (Normal b, st))
                              /\ img b = None))
                 /\ error_hidden (dom s'0) = false
                 /\ error_innerHTML (dom s'0)
                    = Part001.panel_failed host (k + List.length pre + 1) t0 e0)).
    { intros e He s'. exists s'. split; [reflexivity|]. right.
      exists [], p, rest, t, prompt, e, s.
      split; [reflexivity|]. split; [exact Ht|]. split; [exact Hi|].
      split; [reflexivity|]. split; [reflexivity|]. split; [reflexivity|].
      split.
      - destruct He as [->|(-> & b & -> & Hb)]; [left; exact Hr|].
        right. split; [reflexivity|]. exists b. split; assumption.
      - subst s'. page_simpl. split; [reflexivity|].
        cbn [List.length]. replace (k + 0 + 1) with (S k) by lia. reflexivity. }
    destruct r as [b|e].
    + destruct (img b) as [image|] eqn:Himg.
      * match goal with
        | |- context [Part001.for_panels host chat script rest (S k) ?s0] =>
            destruct (IH (S k) s0) as (s' & Hrun & Hout);
            assert (Hturn : Part001.for_panel host chat script p (S k) s = (Normal true, s0))
        end.
        { rewrite (for_panel_unfold host chat script p (S k) s (Value (JArray all))
                     (nat_to_string (List.length all)) prompt (Value (JString t)) t
                     (Normal b) Hp eq_refl Hi Ht eq_refl Hr).
          cbv zeta. rewrite Himg. reflexivity. }
        exists s'. split; [exact Hrun|].
        destruct Hout as [(Hren & He1 & He2)
                         |(pre & p0 & post & t0 & prompt0 & e0 & s1 & H1 & H2 & H3 & H4 & H5
                           & H6 & H7 & H8 & H9)].
        -- left. split; [eapply rendered_snoc; eassumption|].
           split; [rewrite He1|rewrite He2]; reflexivity.
        -- right. exists (p :: pre), p0, post, t0, prompt0, e0, s1.
           split; [rewrite H1; reflexivity|]. split; [exact H2|]. split; [exact H3|].
           split; [eapply rendered_snoc; eassumption|].
           split; [exact H5|]. split; [exact H6|]. split; [exact H7|].
           split; [exact H8|]. rewrite H9. cbn [List.length].
           replace (S k + List.length pre + 1) with (k + S (List.length pre) + 1) by lia.
           reflexivity.
      * apply (Hfail Part001.no_image). right. split; [reflexivity|].
        exists b. split; [reflexivity|exact Himg].
    + apply (Hfail e). left. reflexivity.
Qed.

End DeclaredScripts.

(** X13. In [part_001], a run whose reply parses to a value of the
    declared shape of a [ComicScript] (a string [characterDescription], a
    list [panels] of objects with a string [text]) returns with the input
    enabled. Either the error region is hidden and empty and there is one
    slide per panel; or the run stopped at one panel: the last request is
    the image prompt of that panel, there is one slide per panel before
    it, and the error region shows the Panel N Failed message, with the
    number and the text of that panel, built from the very exception the
    stream of that request threw, or from the missing-image error when
    that stream ended without an image; the message includes the string
    conversion of that exception. *)
Theorem declared_scripts_always_return :
  forall (host : Host) (textChat : TextChat) (imageChat : StreamingChat)
         (story : jsstring) (s : State) (script : json),
  trim story <> [] ->
  script_of (textChat (sent s) (Part001.scriptwriterPrompt story)) = inr script ->
  is_ComicScript script ->
  let run := Part001.generate host (Some textChat) (Some imageChat) story s in
  let d := dom (snd run) in
  fst run = Normal tt
  /\ userInput_disabled d = false
  /\ ((error_hidden d = true /\ error_innerHTML d = []
       /\ List.length (slideshow d) = List.length (panels_of script))
      \/ exists pre p post t prompt e past,
           panels_of script = pre ++ p :: post
           /\ get_prop (Value p) (lit "text") = Normal (Value (JString t))
           /\ Part001.imagePrompt host script p = Normal prompt
           /\ sent (snd run) = past ++ [(the_imageChat, prompt)]
           /\ List.length (slideshow d) = List.length pre
           /\ ((forall st, for_await Part001.for_chunk (imageChat past prompt)
                             empty_buffers st = (Throw e, st))
               \/ (e = Part001.no_image
                   /\ exists b,
                        (forall st, for_await Part001.for_chunk (imageChat past prompt)
                                      empty_buffers st = (Normal b, st))
                        /\ img b = None))
           /\ error_hidden d = false
           /\ error_innerHTML d = Part001.panel_failed host (List.length pre + 1) t e
           /\ includes (exn_to_string host e) (error_innerHTML d)).
Proof.
  intros host textChat imageChat story s script Hs Hso (cd & panels & Hc & Hp & Hall)
         run d.
  subst d run.
  rewrite (generate_guard host textChat imageChat story s Hs). cbv zeta. rewrite Hso.
  destruct (get_prop_value_object script _ _ Hp) as [ms ->].
  assert (Hpo : panels_of (JObject ms) = panels).
  { unfold panels_of. rewrite Hp. reflexivity. }
  assert (Hsp : script_panels (JObject ms) = Value (JArray panels)).
  { unfold script_panels. rewrite Hp. reflexivity. }
  unfold no_panels. rewrite Hsp, Hpo.
  cbn [truthy negb orb Part001.length_is_zero Part001.iterate].
  destruct (Nat.eqb (List.length panels) 0) eqn:Hz.
  - destruct panels; [|discriminate].
    unfold finished, cleared. page_simpl.
    split; [reflexivity|]. split; [reflexivity|]. left. repeat split.
  - 
    match goal with
    | |- context [Part001.for_panels host imageChat (JObject ms) panels 0 ?s2] =>
        destruct (for_panels_declared host imageChat (JObject ms) panels cd panels
                    Hp Hc Hall 0 s2) as (s' & Hrun & Hout);
        rewrite Hrun
    end.
    unfold finished. page_simpl.
    split; [reflexivity|]. split; [reflexivity|].
    destruct Hout as [(Hren & He1 & He2)
                     |(pre & p & post & t & prompt & e & s1 & H1 & H2 & H3 & H4 & H5
                       & H6 & H7 & H8 & H9)].
    + left. unfold cleared in *. page_simpl.
      split; [exact He2|]. split; [exact He1|].
      rewrite (rendered_slides host imageChat (JObject ms) panels 0 _ s' Hren).
      page_simpl. reflexivity.
    + right. exists pre, p, post, t, prompt, e, (sent s1).
      split; [exact H1|]. split; [exact H2|]. split; [exact H3|]. split; [exact H5|].
      split.
      { rewrite H6, (rendered_slides host imageChat (JObject ms) pre 0 _ s1 H4).
        unfold cleared. page_simpl. reflexivity. }
      split; [exact H7|]. split; [exact H8|]. split; [exact H9|].
      rewrite H9. apply panel_failed_names.
Qed.

(** X13, witness: a script of three panels, the second of which gets no image. *)
Lemma declared_scripts_always_return_witness :
  let run := Part001.generate sample_host (Some (answers three_panels))
               (Some first_image_only) (lit "A cat naps.") fresh_page in
  fst run = Normal tt /\ userInput_disabled (dom (snd run)) = false.
Proof.
  cbv zeta.
  destruct (declared_scripts_always_return sample_host (answers three_panels)
              first_image_only (lit "A cat naps.") fresh_page three_panels_script
              ltac:(vm_compute; discriminate) ltac:(vm_compute; reflexivity)
              ltac:(exists (lit "a grey cat"),
                           [panel_value (lit "one"); panel_value (lit "two");
                            panel_value (lit "three")];
                    repeat split; repeat constructor; eexists; reflexivity))
    as (H1 & H2 & _).
  split; [exact H1|exact H2].
Defined.

(* ================================================================== *)
(** * Further properties: fences around the script *)
(* ================================================================== *)

Lemma replace_trailing_fence_last (y : jsstring) (c : jschar) :
  c <> backtick -> replace_trailing_fence (y ++ [c]) = y ++ [c].
Proof.
  intro Hc. destruct (replace_trailing_fence_cases (y ++ [c])) as [H|[x H]]; [exact H|].
  exfalso. apply Hc. unfold fence in H.
  change (x ++ [backtick; backtick; backtick])
    with (x ++ [backtick; backtick] ++ [backtick]) in H.
  rewrite app_assoc in H. apply app_inj_tail in H. apply H.
Qed.

Lemma json_ws_not_backtick (c : jschar) : is_json_ws c = true -> c <> backtick.
Proof. intros H ->. discriminate. Qed.

Lemma json_ws_js_space (c : jschar) : is_json_ws c = true -> is_js_space c = true.
Proof. intro H. destruct (json_ws_cases c H) as [-> | [-> | [-> | ->]]]; reflexivity. Qed.

Lemma lex_go_ws_prefix (w s : jsstring) (acc : list JSON.token) :
  Forall (fun c => is_json_ws c = true) w ->
  JSON.lex_go JSON.LDefault acc (w ++ s) = JSON.lex_go JSON.LDefault acc s.
Proof.
  induction 1 as [|c w Hc _ IH]; [reflexivity|].
  cbn [app JSON.lex_go JSON.lex_step]. unfold JSON.start. rewrite Hc. exact IH.
Qed.

Lemma parse_fence_then_ws (x w : jsstring) :
  Forall (fun c => is_json_ws c = true) w -> JSON.parse (x ++ fence ++ w) = None.
Proof.
  intro Hw. unfold JSON.parse, JSON.lex.
  rewrite app_assoc, (lex_go_ws_suffix _ _ Hw), lex_go_fence_suffix. reflexivity.
Qed.

Lemma parse_ws_then_backtick (w z : jsstring) :
  Forall (fun c => is_json_ws c = true) w -> JSON.parse (w ++ backtick :: z) = None.
Proof.
  intro Hw. unfold JSON.parse, JSON.lex. rewrite (lex_go_ws_prefix _ _ _ Hw). reflexivity.
Qed.

Lemma parse_ws_only (w : jsstring) :
  Forall (fun c => is_json_ws c = true) w -> JSON.parse w = None.
Proof.
  intro Hw. unfold JSON.parse, JSON.lex. rewrite (lex_go_ws_only _ Hw). reflexivity.
Qed.

Lemma replace_leading_fence_keeps_tail (x w : jsstring) :
  w <> [] -> Forall (fun c => is_json_ws c = true) w ->
  exists x', replace_leading_fence (x ++ fence ++ w) = x' ++ fence ++ w.
Proof.
  intros Hne Hw. unfold replace_leading_fence.
  destruct (strip_prefix (fence ++ lit "json") (x ++ fence ++ w)) as [r|] eqn:H;
    [|exists x; reflexivity].
  apply strip_prefix_Some in H.
  destruct x as [|c1 [|c2 [|c3 [|c4 [|c5 [|c6 [|c7 x]]]]]]];
    cbn in H; try (injection H; intros; subst; discriminate).
  - destruct w as [|c w]; [contradiction|].
    injection H as -> _. inversion Hw; subst. discriminate.
  - injection H as -> -> -> -> -> -> -> <-.
    exists (drop_while is_js_space x).
    change (fence ++ w) with (backtick :: [backtick; backtick] ++ w).
    apply drop_while_app_stop. reflexivity.
Qed.

Lemma script_of_misplaced_fence :
  forall (x w rest : jsstring),
  Forall (fun c => is_json_ws c = true) w ->
  (w <> [] ->
   script_of (Normal (x ++ fence ++ w))
   = inl (SyntaxError (Part001.clean (x ++ fence ++ w))))
  /\ (strip_prefix (fence ++ lit "json") (w ++ fence ++ rest) = None ->
      script_of (Normal (w ++ fence ++ rest))
      = inl (SyntaxError (Part001.clean (w ++ fence ++ rest)))).
Proof.
  intros x w rest Hw. split.
  - intro Hne.
    assert (Hp : JSON.parse (Part001.clean (x ++ fence ++ w)) = None).
    { unfold Part001.clean.
      destruct (replace_leading_fence_keeps_tail x w Hne Hw) as [x' ->].
      destruct (exists_last Hne) as (w' & c & ->).
      assert (Hc : c <> backtick).
      { apply json_ws_not_backtick.
        apply Forall_app in Hw. destruct Hw as [_ Hc]. inversion Hc; assumption. }
      rewrite !app_assoc, (replace_trailing_fence_last _ c Hc), <- !app_assoc.
      apply parse_fence_then_ws, Hw. }
    unfold script_of.
    destruct (x ++ fence ++ w) as [|c t] eqn:E.
    { destruct x; discriminate. }
    rewrite Hp. reflexivity.
  - intro Hs.
    assert (Hp : JSON.parse (Part001.clean (w ++ fence ++ rest)) = None).
    { unfold Part001.clean, replace_leading_fence. rewrite Hs.
      destruct (replace_trailing_fence_cases (w ++ fence ++ rest)) as [->|[z Hz]].
      - apply parse_ws_then_backtick, Hw.
      - rewrite Hz, replace_trailing_fence_app.
        assert (Hlen : List.length z = List.length w + List.length rest).
        { apply (f_equal (@List.length _)) in Hz. rewrite !length_app in Hz.
          cbn [List.length fence] in Hz. lia. }
        assert (Hz' : z = firstn (List.length z) (w ++ fence ++ rest)).
        { rewrite Hz, firstn_app, Nat.sub_diag, firstn_all, firstn_O, app_nil_r.
          reflexivity. }
        rewrite Hz', Hlen, firstn_app, firstn_all2 by lia.
        replace (List.length w + List.length rest - List.length w)
          with (List.length rest) by lia.
        destruct rest as [|r rest].
        + cbn [List.length firstn]. rewrite app_nil_r. apply parse_ws_only, Hw.
        + cbn [List.length firstn fence app]. apply parse_ws_then_backtick, Hw. }
    unfold script_of.
    destruct (w ++ fence ++ rest) as [|c t] eqn:E.
    { destruct w; discriminate. }
    rewrite Hp. reflexivity.
Qed.

Lemma generateScript_script_of (host : Host) (chat : TextChat) (story : jsstring) (s : State) :
  let prompt := Part001.scriptwriterPrompt story in
  let s1 := {| dom := dom s; sent := sent s ++ [(the_textChat, prompt)] |} in
  Part001.generateScript host (Some chat) story s =
  match script_of (chat (sent s) prompt) with
  | inl e => (Normal JNull,
              {| dom := set_error (Part001.scriptwriting_failed host e) false (dom s);
                 sent := sent s1 |})
  | inr script => (Normal script, s1)
  end.
Proof.
  cbv zeta. rewrite generateScript_run. cbv zeta. unfold script_of.
  destruct (chat (sent s) (Part001.scriptwriterPrompt story)) as [[|c t]|e]; try reflexivity.
  destruct (JSON.parse (Part001.clean (c :: t))); reflexivity.
Qed.

(** X8. Replies with a fence the two replacements do not remove are
    rejected by [generateScript]: a reply whose closing fence is followed
    by white space (a final newline), and a reply that has a fence after
    leading white space or without the [json] tag right after it. The
    cleaned text then fails to parse, whatever is between the fences, and
    the Scriptwriting Failed message with that [SyntaxError] is shown. *)
Theorem misplaced_fences_are_rejected :
  forall (host : Host) (chat : TextChat) (story : jsstring) (s : State)
         (x w rest : jsstring),
  Forall (fun c => is_json_ws c = true) w ->
  let prompt := Part001.scriptwriterPrompt story in
  let rejected (reply : jsstring) :=
    Part001.generateScript host (Some chat) story s
    = (Normal JNull,
       {| dom := set_error (Part001.scriptwriting_failed host
                              (SyntaxError (Part001.clean reply))) false (dom s);
          sent := sent s ++ [(the_textChat, prompt)] |}) in
  (w <> [] ->
   chat (sent s) prompt = Normal (x ++ fence ++ w) ->
   rejected (x ++ fence ++ w))
  /\ (strip_prefix (fence ++ lit "json") (w ++ fence ++ rest) = None ->
      chat (sent s) prompt = Normal (w ++ fence ++ rest) ->
      rejected (w ++ fence ++ rest)).
Proof.
  intros host chat story s x w rest Hw prompt rejected. subst rejected.
  destruct (script_of_misplaced_fence x w rest Hw) as [HA HB].
  split.
  - intros Hne Hc. rewrite generateScript_script_of. cbv zeta. fold prompt.
    rewrite Hc, (HA Hne). reflexivity.
  - intros Hs Hc. rewrite generateScript_script_of. cbv zeta. fold prompt.
    rewrite Hc, (HB Hs). reflexivity.
Qed.

(** X8, witness: a fenced script followed by a newline. *)
Lemma misplaced_fences_are_rejected_witness :
  let reply := fence ++ lit "json" ++ nl ++ three_panels ++ nl ++ fence ++ nl in
  error_hidden (dom (snd (Part001.generateScript sample_host (Some (answers reply))
                            (lit "A cat naps.") fresh_page))) = false.
Proof.
  cbv zeta.
  rewrite (proj1 (misplaced_fences_are_rejected sample_host
                    (answers (fence ++ lit "json" ++ nl ++ three_panels ++ nl ++ fence ++ nl))
                    (lit "A cat naps.") fresh_page
                    (fence ++ lit "json" ++ nl ++ three_panels ++ nl) nl []
                    ltac:(repeat constructor))
            ltac:(discriminate) ltac:(vm_compute; reflexivity)).
  reflexivity.
Defined.

(* ================================================================== *)
(** * Further properties: initialisation, listeners and sessions *)
(* ================================================================== *)

Lemma part000_generate_sent (host : Host) (chat : option StreamingChat)
    (message : jsstring) (s : State) :
  sent (snd (Part000.generate host chat message s))
  = sent s ++ match chat, trim message with
              | Some _, _ :: _ => [(the_chat, message ++ Part000.additionalInstructions)]
              | _, _ => []
              end.
Proof.
  destruct chat as [c|]; [|rewrite app_nil_r; reflexivity].
  destruct (trim message) as [|x t] eqn:Hm.
  - unfold Part000.generate. rewrite Hm, app_nil_r. reflexivity.
  - assert (Hne : trim message <> []) by (rewrite Hm; discriminate).
    destruct (part000_generate_run host c message s Hne) as (r & pairs & _ & H & _).
    exact H.
Qed.

Lemma index_generate_sent (host : Host) (chat : StreamingChat)
    (message : jsstring) (s : State) :
  sent (snd (Index.generate host chat message s))
  = sent s ++ [(the_chat, message ++ Index.additionalInstructions)].
Proof.
  destruct (index_for_await_appends host
              (chat (sent s) (message ++ Index.additionalInstructions)) empty_buffers)
    as (r & pairs & Hr).
  unfold Index.generate.
  cbv beta iota zeta delta [bind update try_catch sendMessageStream ret lift].
  cbn [dom sent]. rewrite Hr.
  destruct r as [b|e].
  - destruct (img b) as [image|].
    + unfold Index.addSlide. cbv beta iota zeta delta [bind update].
      cbn [snd sent]. apply shown_all_sent.
    + cbn [snd sent]. apply shown_all_sent.
  - destruct (parseError_total (exn_to_string host e)) as [msg Hmsg]. rewrite Hmsg.
    destruct (to_string host msg) as [rendered|e']; cbn [snd sent]; apply shown_all_sent.
Qed.

Lemma part001_generate_sent (host : Host) (textChat : option TextChat)
    (imageChat : option StreamingChat) (story : jsstring) (s : State) :
  exists reqs,
    sent (snd (Part001.generate host textChat imageChat story s)) = sent s ++ reqs
    /\ match textChat, imageChat, trim story with
       | Some _, Some _, _ :: _ =>
           exists more,
             reqs = (the_textChat, Part001.scriptwriterPrompt story) :: more
             /\ Forall (fun q => fst q = the_imageChat) more
       | _, _, _ => reqs = []
       end.
Proof.
  destruct textChat as [t|]; [|exists []; rewrite app_nil_r; split; reflexivity].
  destruct imageChat as [i|]; [|exists []; rewrite app_nil_r; split; reflexivity].
  destruct (trim story) as [|c u] eqn:Hs.
  { exists []. unfold Part001.generate. rewrite Hs, app_nil_r. split; reflexivity. }
  assert (Hne : trim story <> []) by (rewrite Hs; discriminate).
  pose proof (generate_run host t i story s Hne) as R. cbv zeta in R.
  destruct (script_of (t (sent s) (Part001.scriptwriterPrompt story))) as [e|script].
  - rewrite R. eexists. split; [reflexivity|]. exists []. split; [reflexivity|constructor].
  - destruct R as [[_ R]|[[_ R]|R]].
    + rewrite R. eexists. split; [reflexivity|]. exists []. split; [reflexivity|constructor].
    + rewrite R. eexists. split; [reflexivity|]. exists []. split; [reflexivity|constructor].
    + match type of R with
      | _ = match Part001.for_panels _ _ _ ?els 0 ?s2 with _ => _ end =>
          pose proof (for_panels_requests host i script els 0 s2) as Q
      end.
      cbv zeta in Q. destruct Q as (reqs & slides & Q1 & Q2 & _).
      rewrite R.
      destruct (Part001.for_panels host i script (panels_of script) 0 _) as [[u0|e] s3];
        cbn [fst snd] in *; unfold finished; cbn [sent] in *; rewrite Q1, <- app_assoc;
        (eexists; split; [reflexivity|]); exists reqs; split; auto.
Qed.

Section Sessions000.

Variable host : Host.
Variable sdk : SDK.
Variable examples_element : bool.

Lemma initializeGenAI000_cases (k : jsstring) (a : App Part000Page.Globals) :
  let a' := snd (Part000Page.initializeGenAI sdk k a) in
  (accepted000 sdk k
   /\ (exists c, chats_create sdk k Part000Page.image_model = Normal c
                 /\ globals a' = {| Part000Page.ai := Some k; Part000Page.chat := c |})
   /\ gemini_api_key a' = Some k
   /\ screen a' = show_mainContent (screen a)
   /\ page a' = {| dom := userInput_focus (dom (page a)); sent := sent (page a) |})
  \/ (~ accepted000 sdk k
      /\ apiKeyScreen_hidden (screen a') = apiKeyScreen_hidden (screen a)
      /\ mainContent_hidden (screen a') = mainContent_hidden (screen a)
      /\ apiKeyInput_value (screen a') = apiKeyInput_value (screen a)
      /\ gemini_api_key a' = gemini_api_key a
      /\ Part000Page.chat (globals a') = Part000Page.chat (globals a)
      /\ page a' = page a).
Proof.
  cbv zeta. unfold Part000Page.initializeGenAI, accepted000.
  destruct (new_GoogleGenAI sdk k) as [[]|e1].
  2:{ right. split; [intros (H & _); discriminate|].
      destruct (exn_message sdk e1); repeat split. }
  destruct (models_list sdk k) as [[]|e2].
  2:{ right. split; [intros (_ & H & _); discriminate|].
      destruct (exn_message sdk e2); repeat split. }
  destruct (chats_create sdk k Part000Page.image_model) as [c|e3].
  2:{ right. split; [intros (_ & _ & c & H); discriminate|].
      destruct (exn_message sdk e3); repeat split. }
  left. repeat split; eauto.
Qed.

Lemma initializeGenAI000_inv (stored : option jsstring) (k : jsstring)
    (a : App Part000Page.Globals) :
  k <> [] -> invariant000 sdk stored a ->
  invariant000 sdk stored (snd (Part000Page.initializeGenAI sdk k a)).
Proof.
  intros Hk (I1 & I2 & I3).
  destruct (initializeGenAI000_cases k a)
    as [(Hacc & (c & Hc & Hg) & Hkey & Hscr & Hpage)
       |(Hn & Hs1 & Hs2 & _ & Hkey & Hchat & Hpage)];
    cbv zeta in *; unfold invariant000, initialised.
  - rewrite Hkey, Hscr, Hpage. cbn [dom sent show_mainContent apiKeyScreen_hidden
                                     mainContent_hidden].
    split; [|split]; auto.
    + intros _. repeat split. exists k. repeat split; auto; apply Hacc.
    + right. exists k. split; [reflexivity|exact Hacc].
  - rewrite Hkey, Hs1, Hs2, Hchat, Hpage.
    split; [|split]; auto.
Qed.

Lemma generate000_inv (stored : option jsstring) (v : jsstring)
    (a : App Part000Page.Globals) :
  invariant000 sdk stored a ->
  invariant000 sdk stored (snd (Part000Page.generate host (trim v) a)).
Proof.
  intros (I1 & I2 & I3).
  unfold Part000Page.generate, on_page.
  pose proof (part000_generate_sent host
                (option_map chat_sendMessageStream (Part000Page.chat (globals a)))
                (trim v) (page a)) as Hsent.
  destruct (Part000.generate host _ (trim v) (page a)) as [r s'].
  cbn [snd] in *. unfold invariant000, initialised.
  cbn [set_page page screen gemini_api_key globals].
  split; [|split]; auto.
  - intros [Hc|[Hs|Hm]]; [apply I1; left; exact Hc| |apply I1; right; right; exact Hm].
    destruct (Part000Page.chat (globals a)) as [c|] eqn:Hchat.
    + apply I1. left. discriminate.
    + cbn [option_map] in Hsent. rewrite app_nil_r in Hsent.
      apply I1. right; left. rewrite <- Hsent. exact Hs.
  - rewrite Hsent. apply Forall_app. split; [exact I2|].
    destruct (option_map chat_sendMessageStream (Part000Page.chat (globals a)));
      [|constructor].
    destruct (trim (trim v)) as [|x t] eqn:Ht; constructor; [|constructor].
    split; [reflexivity|]. exists v. split; [|reflexivity].
    intro Hv. rewrite Hv in Ht. discriminate.
Qed.

Lemma handle000_inv (stored : option jsstring) (ev : Event) (a : App Part000Page.Globals) :
  invariant000 sdk stored a ->
  invariant000 sdk stored (Part000Page.handle host sdk examples_element ev a).
Proof.
  intro I. destruct ev as [v|v|e| |content| ]; cbn [Part000Page.handle].
  - exact I.
  - exact I.
  - cbn. unfold Part000Page.on_keydown.
    destruct (jsstring_eqb (event_key e) (lit "Enter") && negb (event_shiftKey e));
      [|exact I].
    cbn [snd]. apply generate000_inv, I.
  - cbn. unfold Part000Page.on_save_click.
    destruct (trim (apiKeyInput_value (screen a))) as [|c k] eqn:Hk; [exact I|].
    apply initializeGenAI000_inv; [discriminate|exact I].
  - exact I.
  - exact I.
Qed.

Lemma session000_inv (stored : option jsstring) (evs : list Event) :
  forall a, invariant000 sdk stored a ->
            invariant000 sdk stored
              (session (Part000Page.handle host sdk examples_element) evs a).
Proof.
  induction evs as [|ev evs IH]; intros a I; [exact I|].
  cbn [session fold_left]. apply IH, handle000_inv, I.
Qed.

End Sessions000.

Section Sessions001.

Variable host : Host.
Variable sdk : SDK.
Variable examples_element : bool.
Hypothesis creates : creates_chats sdk.

Lemma initializeGenAI001_cases (k : jsstring) (a : App Part001Page.Globals) :
  let a' := snd (Part001Page.initializeGenAI sdk k a) in
  (accepted001 sdk k
   /\ (exists t i, chats_create sdk k Part001Page.text_model = Normal (Some t)
                   /\ chats_create sdk k Part001Page.image_model = Normal (Some i)
                   /\ globals a' = {| Part001Page.textChat := Some t;
                                      Part001Page.imageChat := Some i |})
   /\ gemini_api_key a' = Some k
   /\ screen a' = show_mainContent (screen a)
   /\ page a' = {| dom := userInput_focus (dom (page a)); sent := sent (page a) |})
  \/ (~ accepted001 sdk k
      /\ apiKeyScreen_hidden (screen a') = apiKeyScreen_hidden (screen a)
      /\ mainContent_hidden (screen a') = mainContent_hidden (screen a)
      /\ apiKeyInput_value (screen a') = apiKeyInput_value (screen a)
      /\ gemini_api_key a' = gemini_api_key a
      /\ Part001Page.imageChat (globals a') = Part001Page.imageChat (globals a)
      /\ page a' = page a).
Proof.
  cbv zeta. unfold Part001Page.initializeGenAI, accepted001.
  destruct (new_GoogleGenAI sdk k) as [[]|e1].
  2:{ right. split; [intros (H & _); discriminate|].
      destruct (exn_message sdk e1); repeat split. }
  destruct (chats_create sdk k Part001Page.text_model) as [t|e2] eqn:Ht.
  2:{ right. split; [intros (_ & (t & H) & _); discriminate|].
      destruct (exn_message sdk e2); repeat split. }
  destruct (chats_create sdk k Part001Page.image_model) as [i|e3] eqn:Hi.
  2:{ right. split; [intros (_ & _ & (i & H)); discriminate|].
      destruct (exn_message sdk e3); repeat split. }
  destruct t as [t|]; [|exfalso; exact (creates _ _ _ Ht eq_refl)].
  destruct i as [i|]; [|exfalso; exact (creates _ _ _ Hi eq_refl)].
  left. repeat split; eauto.
Qed.

Lemma initializeGenAI001_inv (stored : option jsstring) (k : jsstring)
    (a : App Part001Page.Globals) :
  k <> [] -> invariant001 sdk stored a ->
  invariant001 sdk stored (snd (Part001Page.initializeGenAI sdk k a)).
Proof.
  intros Hk (I1 & I2 & I3).
  destruct (initializeGenAI001_cases k a)
    as [(Hacc & (t & i & Ht & Hi & Hg) & Hkey & Hscr & Hpage)
       |(Hn & Hs1 & Hs2 & _ & Hkey & Hchat & Hpage)];
    cbv zeta in *; unfold invariant001, initialised.
  - rewrite Hkey, Hscr, Hpage. cbn [dom sent show_mainContent apiKeyScreen_hidden
                                     mainContent_hidden].
    split; [|split]; auto.
    + intros _. repeat split. exists k. repeat split; auto; apply Hacc.
    + right. exists k. split; [reflexivity|exact Hacc].
  - rewrite Hkey, Hs1, Hs2, Hchat, Hpage.
    split; [|split]; auto.
Qed.

Lemma generate001_inv (stored : option jsstring) (v : jsstring)
    (a : App Part001Page.Globals) :
  invariant001 sdk stored a ->
  invariant001 sdk stored (snd (Part001Page.generate host (trim v) a)).
Proof.
  intros (I1 & I2 & I3).
  unfold Part001Page.generate, on_page.
  destruct (part001_generate_sent host
              (option_map chat_sendMessage (Part001Page.textChat (globals a)))
              (option_map chat_sendMessageStream (Part001Page.imageChat (globals a)))
              (trim v) (page a)) as (reqs & Hsent & Hreqs).
  destruct (Part001.generate host _ _ (trim v) (page a)) as [r s'].
  cbn [snd] in *. unfold invariant001, initialised.
  cbn [set_page page screen gemini_api_key globals].
  split; [|split]; auto.
  - intros [Hc|[Hs|Hm]]; [apply I1; left; exact Hc| |apply I1; right; right; exact Hm].
    destruct (Part001Page.imageChat (globals a)) as [c|] eqn:Hchat.
    + apply I1. left. discriminate.
    + cbn [option_map] in Hreqs.
      assert (reqs = []) as ->.
      { destruct (option_map chat_sendMessage (Part001Page.textChat (globals a)));
          exact Hreqs. }
      rewrite app_nil_r in Hsent. apply I1. right; left. rewrite <- Hsent. exact Hs.
  - rewrite Hsent. apply Forall_app. split; [exact I2|].
    destruct (option_map chat_sendMessage (Part001Page.textChat (globals a)));
      [|subst reqs; constructor].
    destruct (option_map chat_sendMessageStream (Part001Page.imageChat (globals a)));
      [|subst reqs; constructor].
    destruct (trim (trim v)) as [|x u] eqn:Ht; [subst reqs; constructor|].
    destruct Hreqs as (more & -> & Hmore). constructor.
    + intros _. exists v. split; [|reflexivity].
      intro Hv. rewrite Hv in Ht. discriminate.
    + eapply Forall_impl; [|exact Hmore]. intros q Hq Hq'. rewrite Hq in Hq'. discriminate.
Qed.

Lemma handle001_inv (stored : option jsstring) (ev : Event) (a : App Part001Page.Globals) :
  invariant001 sdk stored a ->
  invariant001 sdk stored (Part001Page.handle host sdk examples_element ev a).
Proof.
  intro I. destruct ev as [v|v|e| |content| ]; cbn [Part001Page.handle].
  - exact I.
  - exact I.
  - cbn. unfold Part001Page.on_keydown.
    destruct (jsstring_eqb (event_key e) (lit "Enter") && negb (event_shiftKey e));
      [|exact I].
    cbn [snd]. apply generate001_inv, I.
  - cbn. unfold Part001Page.on_save_click.
    destruct (trim (apiKeyInput_value (screen a))) as [|c k] eqn:Hk; [exact I|].
    apply initializeGenAI001_inv; [discriminate|exact I].
  - exact I.
  - exact I.
Qed.

Lemma session001_inv (stored : option jsstring) (evs : list Event) :
  forall a, invariant001 sdk stored a ->
            invariant001 sdk stored
              (session (Part001Page.handle host sdk examples_element) evs a).
Proof.
  induction evs as [|ev evs IH]; intros a I; [exact I|].
  cbn [session fold_left]. apply IH, handle001_inv, I.
Qed.

End Sessions001.

Lemma drop_while_idempotent (f : jschar -> bool) (s : jsstring) :
  drop_while f (drop_while f s) = drop_while f s.
Proof.
  induction s as [|c s IH]; [reflexivity|].
  cbn [drop_while]. destruct (f c) eqn:E; [exact IH|].
  cbn [drop_while]. rewrite E. reflexivity.
Qed.

Lemma drop_while_head (f : jschar -> bool) (s : jsstring) (c : jschar) (t : jsstring) :
  drop_while f s = c :: t -> f c = false.
Proof.
  induction s as [|x s IH]; [discriminate|].
  cbn [drop_while]. destruct (f x) eqn:E; [exact IH|].
  intro H. injection H as <- _. exact E.
Qed.

Lemma trim_idempotent (s : jsstring) : trim (trim s) = trim s.
Proof.
  unfold trim.
  destruct (drop_while is_js_space s) as [|c t] eqn:Ht; [reflexivity|].
  pose proof (drop_while_head _ _ _ _ Ht) as Hc.
  cbn [rev]. rewrite (drop_while_app_stop is_js_space (rev t) c [] Hc).
  rewrite rev_app_distr. cbn [rev app drop_while]. rewrite Hc.
  cbn [rev]. rewrite rev_involutive.
  rewrite (drop_while_app_stop is_js_space _ c [] Hc), drop_while_idempotent.
  rewrite rev_app_distr. reflexivity.
Qed.





Section StoredKey.

Variable host : Host.
Variable sdk : SDK.
Variable examples_element : bool.

Lemma handle000_ignores_the_stored_key (ev : Event) (a a' : App Part000Page.Globals) :
  page a = page a' -> screen a = screen a' -> globals a = globals a' ->
  let b := Part000Page.handle host sdk examples_element ev a in
  let b' := Part000Page.handle host sdk examples_element ev a' in
  page b = page b' /\ screen b = screen b' /\ globals b = globals b'.
Proof.
  destruct a as [p sc k g], a' as [p' sc' k' g']. cbn [page screen globals].
  intros <- <- <-. cbv zeta.
  destruct ev as [v|v|e| |content| ]; cbn [Part000Page.handle].
  - repeat split.
  - repeat split.
  - cbn. unfold Part000Page.on_keydown.
    destruct (jsstring_eqb (event_key e) (lit "Enter") && negb (event_shiftKey e));
      [|repeat split].
    cbn [snd]. unfold Part000Page.generate, on_page. cbn [page globals].
    destruct (Part000.generate host _ _ p) as [r p1]. repeat split.
  - cbn. unfold Part000Page.on_save_click. cbn [screen].
    destruct (trim (apiKeyInput_value sc)) as [|c t]; [repeat split|].
    unfold Part000Page.initializeGenAI.
    destruct (new_GoogleGenAI sdk (c :: t)) as [[]|e1];
      [|destruct (exn_message sdk e1); repeat split].
    destruct (models_list sdk (c :: t)) as [[]|e2];
      [|destruct (exn_message sdk e2); repeat split].
    destruct (chats_create sdk (c :: t) Part000Page.image_model) as [ch|e3];
      [|destruct (exn_message sdk e3); repeat split].
    repeat split.
  - repeat split.
  - repeat split.
Qed.

Lemma handle001_ignores_the_stored_key (ev : Event) (a a' : App Part001Page.Globals) :
  page a = page a' -> screen a = screen a' -> globals a = globals a' ->
  let b := Part001Page.handle host sdk examples_element ev a in
  let b' := Part001Page.handle host sdk examples_element ev a' in
  page b = page b' /\ screen b = screen b' /\ globals b = globals b'.
Proof.
  destruct a as [p sc k g], a' as [p' sc' k' g']. cbn [page screen globals].
  intros <- <- <-. cbv zeta.
  destruct ev as [v|v|e| |content| ]; cbn [Part001Page.handle].
  - repeat split.
  - repeat split.
  - cbn. unfold Part001Page.on_keydown.
    destruct (jsstring_eqb (event_key e) (lit "Enter") && negb (event_shiftKey e));
      [|repeat split].
    cbn [snd]. unfold Part001Page.generate, on_page. cbn [page globals].
    destruct (Part001.generate host _ _ _ p) as [r p1]. repeat split.
  - cbn. unfold Part001Page.on_save_click. cbn [screen].
    destruct (trim (apiKeyInput_value sc)) as [|c t]; [repeat split|].
    unfold Part001Page.initializeGenAI.
    destruct (new_GoogleGenAI sdk (c :: t)) as [[]|e1];
      [|destruct (exn_message sdk e1); repeat split].
    destruct (chats_create sdk (c :: t) Part001Page.text_model) as [tc|e2];
      [|destruct (exn_message sdk e2); repeat split].
    destruct (chats_create sdk (c :: t) Part001Page.image_model) as [ic|e3];
      [|destruct (exn_message sdk e3); repeat split].
    destruct tc, ic; try (destruct (exn_message sdk _)); repeat split.
  - repeat split.
  - repeat split.
Qed.

Lemma session000_ignores_the_stored_key (evs : list Event) :
  forall a a' : App Part000Page.Globals,
  page a = page a' -> screen a = screen a' -> globals a = globals a' ->
  let b := session (Part000Page.handle host sdk examples_element) evs a in
  let b' := session (Part000Page.handle host sdk examples_element) evs a' in
  page b = page b' /\ screen b = screen b' /\ globals b = globals b'.
Proof.
  induction evs as [|ev evs IH]; intros a a' Hp Hs Hg; [repeat split; assumption|].
  cbn [session fold_left].
  destruct (handle000_ignores_the_stored_key ev a a' Hp Hs Hg) as (H1 & H2 & H3).
  apply IH; assumption.
Qed.

Lemma session001_ignores_the_stored_key (evs : list Event) :
  forall a a' : App Part001Page.Globals,
  page a = page a' -> screen a = screen a' -> globals a = globals a' ->
  let b := session (Part001Page.handle host sdk examples_element) evs a in
  let b' := session (Part001Page.handle host sdk examples_element) evs a' in
  page b = page b' /\ screen b = screen b' /\ globals b = globals b'.
Proof.
  induction evs as [|ev evs IH]; intros a a' Hp Hs Hg; [repeat split; assumption|].
  cbn [session fold_left].
  destruct (handle001_ignores_the_stored_key ev a a' Hp Hs Hg) as (H1 & H2 & H3).
  apply IH; assumption.
Qed.

(** Without a click on the save button the application stays on the key
    screen. *)
Lemma session000_stays_on_the_key_screen (stored : option jsstring) (evs : list Event) :
  ~ In click_saveApiKeyButton evs ->
  forall a : App Part000Page.Globals,
  Part000Page.chat (globals a) = None ->
  let b := session (Part000Page.handle host sdk examples_element) evs a in
  Part000Page.chat (globals b) = None
  /\ mainContent_hidden (screen b) = mainContent_hidden (screen a)
  /\ apiKeyScreen_hidden (screen b) = apiKeyScreen_hidden (screen a)
  /\ sent (page b) = sent (page a)
  /\ gemini_api_key b = gemini_api_key a.
Proof.
  induction evs as [|ev evs IH]; intros Hn a Hc; [repeat split; assumption|].
  cbn [session fold_left].
  assert (Hn' : ~ In click_saveApiKeyButton evs) by (intro H; apply Hn; right; exact H).
  assert (Hstep : let a1 := Part000Page.handle host sdk examples_element ev a in
                  Part000Page.chat (globals a1) = None
                  /\ mainContent_hidden (screen a1) = mainContent_hidden (screen a)
                  /\ apiKeyScreen_hidden (screen a1) = apiKeyScreen_hidden (screen a)
                  /\ sent (page a1) = sent (page a)
                  /\ gemini_api_key a1 = gemini_api_key a).
  { destruct ev as [v|v|e| |content| ]; cbn [Part000Page.handle]; cbv zeta.
    - repeat split; assumption.
    - repeat split; assumption.
    - cbn. unfold Part000Page.on_keydown.
      destruct (jsstring_eqb (event_key e) (lit "Enter") && negb (event_shiftKey e));
        [|repeat split; assumption].
      cbn [snd]. unfold Part000Page.generate, on_page. rewrite Hc.
      cbn [option_map Part000.generate ret set_page page screen globals gemini_api_key snd].
      repeat split; assumption.
    - exfalso. apply Hn. left. reflexivity.
    - repeat split; assumption.
    - repeat split; assumption. }
  cbv zeta in Hstep. destruct Hstep as (S1 & S2 & S3 & S4 & S5).
  destruct (IH Hn' _ S1) as (I1 & I2 & I3 & I4 & I5).
  cbv zeta. split; [exact I1|]. split; [exact (eq_trans I2 S2)|].
  split; [exact (eq_trans I3 S3)|].
  split; [exact (eq_trans I4 S4)|exact (eq_trans I5 S5)].
Qed.

Lemma session001_stays_on_the_key_screen (stored : option jsstring) (evs : list Event) :
  ~ In click_saveApiKeyButton evs ->
  forall a : App Part001Page.Globals,
  Part001Page.textChat (globals a) = None ->
  let b := session (Part001Page.handle host sdk examples_element) evs a in
  Part001Page.textChat (globals b) = None
  /\ mainContent_hidden (screen b) = mainContent_hidden (screen a)
  /\ apiKeyScreen_hidden (screen b) = apiKeyScreen_hidden (screen a)
  /\ sent (page b) = sent (page a)
  /\ gemini_api_key b = gemini_api_key a.
Proof.
  induction evs as [|ev evs IH]; intros Hn a Hc; [repeat split; assumption|].
  cbn [session fold_left].
  assert (Hn' : ~ In click_saveApiKeyButton evs) by (intro H; apply Hn; right; exact H).
  assert (Hstep : let a1 := Part001Page.handle host sdk examples_element ev a in
                  Part001Page.textChat (globals a1) = None
                  /\ mainContent_hidden (screen a1) = mainContent_hidden (screen a)
                  /\ apiKeyScreen_hidden (screen a1) = apiKeyScreen_hidden (screen a)
                  /\ sent (page a1) = sent (page a)
                  /\ gemini_api_key a1 = gemini_api_key a).
  { destruct ev as [v|v|e| |content| ]; cbn [Part001Page.handle]; cbv zeta.
    - repeat split; assumption.
    - repeat split; assumption.
    - cbn. unfold Part001Page.on_keydown.
      destruct (jsstring_eqb (event_key e) (lit "Enter") && negb (event_shiftKey e));
        [|repeat split; assumption].
      cbn [snd]. unfold Part001Page.generate, on_page. rewrite Hc.
      cbn [option_map Part001.generate ret set_page page screen globals gemini_api_key snd].
      repeat split; assumption.
    - exfalso. apply Hn. left. reflexivity.
    - repeat split; assumption.
    - repeat split; assumption. }
  cbv zeta in Hstep. destruct Hstep as (S1 & S2 & S3 & S4 & S5).
  destruct (IH Hn' _ S1) as (I1 & I2 & I3 & I4 & I5).
  cbv zeta. split; [exact I1|]. split; [exact (eq_trans I2 S2)|].
  split; [exact (eq_trans I3 S3)|].
  split; [exact (eq_trans I4 S4)|exact (eq_trans I5 S5)].
Qed.

End StoredKey.

(** X11. The stored key is written and never read. [part_000] and
    [part_001] call [examples.forEach] on an identifier they do not
    declare; the statement throws, whether or not the document has an
    element of that id, before [document.addEventListener] is reached, so
    the listeners registered are those of the save button and of the story
    field only. Hence a session does not depend on the key found in
    [localStorage]: page, key screen and globals are those of the session
    started without a key; and as long as the save button is not clicked,
    the key screen stays up, the main content stays hidden, nothing is
    sent and the stored key is untouched. *)
Theorem stored_key_is_never_read :
  forall (host : Host) (sdk : SDK) (examples_element : bool),
  (registered (Part000Page.event_listeners examples_element)
   = [saveApiKeyButton_click; userInput_keydown]
   /\ registered (Part001Page.event_listeners examples_element)
      = [saveApiKeyButton_click; userInput_keydown])
  /\ (forall (stored : option jsstring) (evs : list Event),
        let start stored :=
          loaded {| Part000Page.ai := None; Part000Page.chat := None |} stored in
        let run := session (Part000Page.handle host sdk examples_element) evs in
        (page (run (start stored)) = page (run (start None))
         /\ screen (run (start stored)) = screen (run (start None))
         /\ globals (run (start stored)) = globals (run (start None)))
        /\ (~ In click_saveApiKeyButton evs ->
            mainContent_hidden (screen (run (start stored))) = true
            /\ apiKeyScreen_hidden (screen (run (start stored))) = false
            /\ sent (page (run (start stored))) = []
            /\ gemini_api_key (run (start stored)) = stored))
  /\ (forall (stored : option jsstring) (evs : list Event),
        let start stored :=
          loaded {| Part001Page.textChat := None; Part001Page.imageChat := None |}
                 stored in
        let run := session (Part001Page.handle host sdk examples_element) evs in
        (page (run (start stored)) = page (run (start None))
         /\ screen (run (start stored)) = screen (run (start None))
         /\ globals (run (start stored)) = globals (run (start None)))
        /\ (~ In click_saveApiKeyButton evs ->
            mainContent_hidden (screen (run (start stored))) = true
            /\ apiKeyScreen_hidden (screen (run (start stored))) = false
            /\ sent (page (run (start stored))) = []
            /\ gemini_api_key (run (start stored)) = stored)).
Proof.
  intros host sdk examples_element. split; [|split].
  - split; reflexivity.
  - intros stored evs start run. split.
    + apply (session000_ignores_the_stored_key host sdk examples_element evs);
        reflexivity.
    + intro Hn.
      destruct (session000_stays_on_the_key_screen host sdk examples_element stored evs
                  Hn (start stored) eq_refl) as (_ & H1 & H2 & H3 & H4).
      repeat split; assumption.
  - intros stored evs start run. split.
    + apply (session001_ignores_the_stored_key host sdk examples_element evs);
        reflexivity.
    + intro Hn.
      destruct (session001_stays_on_the_key_screen host sdk examples_element stored evs
                  Hn (start stored) eq_refl) as (_ & H1 & H2 & H3 & H4).
      repeat split; assumption.
Qed.

(** X11, witness: a visit with a stored key, the load event, a click on an
    example, a story and Enter. *)
Lemma stored_key_is_never_read_witness :
  let a := session (Part000Page.handle sample_host sample_sdk true)
             [DOMContentLoaded; click_example (lit "A cat naps.");
              input_story (lit "A cat naps."); keydown (Enter_key false)]
             (loaded {| Part000Page.ai := None; Part000Page.chat := None |}
                     (Some (lit "good-key"))) in
  mainContent_hidden (screen a) = true /\ sent (page a) = [].
Proof.
  cbv zeta.
  destruct (proj2 (proj1 (proj2 (stored_key_is_never_read sample_host sample_sdk true))
                     (Some (lit "good-key"))
                     [DOMContentLoaded; click_example (lit "A cat naps.");
                      input_story (lit "A cat naps."); keydown (Enter_key false)])
              ltac:(cbn; intros [H|[H|[H|[H|[]]]]]; discriminate))
    as (H1 & _ & H2 & _).
  split; [exact H1|exact H2].
Defined.

Lemma set_page_page {G : Type} (a : App G) : set_page (page a) a = a.
Proof. destruct a; reflexivity. Qed.

(** X12. Which key events send what. [index.tsx] submits exactly when
    [e.code] is [Enter], with or without Shift, and then always sends the
    content of the field as it is, even empty, followed by the
    instructions. [part_000] and [part_001] submit exactly when [e.key] is
    [Enter] and Shift is not held; they send the trimmed content, and
    nothing when it is blank or a chat is missing, in which case the
    application is unchanged. [preventDefault] is called exactly when the
    listener submits. *)
Theorem which_key_events_send :
  forall (host : Host) (e : KeyboardEvent),
  (forall (chat : StreamingChat) (s : State),
     let submit := jsstring_eqb (event_code e) (lit "Enter") in
     let r := IndexPage.on_keydown host chat e s in
     fst r = submit
     /\ sent (snd (snd r))
        = sent s ++ (if submit
                     then [(the_chat, userInput_value (dom s) ++ Index.additionalInstructions)]
                     else [])
     /\ (submit = false -> snd r = (Normal tt, s)))
  /\ (forall (a : App Part000Page.Globals),
        let submit := jsstring_eqb (event_key e) (lit "Enter") && negb (event_shiftKey e) in
        let story := trim (userInput_value (dom (page a))) in
        let r := Part000Page.on_keydown host e a in
        fst r = submit
        /\ sent (page (snd (snd r)))
           = sent (page a)
             ++ (if submit
                 then match Part000Page.chat (globals a), story with
                      | Some _, _ :: _ => [(the_chat, story ++ Part000.additionalInstructions)]
                      | _, _ => []
                      end
                 else [])
        /\ (submit = false \/ Part000Page.chat (globals a) = None \/ story = [] ->
            snd r = (Normal tt, a)))
  /\ (forall (a : App Part001Page.Globals),
        let submit := jsstring_eqb (event_key e) (lit "Enter") && negb (event_shiftKey e) in
        let story := trim (userInput_value (dom (page a))) in
        let r := Part001Page.on_keydown host e a in
        fst r = submit
        /\ (exists reqs,
              sent (page (snd (snd r))) = sent (page a) ++ reqs
              /\ if submit
                 then match Part001Page.textChat (globals a),
                            Part001Page.imageChat (globals a), story with
                      | Some _, Some _, _ :: _ =>
                          exists more,
                            reqs = (the_textChat, Part001.scriptwriterPrompt story) :: more
                            /\ Forall (fun q => fst q = the_imageChat) more
                      | _, _, _ => reqs = []
                      end
                 else reqs = [])
        /\ (submit = false \/ Part001Page.textChat (globals a) = None
            \/ Part001Page.imageChat (globals a) = None \/ story = [] ->
            snd r = (Normal tt, a))).
Proof.
  intros host e. split; [|split].
  - intros chat s submit r. subst r submit. unfold IndexPage.on_keydown.
    destruct (jsstring_eqb (event_code e) (lit "Enter")); cbn [fst snd].
    + split; [reflexivity|]. split; [apply index_generate_sent|discriminate].
    + rewrite app_nil_r. repeat split.
  - intros a submit story r. subst r. unfold Part000Page.on_keydown. fold submit.
    destruct submit; cbn [fst snd].
    + split; [reflexivity|]. fold story.
      unfold Part000Page.generate, on_page.
      pose proof (part000_generate_sent host
                    (option_map chat_sendMessageStream (Part000Page.chat (globals a)))
                    story (page a)) as Hsent.
      assert (Hid : trim story = story) by apply trim_idempotent.
      split.
      * destruct (Part000.generate host _ story (page a)) as [c p]. cbn [snd] in *.
        cbn [set_page page]. rewrite Hsent, Hid.
        destruct (Part000Page.chat (globals a)); reflexivity.
      * intros [H|[H|H]]; [discriminate| |].
        -- rewrite H. cbn [option_map Part000.generate ret]. rewrite set_page_page.
           reflexivity.
        -- unfold Part000.generate. rewrite Hid, H.
           destruct (option_map chat_sendMessageStream (Part000Page.chat (globals a)));
             cbn [ret]; rewrite set_page_page; reflexivity.
    + rewrite app_nil_r. repeat split.
  - intros a submit story r. subst r. unfold Part001Page.on_keydown. fold submit.
    destruct submit; cbn [fst snd].
    + split; [reflexivity|]. fold story.
      unfold Part001Page.generate, on_page.
      assert (Hid : trim story = story) by apply trim_idempotent.
      destruct (part001_generate_sent host
                  (option_map chat_sendMessage (Part001Page.textChat (globals a)))
                  (option_map chat_sendMessageStream (Part001Page.imageChat (globals a)))
                  story (page a)) as (reqs & Hsent & Hreqs).
      split.
      * exists reqs.
        destruct (Part001.generate host _ _ story (page a)) as [c p]. cbn [snd] in *.
        cbn [set_page page]. split; [exact Hsent|]. rewrite Hid in Hreqs.
        destruct (Part001Page.textChat (globals a));
          destruct (Part001Page.imageChat (globals a)); exact Hreqs.
      * intros [H|[H|[H|H]]]; [discriminate| | |].
        -- rewrite H. cbn [option_map Part001.generate ret]. rewrite set_page_page.
           reflexivity.
        -- rewrite H. unfold Part001.generate.
           destruct (option_map chat_sendMessage (Part001Page.textChat (globals a)));
             cbn [option_map ret]; rewrite set_page_page; reflexivity.
        -- unfold Part001.generate. rewrite Hid, H.
           destruct (option_map chat_sendMessage (Part001Page.textChat (globals a)));
             destruct (option_map chat_sendMessageStream
                         (Part001Page.imageChat (globals a)));
             cbn [ret]; rewrite set_page_page; reflexivity.
    + split; [reflexivity|]. split; [exists []; rewrite app_nil_r; split; reflexivity|].
      reflexivity.
Qed.

(** X12, witness: Shift and Enter on a field of two spaces. *)
Lemma which_key_events_send_witness :
  let typed := {| dom := set_userInput_value (lit "  ") (dom fresh_page); sent := [] |} in
  sent (snd (snd (IndexPage.on_keydown sample_host (always [two_pairs])
                    (Enter_key true) typed)))
  = [(the_chat, lit "  " ++ Index.additionalInstructions)]
  /\ snd (Part000Page.on_keydown sample_host (Enter_key true)
            (loaded {| Part000Page.ai := None; Part000Page.chat := Some sample_chat |} None))
     = (Normal tt,
        loaded {| Part000Page.ai := None; Part000Page.chat := Some sample_chat |} None).
Proof.
  cbv zeta.
  destruct (which_key_events_send sample_host (Enter_key true)) as (HI & H0 & _).
  split.
  - exact (proj1 (proj2 (HI (always [two_pairs])
                           {| dom := set_userInput_value (lit "  ") (dom fresh_page);
                              sent := [] |}))).
  - exact (proj2 (proj2 (H0 (loaded {| Part000Page.ai := None;
                                       Part000Page.chat := Some sample_chat |} None)))
             (or_introl eq_refl)).
Defined.
